(** * Forseti inventory crawler: resources, memoised fetches and traversal

    A shallow embedding of
    [google/cloud/forseti/services/inventory/base/resources.py]:
    the [Resource] class and the subclasses that override its behaviour,
    the [cached] decorator, the side-band fetches of organizations,
    folders, projects and datasets, [from_root_id], the composite root,
    the iterators built by [resource_iter_class_factory], and the
    visitor traversal [accept] / [try_accept].

    Conventions of the embedding.
    - Python values are the inductive [value]; a [dict] is a [gmap].
    - A raised exception is a value of [result]; a method that mutates its
      receiver returns the new receiver next to its result.
    - A Python reference to an ancestor (the elements of [_stack]) is
      embedded as the ancestor's value when the reference was taken; the
      methods modelled here read only the class, the data, the root flag
      and the stack of an ancestor, none of which the traversal or a
      side-band fetch changes after [accept] has bound the stack
      ([__setitem__] and [__delitem__], which change the data, are
      modelled on the resource they are called on).
    - The API client, the visitor and the child iterators are external:
      the client is an oracle with a call log, the visitor a record of
      its observable behaviour, and a child iterator the finite sequence
      of resources it yields followed by the way it ends. The iterators
      that are modelled themselves produce such a sequence from the
      answers of the client, driven to their end. *)

From stdpp Require Import gmap strings list.
From Stdlib Require Import ZArith DecimalString HexString.
From Stdlib Require DecimalZ DecimalPos.

Set Warnings "-register-all".
Set Default Proof Using "Type".

(* ================================================================= *)
(** ** Python values, exceptions and results *)

Module Py.

Inductive value : Type :=
| VNone
| VBool (b : bool)
| VInt (z : Z)
| VStr (s : string)
| VList (l : list value)
| VDict (d : gmap string value).

(** Exception classes that the modelled code raises or catches. *)
Inductive exn_class : Type :=
| ApiExecutionError
| ResourceNotSupported
| KeyError
| IndexError
| TypeError
| AttributeError
| ValueError
| RecursionError
| NotImplementedError
| Exception.

(** An exception object: its class and what [str(e)] returns. *)
Record exn : Type := mkExn { exn_cls : exn_class; exn_str : string }.

Inductive result (A : Type) : Type :=
| Ok (a : A)
| Raise (e : exn).
Arguments Ok {A} a.
Arguments Raise {A} e.

Definition bind {A B} (m : result A) (k : A -> result B) : result B :=
  match m with
  | Ok a => k a
  | Raise e => Raise e
  end.

Definition is_ok {A} (m : result A) : bool :=
  match m with Ok _ => true | Raise _ => false end.

#[global] Instance result_ret : MRet result := @Ok.
#[global] Instance result_bind : MBind result := fun A B k m => bind m k.
#[global] Instance result_fmap : FMap result :=
  fun A B f m => bind m (fun a => Ok (f a)).

Definition exn_class_eqb (a b : exn_class) : bool :=
  match a, b with
  | ApiExecutionError, ApiExecutionError
  | ResourceNotSupported, ResourceNotSupported
  | KeyError, KeyError
  | IndexError, IndexError
  | TypeError, TypeError
  | AttributeError, AttributeError
  | ValueError, ValueError
  | RecursionError, RecursionError
  | NotImplementedError, NotImplementedError
  | Exception, Exception => true
  | _, _ => false
  end.

(** [isinstance(e, c)] for the classes above; every class is an
    [Exception]. *)
Definition isinstance (e : exn) (c : exn_class) : bool :=
  match c with
  | Exception => true
  | _ => exn_class_eqb (exn_cls e) c
  end.

(** Truth value of an object, as tested by [if x:] and [not x]. *)
Definition truthy (v : value) : bool :=
  match v with
  | VNone => false
  | VBool b => b
  | VInt z => negb (Z.eqb z 0)
  | VStr s => negb (String.eqb s "")
  | VList l => match l with [] => false | _ => true end
  | VDict d => negb (Nat.eqb (size d) 0)
  end.

(** [v == s] for a string literal [s]. *)
Definition eq_str (v : value) (s : string) : bool :=
  match v with
  | VStr s' => String.eqb s' s
  | _ => false
  end.

(** Functions of the Python runtime and of libraries outside the
    repository that the code calls and whose results the model leaves
    uninterpreted. *)
Class Runtime : Type := {
  (** [repr(v)] *)
  py_repr : value -> string;
  (** [json.dumps(d, sort_keys=True)] *)
  json_dumps : value -> string;
  (** [hashlib.blake2b(s.encode()).hexdigest()] *)
  blake2b_hexdigest : string -> string;
  (** the builtin [hash] on strings, seeded per process *)
  py_hash : string -> Z;
  (** [iam_helpers.convert_iam_to_bigquery_policy] *)
  convert_iam_to_bigquery_policy : value -> value;
  (** [iam_helpers.convert_bigquery_policy_to_iam] *)
  convert_bigquery_policy_to_iam : value -> value -> value
}.

(** [str(v)]: strings print as themselves, numbers in decimal, the
    containers as their [repr]. *)
Definition str `{Runtime} (v : value) : string :=
  match v with
  | VNone => "None"
  | VBool true => "True"
  | VBool false => "False"
  | VInt z => NilZero.string_of_int (Z.to_int z)
  | VStr s => s
  | VList _ | VDict _ => py_repr v
  end.

(** [v[k]] on an arbitrary object with a string key. *)
Definition subscript `{Runtime} (v : value) (k : string) : result value :=
  match v with
  | VDict d =>
      match d !! k with
      | Some x => Ok x
      | None => Raise (mkExn KeyError (py_repr (VStr k)))
      end
  | VStr _ =>
      Raise (mkExn TypeError "string indices must be integers")
  | VList _ =>
      Raise (mkExn TypeError "list indices must be integers or slices, not str")
  | _ =>
      Raise (mkExn TypeError "object is not subscriptable")
  end.

(** [d.get(k, default)] on a dict; on any other object the attribute
    [get] is missing. *)
Definition dict_get (v : value) (k : string) (dflt : value)
  : result value :=
  match v with
  | VDict d => Ok (default dflt (d !! k))
  | _ => Raise (mkExn AttributeError "object has no attribute 'get'")
  end.

Definition slash : Ascii.ascii := Ascii.ascii_of_nat 47.

(** Receiver of a string method: [v.split(...)], [v.encode()]. *)
Definition str_receiver (method : string) (v : value) : result string :=
  match v with
  | VStr s => Ok s
  | _ =>
      Raise (mkExn AttributeError
               ("object has no attribute '" +:+ method +:+ "'"))
  end.

(** [sep.join(vs)]: every item must be a string. *)
Fixpoint join_strs (vs : list value) : result (list string) :=
  match vs with
  | [] => Ok []
  | VStr s :: vs' => ss ← join_strs vs'; Ok (s :: ss)
  | _ :: _ =>
      Raise (mkExn TypeError "sequence item: expected str instance")
  end.

Definition join (sep : string) (vs : list value) : result string :=
  ss ← join_strs vs; Ok (String.concat sep ss).

(** [needle in hay] on strings. *)
Fixpoint contains (needle hay : string) : bool :=
  String.prefix needle hay
  || match hay with
     | EmptyString => false
     | String _ hay' => contains needle hay'
     end.

(** [k in v] for a string [k]: a key of a dict, an item of a list, a
    substring of a string. *)
Definition py_in (k : string) (v : value) : result bool :=
  match v with
  | VDict d => Ok (bool_decide (is_Some (d !! k)))
  | VList l => Ok (existsb (fun x => eq_str x k) l)
  | VStr s => Ok (contains k s)
  | _ => Raise (mkExn TypeError "argument is not iterable")
  end.

(** What follows the first ["/"], if there is one. *)
Fixpoint after_first_slash (s : string) : option string :=
  match s with
  | EmptyString => None
  | String c s' =>
      if Ascii.eqb c slash then Some s' else after_first_slash s'
  end.

(** [s.split('/', 1)[-1]] *)
Definition split1_last (s : string) : string :=
  default s (after_first_slash s).

Fixpoint split_last_from (cur s : string) : string :=
  match s with
  | EmptyString => cur
  | String c s' =>
      if Ascii.eqb c slash then split_last_from s' s'
      else split_last_from cur s'
  end.

(** [s.split('/')[-1]] *)
Definition split_last (s : string) : string := split_last_from s s.

Definition newline : string := String (Ascii.ascii_of_nat 10) EmptyString.
Definition dquote : string := String (Ascii.ascii_of_nat 34) EmptyString.

(** ['%u' % ctypes.c_size_t(n).value] on a 64-bit platform. *)
Definition fmt_size_t (n : Z) : string :=
  NilZero.string_of_int (Z.to_int (n mod 2 ^ 64)).

End Py.

Import Py.

(* ================================================================= *)
(** ** Helpers of the repository outside [resources.py] *)

(** Modelled from the spec: [utils.to_type_name] is not among the sources;
    the spec gives a segment of a full resource name as the type tag and
    the key separated by a slash. *)
Definition to_type_name `{Runtime} (resource_type : string) (resource_key : value)
  : string :=
  resource_type +:+ "/" +:+ str resource_key.

(** Modelled from the spec: [utils.to_full_resource_name] is not among the
    sources; the spec gives the full name as the parent's full name, a
    slash and the segment, the root contributing an empty prefix. *)
Definition to_full_resource_name (full_parent_name type_name : string)
  : string :=
  if String.eqb full_parent_name "" then type_name
  else full_parent_name +:+ "/" +:+ type_name.

(* ================================================================= *)
(** ** Resources *)

(** [size_t_hash] *)
Definition size_t_hash `{Runtime} (key : value) : result string :=
  s ← str_receiver "encode" key;
  Ok (fmt_size_t (Z.of_N (HexString.Raw.to_N (blake2b_hexdigest s) 0%N))).

(** The classes of resource: those that override a method of [Resource]
    by hand, and the two families produced by [resource_class_factory]
    and [k8_resource_class_factory], which carry the name of the class,
    its type tag and how its key is derived. *)
Inductive resource_class : Type :=
| CompositeRootResource
| ResourceManagerOrganization
| ResourceManagerAccessPolicy
| ResourceManagerOrgPolicy
| ResourceManagerFolder
| ResourceManagerProject
| ResourceManagerLien
| BigqueryDataSet
| BillingAccount
| IamCuratedRole
| LoggingSink
| GsuiteGroup
| K8sResourceSubclass (class_name resource_type : string)
| ResourceSubclass (class_name resource_type key_field : string)
                   (hash_key : bool).

(** A resource object. [_contains] holds, for each child iterator class
    registered for the resource, what driving [yielder_cls(self,
    client).iter()] produces: the children it yields, in order, and the
    exception that ends the iteration, if any. [attrs] holds the
    attributes that [cached] and [_set_cache] add to the instance.
    The metadata, the timestamp and the inventory key are passed through
    by the code and are left out. *)
Inductive Resource : Type := mkResource {
  cls : resource_class;
  _data : value;
  _root : bool;
  _stack : option (list Resource);
  _visitor : bool;
  _contains : list (list Resource * option exn);
  _warning : list string;
  _full_resource_name : option string;
  _enabled_service_names : option (list value);
  attrs : gmap string value
}.

Abbreviation yielder := (list Resource * option exn)%type.

(** [Resource.__init__] (and [ResourceManagerProject.__init__]) *)
Definition new_resource (c : resource_class) (data : value)
    (root : bool) (contains : list yielder) : Resource :=
  {| cls := c; _data := data; _root := root; _stack := None;
     _visitor := false; _contains := contains; _warning := [];
     _full_resource_name := None; _enabled_service_names := None;
     attrs := ∅ |}.

Definition set_stack (self : Resource) (stack : list Resource) : Resource :=
  {| cls := cls self; _data := _data self; _root := _root self;
     _stack := Some stack; _visitor := _visitor self;
     _contains := _contains self; _warning := _warning self;
     _full_resource_name := _full_resource_name self;
     _enabled_service_names := _enabled_service_names self;
     attrs := attrs self |}.

Definition set_visitor (self : Resource) : Resource :=
  {| cls := cls self; _data := _data self; _root := _root self;
     _stack := _stack self; _visitor := true;
     _contains := _contains self; _warning := _warning self;
     _full_resource_name := _full_resource_name self;
     _enabled_service_names := _enabled_service_names self;
     attrs := attrs self |}.

Definition set_warning (self : Resource) (w : list string) : Resource :=
  {| cls := cls self; _data := _data self; _root := _root self;
     _stack := _stack self; _visitor := _visitor self;
     _contains := _contains self; _warning := w;
     _full_resource_name := _full_resource_name self;
     _enabled_service_names := _enabled_service_names self;
     attrs := attrs self |}.

Definition set_full_resource_name (self : Resource) (n : string) : Resource :=
  {| cls := cls self; _data := _data self; _root := _root self;
     _stack := _stack self; _visitor := _visitor self;
     _contains := _contains self; _warning := _warning self;
     _full_resource_name := Some n;
     _enabled_service_names := _enabled_service_names self;
     attrs := attrs self |}.

Definition set_enabled_service_names (self : Resource) (names : list value)
  : Resource :=
  {| cls := cls self; _data := _data self; _root := _root self;
     _stack := _stack self; _visitor := _visitor self;
     _contains := _contains self; _warning := _warning self;
     _full_resource_name := _full_resource_name self;
     _enabled_service_names := Some names;
     attrs := attrs self |}.

Definition set_attrs (self : Resource) (a : gmap string value) : Resource :=
  {| cls := cls self; _data := _data self; _root := _root self;
     _stack := _stack self; _visitor := _visitor self;
     _contains := _contains self; _warning := _warning self;
     _full_resource_name := _full_resource_name self;
     _enabled_service_names := _enabled_service_names self;
     attrs := a |}.

(** [self.__class__.__name__] *)
Definition class_name_of (c : resource_class) : string :=
  match c with
  | CompositeRootResource => "CompositeRootResource"
  | ResourceManagerOrganization => "ResourceManagerOrganization"
  | ResourceManagerAccessPolicy => "ResourceManagerAccessPolicy"
  | ResourceManagerOrgPolicy => "ResourceManagerOrgPolicy"
  | ResourceManagerFolder => "ResourceManagerFolder"
  | ResourceManagerProject => "ResourceManagerProject"
  | ResourceManagerLien => "ResourceManagerLien"
  | BigqueryDataSet => "BigqueryDataSet"
  | BillingAccount => "BillingAccount"
  | IamCuratedRole => "IamCuratedRole"
  | LoggingSink => "LoggingSink"
  | GsuiteGroup => "GsuiteGroup"
  | K8sResourceSubclass n _ => n
  | ResourceSubclass n _ _ _ => n
  end.

(** [type()] of a class: the first argument of its class factory. *)
Definition class_type (c : resource_class) : string :=
  match c with
  | CompositeRootResource => "composite_root"
  | ResourceManagerOrganization => "organization"
  | ResourceManagerAccessPolicy => "crm_access_policy"
  | ResourceManagerOrgPolicy => "crm_org_policy"
  | ResourceManagerFolder => "folder"
  | ResourceManagerProject => "project"
  | ResourceManagerLien => "lien"
  | BigqueryDataSet => "dataset"
  | BillingAccount => "billing_account"
  | IamCuratedRole => "role"
  | LoggingSink => "sink"
  | GsuiteGroup => "gsuite_group"
  | K8sResourceSubclass _ t => t
  | ResourceSubclass _ t _ _ => t
  end.

Definition type (self : Resource) : string := class_type (cls self).

(** [should_dispatch]: [False] in [Resource], overridden to [True] by
    folders, projects and GSuite groups. *)
Definition should_dispatch (self : Resource) : bool :=
  match cls self with
  | ResourceManagerFolder | ResourceManagerProject | GsuiteGroup => true
  | _ => false
  end.

(** [Resource.__getitem__]: [self._data[key]], a [KeyError] being raised
    again with the key and the data in its message. *)
Definition getitem `{Runtime} (self : Resource) (k : string) : result value :=
  match _data self with
  | VDict d =>
      match d !! k with
      | Some v => Ok v
      | None =>
          Raise (mkExn KeyError
                   (py_repr (VStr ("key: " +:+ k +:+ ", data: "
                                   +:+ str (_data self)))))
      end
  | other => subscript other k
  end.

(** [self[0]], the first row of a resource whose data is a list. *)
Definition getitem0 `{Runtime} (self : Resource) : result value :=
  match _data self with
  | VDict _ =>
      Raise (mkExn KeyError
               (py_repr (VStr ("key: 0, data: " +:+ str (_data self)))))
  | VList (row :: _) => Ok row
  | VList [] => Raise (mkExn IndexError "list index out of range")
  | VStr s =>
      match s with
      | String c _ => Ok (VStr (String c EmptyString))
      | EmptyString => Raise (mkExn IndexError "string index out of range")
      end
  | _ => Raise (mkExn TypeError "object is not subscriptable")
  end.

(** [Resource.parent], with the override of [IamCuratedRole]. Indexing
    the unset stack [None] raises [TypeError], which the handler for
    [IndexError] does not catch. *)
Definition parent (self : Resource) : result (option Resource) :=
  match cls self with
  | IamCuratedRole => Ok None
  | _ =>
      if _root self then Ok (Some self)
      else
        match _stack self with
        | None =>
            Raise (mkExn TypeError "'NoneType' object is not subscriptable")
        | Some st => Ok (last st)
        end
  end.

(** [Resource.stack] *)
Definition stack (self : Resource) : result (list Resource) :=
  match _stack self with
  | None => Raise (mkExn Exception "Stack not initialized yet")
  | Some st => Ok st
  end.

(** [Resource.add_warning] *)
Definition add_warning (self : Resource) (warning : string) : Resource :=
  set_warning self (_warning self ++ [warning]).

(** [Resource.get_warning] *)
Definition get_warning (self : Resource) : string :=
  String.concat newline (_warning self).

Definition no_attribute (attr : string) : exn :=
  mkExn AttributeError
    ("'NoneType' object has no attribute '" +:+ attr +:+ "'").

Definition recursion_error : exn :=
  mkExn RecursionError "maximum recursion depth exceeded".

(** [key()] of every class. The sink and the organisation policy build
    their key from [self.parent().type()] and [self.parent().key()]; on a
    root the parent is the resource itself and the call does not return. *)
Fixpoint key `{Runtime} (self : Resource) : result value :=
  let parent_type_key : result (string * value) :=
    if _root self then Raise recursion_error
    else
      match _stack self with
      | None =>
          Raise (mkExn TypeError "'NoneType' object is not subscriptable")
      | Some st =>
          (fix at_last (l : list Resource) : result (string * value) :=
             match l with
             | [] => Raise (no_attribute "type")
             | [p] => k ← key p; Ok (type p, k)
             | _ :: l' => at_last l'
             end) st
      end in
  match cls self with
  | CompositeRootResource => Ok (VStr "root")
  | ResourceManagerOrganization | ResourceManagerFolder | BillingAccount =>
      name ← getitem self "name";
      s ← str_receiver "split" name;
      Ok (VStr (split1_last s))
  | ResourceManagerAccessPolicy => getitem self "name"
  | ResourceManagerOrgPolicy =>
      has_constraint ← py_in "constraint" (_data self);
      '(pt, pk) ← parent_type_key;
      constraint ←
        (if has_constraint : bool then getitem self "constraint"
         else row ← getitem0 self; subscript row "constraint");
      unique_key ← join "/" [VStr pt; pk; constraint];
      Ok (VStr (fmt_size_t (py_hash unique_key)))
  | ResourceManagerProject => getitem self "projectId"
  | ResourceManagerLien =>
      name ← getitem self "name";
      s ← str_receiver "split" name;
      Ok (VStr (split_last s))
  | BigqueryDataSet | GsuiteGroup => getitem self "id"
  | IamCuratedRole => getitem self "name"
  | LoggingSink =>
      '(pt, pk) ← parent_type_key;
      name ← getitem self "name";
      sink_name ← join "/" [VStr pt; pk; VStr (type self); name];
      Ok (VStr sink_name)
  | K8sResourceSubclass _ _ =>
      metadata ← getitem self "metadata";
      uid ← subscript metadata "uid";
      h ← size_t_hash uid;
      Ok (VStr h)
  | ResourceSubclass _ _ key_field hash_key =>
      v ← getitem self key_field;
      if hash_key then h ← size_t_hash v; Ok (VStr h) else Ok v
  end.

(** [Resource.__repr__] *)
Definition repr `{Runtime} (self : Resource) : result string :=
  p ← parent self;
  match p with
  | None => Raise (no_attribute "type")
  | Some p =>
      k ← key p;
      Ok (class_name_of (cls self) +:+ "<data=" +:+ dquote
          +:+ json_dumps (_data self) +:+ dquote
          +:+ ", parent_resource_type=" +:+ dquote
          +:+ type p +:+ dquote
          +:+ ", parent_resource_id=" +:+ dquote
          +:+ str k +:+ dquote +:+ ">")
  end.

(** [Resource.get_full_resource_name]: builds the name on the first call
    and stores it on the instance. The parent's own name is asked of the
    parent object found on top of the stack. *)
Fixpoint get_full_resource_name `{Runtime} (self : Resource)
  : result string * Resource :=
  let parent_full_res_name : result string :=
    if _root self then Ok ""
    else
      match cls self with
      | IamCuratedRole => Ok ""
      | _ =>
          match _stack self with
          | None =>
              Raise (mkExn TypeError "'NoneType' object is not subscriptable")
          | Some st =>
              (fix at_last (l : list Resource) : result string :=
                 match l with
                 | [] => Ok ""
                 | [p] => fst (get_full_resource_name p)
                 | _ :: l' => at_last l'
                 end) st
          end
      end in
  match _full_resource_name self with
  | Some n =>
      if truthy (VStr n) then (Ok n, self)
      else
        match key self with
        | Raise e => (Raise e, self)
        | Ok k =>
            match parent_full_res_name with
            | Raise e => (Raise e, self)
            | Ok pn =>
                let n := to_full_resource_name pn (to_type_name (type self) k) in
                (Ok n, set_full_resource_name self n)
            end
        end
  | None =>
      match key self with
      | Raise e => (Raise e, self)
      | Ok k =>
          match parent_full_res_name with
          | Raise e => (Raise e, self)
          | Ok pn =>
              let n := to_full_resource_name pn (to_type_name (type self) k) in
              (Ok n, set_full_resource_name self n)
          end
      end
  end.

(** *** The full name as the spec gives it *)

(** The segment of a resource in a full name. *)
Definition segment `{Runtime} (r : Resource) : result string :=
  k ← key r; Ok (to_type_name (type r) k).

Fixpoint segments `{Runtime} (rs : list Resource) : result (list string) :=
  match rs with
  | [] => Ok []
  | r :: rs' => s ← segment r; ss ← segments rs'; Ok (s :: ss)
  end.

(** The ancestors of a resource, as the spec has them: the stack that
    [accept] bound, from the root down to the parent. *)
Definition ancestors (self : Resource) : list Resource :=
  default [] (_stack self).

(** The full name according to the spec: the segments of the ancestors
    and of the resource itself, joined by slashes. *)
Definition full_resource_name_spec `{Runtime} (self : Resource)
  : result string :=
  ss ← segments (ancestors self ++ [self]); Ok (String.concat "/" ss).

(** *** The resources that the naming goes through *)

(** The resources whose segments [get_full_resource_name] joins: the
    resource itself, below those of the resource that [parent()] gives
    above it. A root, a curated role and a resource bound to an empty
    stack have nothing above them. *)
Fixpoint lineage (self : Resource) : list Resource :=
  (if _root self then []
   else
     match cls self with
     | IamCuratedRole => []
     | _ =>
         match _stack self with
         | None => []
         | Some st =>
             (fix at_last (l : list Resource) : list Resource :=
                match l with
                | [] => []
                | [p] => lineage p
                | _ :: l' => at_last l'
                end) st
         end
     end) ++ [self].

(** The resource above [self] in its lineage, if any. *)
Definition above (self : Resource) : option Resource :=
  if _root self then None
  else
    match cls self with
    | IamCuratedRole => None
    | _ =>
        match _stack self with
        | None => None
        | Some st => last st
        end
    end.

(** A resource that follows its stack: neither a root nor a curated
    role. *)
Definition follows_stack (r : Resource) : Prop :=
  _root r = false /\ cls r <> IamCuratedRole.

(** A stack as [accept] builds it: every element is bound to the
    elements before it. *)
Definition chained (st : list Resource) : Prop :=
  forall i p, st !! i = Some p -> _stack p = Some (take i st).

(** A resource that can be named: it is a root or a curated role, or its
    stack is bound; and no name has been stored on it yet. *)
Definition nameable (r : Resource) : Prop :=
  (_root r = true \/ cls r = IamCuratedRole \/ is_Some (_stack r))
  /\ _full_resource_name r = None.


(* ================================================================= *)
(** ** The API client and methods that call it *)

(** One invocation of a method of the API client. *)
Record api_call : Type := mkCall {
  call_method : string;
  call_args : list value
}.

(** The API client: what a method returns, or raises, when invoked with
    given arguments after the invocations made so far; and, for a resource
    built by the factory of a type from given data, what the child
    iterators registered for the type produce. *)
Record Client : Type := mkClient {
  respond : list api_call -> api_call -> result (value * value);
  iterate : resource_class -> value -> list yielder
}.

(** A method that may mutate its receiver, call the client and raise:
    the state is the receiver and the log of client invocations. *)
Definition M (A : Type) : Type :=
  Resource * list api_call -> result A * (Resource * list api_call).

#[global] Instance M_ret : MRet M := fun A a st => (Ok a, st).
#[global] Instance M_bind : MBind M := fun A B k m st =>
  match m st with
  | (Ok a, st') => k a st'
  | (Raise e, st') => (Raise e, st')
  end.

Definition lift {A} (r : result A) : M A := fun st => (r, st).

Definition get_self : M Resource := fun st => (Ok (fst st), st).

Definition modify_self (f : Resource -> Resource) : M unit :=
  fun st => (Ok tt, (f (fst st), snd st)).

(** [try: m except (classes) as e: h e] *)
Definition try_except {A} (m : M A) (classes : list exn_class)
    (h : exn -> M A) : M A :=
  fun st =>
    match m st with
    | (Ok a, st') => (Ok a, st')
    | (Raise e, st') =>
        if existsb (isinstance e) classes then h e st' else (Raise e, st')
    end.

(** [client.method]: looking the method up on [None] fails. *)
Definition client_method (client : option Client) (method : string)
  : M Client :=
  match client with
  | None => lift (Raise (no_attribute method))
  | Some c => mret c
  end.

(** [c.method( *args )] *)
Definition invoke (c : Client) (method : string) (args : list value)
  : M (value * value) :=
  fun st =>
    let call := mkCall method args in
    (respond c (snd st) call, (fst st, snd st ++ [call])).

(** The invocations of a method of the client in a log. *)
Definition count_calls (method : string) (log : list api_call) : nat :=
  length (filter (fun c => call_method c = method) log).

Definition api_errors : list exn_class :=
  [ApiExecutionError; ResourceNotSupported].

(** The [cached] decorator. *)
Definition cached (field_name : string) (f : option Client -> M value)
  : option Client -> M value :=
  let field_name := "__cached_" +:+ field_name in
  fun client st =>
    match attrs (fst st) !! field_name with
    | Some v => (Ok v, st)
    | None =>
        match f client st with
        | (Ok result, (self, log)) =>
            (Ok result,
             (set_attrs self (<[field_name := result]> (attrs self)), log))
        | (Raise e, st') => (Raise e, st')
        end
    end.

(** The side-band templates of [Resource], which fetch nothing. *)
Module Base.
Definition get_iam_policy : option Client -> M value :=
  cached "iam_policy" (fun _ => mret VNone).
Definition get_dataset_policy : option Client -> M value :=
  cached "dataset_policy" (fun _ => mret VNone).
Definition get_billing_info : option Client -> M value :=
  cached "billing_info" (fun _ => mret VNone).
Definition get_enabled_apis : option Client -> M value :=
  cached "enabled_apis" (fun _ => mret VNone).
End Base.

(** [FACTORIES[name].create_new(data, root=root)] for the factory whose
    class is [c]: the children of the new resource are those the client
    lets the registered iterators produce. *)
Definition create_new (client : Client) (c : resource_class) (data : value)
    (root : bool) : Resource :=
  new_resource c data root (iterate client c data).

(** What the three [fetch] class methods do when the client raises an
    API error: a resource holding only the name, with a warning. *)
Definition fake_resource (client : Client) (c : resource_class)
    (resource_key err_msg : string) (root : bool) : Resource :=
  let data := VDict {[ "name" := VStr resource_key ]} in
  let resource := create_new client c data root in
  add_warning resource err_msg.

Module Organization.

(** [ResourceManagerOrganization.fetch] *)
Definition fetch `{Runtime} (client : Client) (resource_key : string)
    (root : bool) (log : list api_call)
  : result Resource * list api_call :=
  let call := mkCall "fetch_crm_organization" [VStr resource_key] in
  match respond client log call with
  | Ok (data, metadata) =>
      (Ok (create_new client ResourceManagerOrganization data root),
       log ++ [call])
  | Raise e =>
      if existsb (isinstance e) api_errors then
        let err_msg :=
          "Unable to fetch Organization from API " +:+ resource_key
          +:+ ": " +:+ exn_str e +:+ ", creating fake resource." in
        (Ok (fake_resource client ResourceManagerOrganization
               resource_key err_msg root), log ++ [call])
      else (Raise e, log ++ [call])
  end.

End Organization.

Module Folder.

(** [ResourceManagerFolder.fetch] *)
Definition fetch `{Runtime} (client : Client) (resource_key : string)
    (root : bool) (log : list api_call)
  : result Resource * list api_call :=
  let call := mkCall "fetch_crm_folder" [VStr resource_key] in
  match respond client log call with
  | Ok (data, metadata) =>
      (Ok (create_new client ResourceManagerFolder data root),
       log ++ [call])
  | Raise e =>
      if existsb (isinstance e) api_errors then
        let err_msg :=
          "Unable to fetch Folder from API " +:+ resource_key
          +:+ ": " +:+ exn_str e +:+ ", creating fake resource." in
        (Ok (fake_resource client ResourceManagerFolder
               resource_key err_msg root), log ++ [call])
      else (Raise e, log ++ [call])
  end.

End Folder.

Module Project.

(** [ResourceManagerProject.fetch] *)
Definition fetch `{Runtime} (client : Client) (resource_key : string)
    (root : bool) (log : list api_call)
  : result Resource * list api_call :=
  let project_number := split1_last resource_key in
  let call := mkCall "fetch_crm_project" [VStr project_number] in
  match respond client log call with
  | Ok (data, metadata) =>
      (Ok (create_new client ResourceManagerProject data root),
       log ++ [call])
  | Raise e =>
      if existsb (isinstance e) api_errors then
        let err_msg :=
          "Unable to fetch Project from API " +:+ resource_key
          +:+ ": " +:+ exn_str e +:+ ", creating fake resource." in
        (Ok (fake_resource client ResourceManagerProject
               resource_key err_msg root), log ++ [call])
      else (Raise e, log ++ [call])
  end.

(** [enumerable] *)
Definition enumerable `{Runtime} (self : Resource) : result bool :=
  state ← getitem self "lifecycleState"; Ok (eq_str state "ACTIVE").

(** [get_billing_info] *)
Definition get_billing_info `{Runtime} : option Client -> M value :=
  cached "billing_info" (fun client =>
    self ← get_self;
    active ← lift (enumerable self);
    if active : bool then
      try_except
        (c ← client_method client "fetch_billing_project_info";
         project_number ← lift (getitem self "projectNumber");
         '(data, _) ← invoke c "fetch_billing_project_info"
                        [project_number];
         mret data)
        api_errors
        (fun e =>
           self ← get_self;
           k ← lift (key self);
           let err_msg :=
             "Could not get Billing Info for project " +:+ str k
             +:+ ": " +:+ exn_str e in
           modify_self (fun s => add_warning s err_msg);;
           mret VNone)
    else mret (VDict ∅)).

(** [api.get('config', {}).get('name')] for each [api] of the list. *)
Fixpoint config_names (apis : list value) : result (list value) :=
  match apis with
  | [] => Ok []
  | api :: apis' =>
      config ← dict_get api "config" (VDict ∅);
      name ← dict_get config "name" VNone;
      match name with
      | VList _ | VDict _ => Raise (mkExn TypeError "unhashable type")
      | _ => names ← config_names apis'; Ok (name :: names)
      end
  end.

(** The items that [for api in enabled_apis] visits. The keys of a dict
    come in the order of the map, where Python goes through them in the
    order of insertion; the items end up in a frozenset, which is read
    through its truth value and membership only. *)
Definition iter_items (v : value) : result (list value) :=
  match v with
  | VList l => Ok l
  | VDict d => Ok (VStr <$> (map_to_list d).*1)
  | VStr s => Ok ((fun c => VStr (String c EmptyString)) <$> String.list_ascii_of_string s)
  | _ => Raise (mkExn TypeError "object is not iterable")
  end.

(** [get_enabled_apis]; [_enabled_service_names] is a frozenset, read
    only through its truth value and membership, and kept as the list
    of its items. *)
Definition get_enabled_apis `{Runtime} : option Client -> M value :=
  cached "enabled_apis" (fun client =>
    self ← get_self;
    active ← lift (enumerable self);
    enabled_apis ←
      (if active : bool then
         try_except
           (c ← client_method client "fetch_services_enabled_apis";
            project_number ← lift (getitem self "projectNumber");
            '(apis, _) ← invoke c "fetch_services_enabled_apis"
                           [project_number];
            mret apis)
           api_errors
           (fun e =>
              self ← get_self;
              k ← lift (key self);
              let err_msg :=
                "Could not get Enabled APIs for project " +:+ str k
                +:+ ": " +:+ exn_str e in
              modify_self (fun s => add_warning s err_msg);;
              mret (VList []))
       else mret (VList []));
    items ← lift (iter_items enabled_apis);
    names ← lift (config_names items);
    modify_self (fun s => set_enabled_service_names s names);;
    mret enabled_apis).

(** [billing_enabled] *)
Definition billing_enabled `{Runtime} : M value :=
  info ← get_billing_info None;
  if truthy info then
    info ← get_billing_info None;
    lift (dict_get info "billingEnabled" (VBool false))
  else mret (VBool true).

(** [is_api_enabled] *)
Definition is_api_enabled (self : Resource) (service_name : string) : bool :=
  match _enabled_service_names self with
  | Some (name :: names) =>
      existsb (fun v => eq_str v service_name) (name :: names)
  | _ => true
  end.

End Project.

Module DataSet.

(** [_set_cache] *)
Definition _set_cache (field_name : string) (v : value) : M unit :=
  let field_name := "__cached_" +:+ field_name in
  modify_self (fun self =>
    match attrs self !! field_name with
    | None | Some VNone => set_attrs self (<[field_name := v]> (attrs self))
    | Some _ => self
    end).

(** [self.parent()[k]] *)
Definition parent_item `{Runtime} (self : Resource) (k : string)
  : result value :=
  p ← parent self;
  match p with
  | None => Raise (mkExn TypeError "'NoneType' object is not subscriptable")
  | Some p => getitem p k
  end.

Definition parent_key `{Runtime} (self : Resource) : result value :=
  p ← parent self;
  match p with
  | None => Raise (no_attribute "key")
  | Some p => key p
  end.

(** The arguments of both fetches. *)
Definition fetch_args `{Runtime} (self : Resource) : result (list value) :=
  project_id ← parent_item self "projectId";
  project_number ← parent_item self "projectNumber";
  reference ← getitem self "datasetReference";
  dataset_id ← subscript reference "datasetId";
  Ok [project_id; project_number; dataset_id].

Definition warn `{Runtime} (what : string) (e : exn) : M value :=
  self ← get_self;
  k ← lift (key self);
  pk ← lift (parent_key self);
  let err_msg :=
    "Could not get " +:+ what +:+ " for " +:+ str k +:+ " in project "
    +:+ str pk +:+ ": " +:+ exn_str e in
  modify_self (fun s => add_warning s err_msg);;
  mret VNone.

(** [get_iam_policy] *)
Definition get_iam_policy `{Runtime} : option Client -> M value :=
  cached "iam_policy" (fun client =>
    try_except
      (c ← client_method client "fetch_bigquery_iam_policy";
       self ← get_self;
       args ← lift (fetch_args self);
       '(iam_policy, _) ← invoke c "fetch_bigquery_iam_policy" args;
       let dataset_policy := convert_iam_to_bigquery_policy iam_policy in
       _set_cache "dataset_policy" dataset_policy;;
       mret iam_policy)
      api_errors
      (warn "Dataset IAM Policy")).

(** [get_dataset_policy] *)
Definition get_dataset_policy `{Runtime} : option Client -> M value :=
  cached "dataset_policy" (fun client =>
    try_except
      (c ← client_method client "fetch_bigquery_dataset_policy";
       self ← get_self;
       args ← lift (fetch_args self);
       '(dataset_policy, _) ← invoke c "fetch_bigquery_dataset_policy" args;
       project_id ← lift (parent_item self "projectId");
       let iam_policy :=
         convert_bigquery_policy_to_iam dataset_policy project_id in
       _set_cache "iam_policy" iam_policy;;
       mret dataset_policy)
      api_errors
      (warn "Dataset Policy")).

End DataSet.

(** [from_root_id] *)
Definition from_root_id `{Runtime} (client : Client) (root_id : string)
    (root : bool) (log : list api_call) : result Resource * list api_call :=
  let root_map :=
    [("organizations", Organization.fetch);
     ("projects", Project.fetch);
     ("folders", Folder.fetch)] in
  match List.find (fun pf => String.prefix (fst pf) root_id) root_map with
  | Some (_, func) => func client root_id root log
  | None =>
      (Raise (mkExn Exception
                ("Unsupported root id, must be one of "
                 +:+ String.concat "," (fst <$> root_map))), log)
  end.

(* ================================================================= *)
(** ** The traversal: [accept] and [try_accept] *)

(** What one call of [visitor.visit(resource)] does to the resource it is
    given (the visitor calls the side-band fetches, which memoise their
    result and may add warnings) and whether it raises. *)
Record visit_outcome : Type := mkVisitOutcome {
  v_attrs : gmap string value;
  v_new_warnings : list string;
  v_enabled_service_names : option (list value);
  v_raises : option exn
}.

(** The visitor, as far as [accept] consults it: the configured exclusion
    set [config.variables.get('excluded_resources', {})] and [visit].
    [get_client], [dispatch] and [on_child_error] return nothing that
    [accept] reads; the latter two are recorded as events. *)
Record Visitor : Type := mkVisitor {
  excluded_resources : gset string;
  visit : Resource -> visit_outcome
}.

Definition apply_visit (self : Resource) (out : visit_outcome) : Resource :=
  {| cls := cls self; _data := _data self; _root := _root self;
     _stack := _stack self; _visitor := _visitor self;
     _contains := _contains self;
     _warning := _warning self ++ v_new_warnings out;
     _full_resource_name := _full_resource_name self;
     _enabled_service_names := v_enabled_service_names out;
     attrs := v_attrs out |}.

(** The calls that a traversal makes on the visitor, and the start of
    each child iterator. *)
Inductive event : Type :=
| EvVisit (resource : Resource)
    (** [visitor.visit(resource)] *)
| EvIter (resource : Resource) (i : nat)
    (** [yielder_cls(resource, visitor.get_client())] for the [i]-th
        class of [_contains], whose [iter()] is then driven *)
| EvDispatch (resource : Resource) (new_stack : list Resource)
    (** [visitor.dispatch(partial(resource.try_accept, visitor,
        new_stack))] *)
| EvOnChildError (full_resource_name : string) (error : exn + string)
    (** [visitor.on_child_error(full_resource_name, error)] *).

(** The result of a call: the receiver as the call leaves it, the events
    in the order in which the calling thread produced them, and the
    exception that left the call, if any. *)
Record run : Type := mkRun {
  run_self : Resource;
  run_trace : list event;
  run_exn : option exn
}.

Definition skip_errors : list string :=
  ["Not found"; "Unknown project id"; "scheduled for deletion"].

Section traversal.

Context `{Runtime} (visitor : Visitor).

(** The set [cur_resource_repr] that [accept] compares with the
    exclusion set. *)
Definition cur_resource_repr (self : Resource) : result (gset string) :=
  k ← key self;
  let resource_name := type self +:+ "/" +:+ str k in
  if String.eqb (type self) "project" then
    number ← getitem self "projectNumber";
    let project_number := type self +:+ "/" +:+ str number in
    Ok ({[ resource_name ]} ∪ {[ project_number ]})
  else Ok {[ resource_name ]}.

(** The handler of [try_accept], applied to what [accept] returned. *)
Definition try_accept_handler (r : run) : run :=
  match run_exn r with
  | None => r
  | Some e =>
      match repr (run_self r) with
      | Raise e' => mkRun (run_self r) (run_trace r) (Some e')
      | Ok _ =>
          match get_full_resource_name (run_self r) with
          | (Raise e', self') => mkRun self' (run_trace r) (Some e')
          | (Ok name, self') =>
              mkRun self' (run_trace r ++ [EvOnChildError name (inl e)])
                None
          end
      end
  end.

(** Whether the handler of [accept] passes over an exception. *)
Definition skipped (e : exn) : bool :=
  isinstance e ApiExecutionError
  && existsb (fun error_str => contains error_str (exn_str e)) skip_errors.

(** The end of [accept]: the warnings, if any, go to the visitor. *)
Definition report_warnings (self : Resource) : run :=
  match _warning self with
  | [] => mkRun self [] None
  | _ :: _ =>
      match get_full_resource_name self with
      | (Raise e, self') => mkRun self' [] (Some e)
      | (Ok name, self') =>
          mkRun self' [EvOnChildError name (inr (get_warning self'))] None
      end
  end.

Section loops.

(** [resource.accept(visitor, new_stack)] on a yielded resource. *)
Variable accept_child : Resource -> list Resource -> run.

(** [for resource in yielder.iter(): ...] over the resources still to
    be yielded: the events, and the exception that leaves the loop
    body, if any. *)
Fixpoint drive_children (self : Resource) (stack : list Resource)
    (children : list Resource) : list event * option exn :=
  match children with
  | [] => ([], None)
  | resource :: rest =>
      let new_stack := stack ++ [self] in
      if should_dispatch resource then
        let '(tr, e) := drive_children self stack rest in
        (EvDispatch resource new_stack :: tr, e)
      else
        let r := try_accept_handler (accept_child resource new_stack) in
        match run_exn r with
        | Some e => (run_trace r, Some e)
        | None =>
            let '(tr, e) := drive_children self stack rest in
            (run_trace r ++ tr, e)
        end
  end.

(** The exception that the [try] block around one iteration catches:
    one that left the loop body, or else the one that ended the
    iterator. *)
Definition iteration_raises (self : Resource) (stack : list Resource)
    (y : yielder) : option exn :=
  match snd (drive_children self stack (fst y)) with
  | Some e => Some e
  | None => snd y
  end.

(** One turn of [for yielder_cls in self._contains]: the receiver,
    the events, and the exception that leaves [accept], if any. *)
Definition drive_yielder (self : Resource) (stack : list Resource)
    (y : yielder) : Resource * list event * option exn :=
  let tr := fst (drive_children self stack (fst y)) in
  match iteration_raises self stack y with
  | None => (self, tr, None)
  | Some e =>
      if skipped e then (self, tr, None)
      else
        match repr self with
        | Raise e' => (self, tr, Some e')
        | Ok s =>
            let err_msg :=
              "Exception raised processing " +:+ s +:+ ": "
              +:+ exn_str e in
            (add_warning self err_msg, tr, None)
        end
  end.

Fixpoint drive_yielders (self : Resource) (stack : list Resource)
    (ys : list yielder) (i : nat) : run :=
  match ys with
  | [] => report_warnings self
  | y :: ys' =>
      let '(self', tr, e) := drive_yielder self stack y in
      match e with
      | Some e => mkRun self' (EvIter self i :: tr) (Some e)
      | None =>
          let r := drive_yielders self' stack ys' (S i) in
          mkRun (run_self r) (EvIter self i :: tr ++ run_trace r)
            (run_exn r)
      end
  end.

(** The body of [accept]. [contains] is [self._contains]. *)
Definition accept_body (self : Resource) (contains : list yielder)
    (stack : option (list Resource)) : run :=
  let stack := default [] stack in
  let bound := set_stack self stack in
  match cur_resource_repr bound with
  | Raise e => mkRun bound [] (Some e)
  | Ok reprs =>
      if decide (reprs ∩ excluded_resources visitor = ∅) then
        let visited := set_visitor bound in
        let out := visit visitor visited in
        let self' := apply_visit visited out in
        match v_raises out with
        | Some e => mkRun self' [EvVisit visited] (Some e)
        | None =>
            let r := drive_yielders self' stack contains 0 in
            mkRun (run_self r) (EvVisit visited :: run_trace r)
              (run_exn r)
        end
      else mkRun bound [] None
  end.

End loops.

(** [Resource.accept] *)
Fixpoint accept (self : Resource) (stack : option (list Resource)) : run :=
  accept_body (fun resource new_stack => accept resource (Some new_stack))
    self (_contains self) stack.

(** [Resource.try_accept] *)
Definition try_accept (self : Resource) (stack : option (list Resource))
  : run :=
  try_accept_handler (accept self stack).

(** *** The dispatch pool

    A submitted callback runs [try_accept] on a thread of the pool.
    A state of the crawl is the events that each thread has still to
    produce, and the events produced so far, in the order in which the
    visitor observed them. A step lets any thread produce its next
    event; a submission starts a thread. *)
Definition spawned (e : event) : list (list event) :=
  match e with
  | EvDispatch resource new_stack =>
      [run_trace (try_accept resource (Some new_stack))]
  | _ => []
  end.

Inductive pool_step
  : list (list event) * list event -> list (list event) * list event
    -> Prop :=
| pool_step_event threads1 e rest threads2 log :
    pool_step (threads1 ++ (e :: rest) :: threads2, log)
              (threads1 ++ rest :: threads2 ++ spawned e, log ++ [e]).

(** The states that a crawl started by [root.accept(visitor, stack)]
    reaches. *)
Definition crawl_reaches (root : Resource) (stack : option (list Resource))
    (st : list (list event) * list event) : Prop :=
  rtc pool_step ([run_trace (accept root stack)], []) st.

End traversal.

(* ================================================================= *)
(** ** Notions used to state the properties of a crawl *)

(** Two values of one object: they agree on the fields that no modelled
    method changes once [accept] has bound the stack. *)
Definition same_object (a b : Resource) : Prop :=
  cls a = cls b /\ _data a = _data b /\ _root a = _root b
  /\ _stack a = _stack b /\ _contains a = _contains b.

(** The resources handed to [visitor.visit] by a sequence of events. *)
Definition visits (log : list event) : list Resource :=
  omap (fun e => match e with EvVisit r => Some r | _ => None end) log.

(** The object [p] is among the resources [V]. *)
Definition seen (V : list Resource) (p : Resource) : Prop :=
  exists p', p' ∈ V /\ same_object p' p.

(** The top of the stack, if there is one, is among [V]. *)
Definition parent_seen (V : list Resource) (st : list Resource) : Prop :=
  match last st with
  | None => True
  | Some p => seen V p
  end.

(** A sequence of events that, produced after the visits [V], visits and
    submits a resource only after the resource on top of its stack. *)
Fixpoint parents_first (V : list Resource) (t : list event) : Prop :=
  match t with
  | [] => True
  | EvVisit c :: t' =>
      (forall st, _stack c = Some st -> parent_seen V st)
      /\ parents_first (V ++ [c]) t'
  | EvDispatch c st :: t' => parent_seen V st /\ parents_first V t'
  | _ :: t' => parents_first V t'
  end.

(** Accepting [c] keeps parents first, whatever stack it is given. *)
Definition child_parents_first (accept_child : Resource -> list Resource -> run)
    (c : Resource) : Prop :=
  forall V st, parent_seen V st ->
    parents_first V (run_trace (accept_child c st)).

(** The resource matches the exclusion set of the visitor. *)
Definition matches_exclusion `{Runtime} (visitor : Visitor) (r : Resource)
  : Prop :=
  exists reprs,
    cur_resource_repr r = Ok reprs
    /\ reprs ∩ excluded_resources visitor <> ∅.

(** The identifiers of the resource can be formed and none is in the
    exclusion set: the resource gets past the check of [accept]. *)
Definition passes_exclusion `{Runtime} (visitor : Visitor) (r : Resource)
  : Prop :=
  exists reprs,
    cur_resource_repr r = Ok reprs
    /\ reprs ∩ excluded_resources visitor = ∅.

(** A stack in which every resource got past the check and is bound to
    the resources before it. *)
Definition clear_stack `{Runtime} (visitor : Visitor) (st : list Resource)
  : Prop :=
  Forall (passes_exclusion visitor) st /\ chained st.

(** An event that involves no excluded resource: a resource visited got
    past the check, and the stack of a resource visited or submitted is
    clear. *)
Definition event_clear `{Runtime} (visitor : Visitor) (e : event) : Prop :=
  match e with
  | EvVisit c =>
      passes_exclusion visitor c
      /\ exists st, _stack c = Some st /\ clear_stack visitor st
  | EvDispatch c st => clear_stack visitor st
  | _ => True
  end.

(** A resource as [create_new] makes it for a child iterator: it is not
    a root and no name is stored on it; a curated role has no child
    iterator (its factory has [contains: []]); and the resources that
    its iterators yield are made in the same way. *)
Inductive as_created : Resource -> Prop :=
| as_created_intro (r : Resource) :
    _root r = false ->
    _full_resource_name r = None ->
    (cls r = IamCuratedRole -> _contains r = []) ->
    Forall (fun y : yielder => Forall as_created (fst y)) (_contains r) ->
    as_created r.

(** A resource from which a crawl starts: no name is stored on it, and
    below it every resource is as [create_new] makes it. *)
Definition crawlable (root : Resource) : Prop :=
  _full_resource_name root = None
  /\ (cls root = IamCuratedRole -> _contains root = [])
  /\ Forall (fun y : yielder => Forall as_created (fst y)) (_contains root).

(** A stack on which no resource has a stored name, none is a curated
    role, and none but the first is a root. *)
Definition unnamed_stack (st : list Resource) : Prop :=
  Forall (fun p => _full_resource_name p = None /\ cls p <> IamCuratedRole)
    st
  /\ Forall (fun p => _root p = false) (drop 1 st).

(** An event of a crawl in which no name is stored yet: the resource
    visited has none and is bound to an unnamed stack, below which it
    is not a root; a resource submitted is as [create_new] makes it. *)
Definition event_unnamed (e : event) : Prop :=
  match e with
  | EvVisit c =>
      _full_resource_name c = None
      /\ exists st,
           _stack c = Some st /\ unnamed_stack st
           /\ (st <> [] -> _root c = false)
  | EvDispatch c st => as_created c /\ unnamed_stack st /\ st <> []
  | _ => True
  end.

(* ================================================================= *)
(** ** The composite root *)

Module CompositeRoot.

(** [CompositeRootResource.create] *)
Definition create (client : Client) (composite_root_resources : value)
  : Resource :=
  create_new client CompositeRootResource
    (VDict (<[ "name" := VStr "Composite Root" ]>
            {[ "composite_children" := composite_root_resources ]}))
    true.

(** The loop of [CompositeRootIterator.iter] over the configured
    children still to come, driven to its end: the resources it yields,
    the exception that ends it, if any, and the log of the client. A
    child that is not a string has no [startswith]. *)
Fixpoint iter_children `{Runtime} (client : Client) (children : list value)
    (log : list api_call) : yielder * list api_call :=
  match children with
  | [] => (([], None), log)
  | composite_child :: rest =>
      match str_receiver "startswith" composite_child with
      | Raise e => (([], Some e), log)
      | Ok root_id =>
          match from_root_id client root_id false log with
          | (Raise e, log') => (([], Some e), log')
          | (Ok resource, log') =>
              let '((resources, ending), log'') :=
                iter_children client rest log' in
              ((resource :: resources, ending), log'')
          end
      end
  end.

(** [CompositeRootIterator.iter] *)
Definition iter `{Runtime} (client : Client) (resource : Resource)
    (log : list api_call) : yielder * list api_call :=
  match getitem resource "composite_children" with
  | Raise e => (([], Some e), log)
  | Ok composite_children =>
      match Project.iter_items composite_children with
      | Raise e => (([], Some e), log)
      | Ok children => iter_children client children log
      end
  end.

End CompositeRoot.

(** A root id that [from_root_id] supports. *)
Definition supported_root_id (root_id : string) : bool :=
  String.prefix "organizations" root_id
  || String.prefix "projects" root_id
  || String.prefix "folders" root_id.

(** A client that raises nothing but API errors. *)
Definition raises_api_errors_only (client : Client) : Prop :=
  forall log call e,
    respond client log call = Raise e ->
    existsb (isinstance e) api_errors = true.

(* ================================================================= *)
(** ** Item access and the links of a cluster *)

Definition set_data (self : Resource) (data : value) : Resource :=
  {| cls := cls self; _data := data; _root := _root self;
     _stack := _stack self; _visitor := _visitor self;
     _contains := _contains self; _warning := _warning self;
     _full_resource_name := _full_resource_name self;
     _enabled_service_names := _enabled_service_names self;
     attrs := attrs self |}.

(** [Resource.__setitem__]: [self._data[key] = value] *)
Definition setitem (self : Resource) (k : string) (v : value)
  : result Resource :=
  match _data self with
  | VDict d => Ok (set_data self (VDict (<[ k := v ]> d)))
  | VList _ =>
      Raise (mkExn TypeError "list indices must be integers or slices, not str")
  | _ => Raise (mkExn TypeError "object does not support item assignment")
  end.

(** [Resource.__delitem__]: [self._data.pop(key, None)] *)
Definition delitem (self : Resource) (k : string) : result Resource :=
  match _data self with
  | VDict d => Ok (set_data self (VDict (delete k d)))
  | VList _ => Raise (mkExn TypeError "pop expected at most 1 argument, got 2")
  | _ => Raise (mkExn AttributeError "object has no attribute 'pop'")
  end.

(** [s.split('/')] *)
Fixpoint split_slash (s : string) : list string :=
  match s with
  | EmptyString => [EmptyString]
  | String c s' =>
      if Ascii.eqb c slash then EmptyString :: split_slash s'
      else
        match split_slash s' with
        | [] => [String c EmptyString]
        | part :: parts => String c part :: parts
        end
  end.

(** [parts.index(x)] *)
Fixpoint index_of `{Runtime} (x : string) (parts : list string) : result nat :=
  match parts with
  | [] => Raise (mkExn ValueError (py_repr (VStr x) +:+ " is not in list"))
  | part :: parts' =>
      if String.eqb part x then Ok 0
      else i ← index_of x parts'; Ok (S i)
  end.

(** A string without a slash. *)
Definition no_slash (s : string) : Prop := contains "/" s = false.

Module KubernetesCluster.

(** The body that [location] and [zone] share: the part of [selfLink]
    that follows the part [marker]; [None] when the link is missing or
    has no such part. *)
Definition self_link_part `{Runtime} (self : Resource) (marker : string)
  : result value :=
  let found : result value :=
    self_link ← getitem self "selfLink";
    s ← str_receiver "split" self_link;
    let self_link_parts := split_slash s in
    i ← index_of marker self_link_parts;
    match self_link_parts !! (i + 1) with
    | Some part => Ok (VStr part)
    | None => Raise (mkExn IndexError "list index out of range")
    end in
  match found with
  | Ok part => Ok part
  | Raise e =>
      if existsb (isinstance e) [KeyError; ValueError] then Ok VNone
      else Raise e
  end.

(** [location] *)
Definition location `{Runtime} (self : Resource) : result value :=
  self_link_part self "locations".

(** [zone] *)
Definition zone `{Runtime} (self : Resource) : result value :=
  self_link_part self "zones".

End KubernetesCluster.

(* ================================================================= *)
(** ** Side-band fetches of organizations, folders and projects

    A method of the client whose name starts with [iter_] returns an
    iterable, which the callers below drain into a list inside their
    [try] block; an exception raised while draining discards the list,
    so such an invocation either returns the iterable or raises. *)

Module OrganizationPolicies.

(** [ResourceManagerOrganization.get_iam_policy] *)
Definition get_iam_policy `{Runtime} : option Client -> M value :=
  cached "iam_policy" (fun client =>
    try_except
      (c ← client_method client "fetch_crm_organization_iam_policy";
       self ← get_self;
       name ← lift (getitem self "name");
       '(data, _) ← invoke c "fetch_crm_organization_iam_policy" [name];
       mret data)
      api_errors
      (fun e =>
         self ← get_self;
         k ← lift (key self);
         let err_msg :=
           "Could not get IAM policy for organization " +:+ str k
           +:+ ": " +:+ exn_str e in
         modify_self (fun s => add_warning s err_msg);;
         mret VNone)).

(** [ResourceManagerOrganization.get_org_policy] *)
Definition get_org_policy `{Runtime} : option Client -> M value :=
  cached "org_policy" (fun client =>
    try_except
      (c ← client_method client "iter_crm_organization_org_policies";
       self ← get_self;
       name ← lift (getitem self "name");
       '(org_policies_iter, _) ←
         invoke c "iter_crm_organization_org_policies" [name];
       org_policies ← lift (Project.iter_items org_policies_iter);
       mret (VList org_policies))
      api_errors
      (fun e =>
         modify_self (fun s => add_warning s (exn_str e));;
         mret VNone)).

(** [ResourceManagerOrganization.get_access_policy] *)
Definition get_access_policy `{Runtime} : option Client -> M value :=
  cached "access_policy" (fun client =>
    try_except
      (c ← client_method client "iter_crm_org_access_policies";
       self ← get_self;
       name ← lift (getitem self "name");
       '(access_policy_iter, _) ←
         invoke c "iter_crm_org_access_policies" [name];
       access_policies ← lift (Project.iter_items access_policy_iter);
       mret (VList access_policies))
      api_errors
      (fun e =>
         modify_self (fun s => add_warning s (exn_str e));;
         mret VNone)).

(** [ResourceManagerOrganization.has_directory_resource_id] *)
Definition has_directory_resource_id `{Runtime} (self : Resource)
  : result bool :=
  has_owner ← py_in "owner" (_data self);
  if has_owner : bool then
    owner ← getitem self "owner";
    py_in "directoryCustomerId" owner
  else Ok false.

End OrganizationPolicies.

Module FolderPolicies.

(** [ResourceManagerFolder.get_iam_policy] *)
Definition get_iam_policy `{Runtime} : option Client -> M value :=
  cached "iam_policy" (fun client =>
    try_except
      (c ← client_method client "fetch_crm_folder_iam_policy";
       self ← get_self;
       name ← lift (getitem self "name");
       '(data, _) ← invoke c "fetch_crm_folder_iam_policy" [name];
       mret data)
      api_errors
      (fun e =>
         self ← get_self;
         k ← lift (key self);
         let err_msg :=
           "Could not get IAM policy for folder " +:+ str k
           +:+ ": " +:+ exn_str e in
         modify_self (fun s => add_warning s err_msg);;
         mret VNone)).

(** [ResourceManagerFolder.get_org_policy], which invokes the method
    for organizations with the name of the folder. *)
Definition get_org_policy `{Runtime} : option Client -> M value :=
  cached "org_policy" (fun client =>
    try_except
      (c ← client_method client "iter_crm_organization_org_policies";
       self ← get_self;
       name ← lift (getitem self "name");
       '(org_policies_iter, _) ←
         invoke c "iter_crm_organization_org_policies" [name];
       org_policies ← lift (Project.iter_items org_policies_iter);
       mret (VList org_policies))
      api_errors
      (fun e =>
         modify_self (fun s => add_warning s (exn_str e));;
         mret VNone)).

End FolderPolicies.

Module ProjectPolicies.

(** [ResourceManagerProject.get_iam_policy] *)
Definition get_iam_policy `{Runtime} : option Client -> M value :=
  cached "iam_policy" (fun client =>
    self ← get_self;
    active ← lift (Project.enumerable self);
    if active : bool then
      try_except
        (c ← client_method client "fetch_crm_project_iam_policy";
         project_number ← lift (getitem self "projectNumber");
         '(data, _) ← invoke c "fetch_crm_project_iam_policy"
                        [project_number];
         mret data)
        api_errors
        (fun e =>
           self ← get_self;
           k ← lift (key self);
           let err_msg :=
             "Could not get IAM policy for project " +:+ str k
             +:+ ": " +:+ exn_str e in
           modify_self (fun s => add_warning s err_msg);;
           mret VNone)
    else mret (VDict ∅)).

(** [ResourceManagerProject.get_org_policy], which invokes the method
    for organizations with [name] of the project. *)
Definition get_org_policy `{Runtime} : option Client -> M value :=
  cached "org_policy" (fun client =>
    try_except
      (c ← client_method client "iter_crm_organization_org_policies";
       self ← get_self;
       name ← lift (getitem self "name");
       '(org_policies_iter, _) ←
         invoke c "iter_crm_organization_org_policies" [name];
       org_policies ← lift (Project.iter_items org_policies_iter);
       mret (VList org_policies))
      api_errors
      (fun e =>
         modify_self (fun s => add_warning s (exn_str e));;
         mret VNone)).

(** The body that [bigquery_api_enabled], [compute_api_enabled] and
    [container_api_enabled] share:
    [self.billing_enabled() and self.is_api_enabled(service_name)]. *)
Definition billing_and_api_enabled `{Runtime} (service_name : string)
  : M value :=
  billing ← Project.billing_enabled;
  if truthy billing then
    self ← get_self;
    mret (VBool (Project.is_api_enabled self service_name))
  else mret billing.

(** [bigquery_api_enabled] *)
Definition bigquery_api_enabled `{Runtime} : M value :=
  billing_and_api_enabled "bigquery-json.googleapis.com".

(** [compute_api_enabled] *)
Definition compute_api_enabled `{Runtime} : M value :=
  billing_and_api_enabled "compute.googleapis.com".

(** [container_api_enabled] *)
Definition container_api_enabled `{Runtime} : M value :=
  billing_and_api_enabled "container.googleapis.com".

(** [storage_api_enabled] *)
Definition storage_api_enabled : M value :=
  self ← get_self;
  mret (VBool (Project.is_api_enabled self "storage-component.googleapis.com")).

End ProjectPolicies.

(** A method that sends at most [n] requests and adds at most [w]
    warnings, whatever it returns or raises, and leaves the object what
    it is. *)
Definition frugal {A} (n w : nat) (m : M A) : Prop :=
  forall st,
    exists new ws,
      snd (snd (m st)) = snd st ++ new /\ length new <= n
      /\ _warning (fst (snd (m st))) = _warning (fst st) ++ ws
      /\ length ws <= w
      /\ same_object (fst st) (fst (snd (m st))).

(* ================================================================= *)
(** ** The child iterators built by [resource_iter_class_factory] *)

(** The iteration methods of the API client: the pairs of data and
    metadata that the generator returned by a method yields when it is
    driven, and the exception that ends it, if any. *)
Record ClientIterators : Type := mkClientIterators {
  iter_respond : list api_call -> api_call -> list (value * value) * option exn
}.

Module ResourceIterator.

(** The methods named by [resource_validation_method_name]. *)
Inductive validation_method : Type :=
| enumerable
| compute_api_enabled
| container_api_enabled.

(** The arguments of [resource_iter_class_factory]; [resource_cls] is
    the class of [FACTORIES[resource_name]], and [kwargs] is empty at
    every use. *)
Record iter_class : Type := mkIterClass {
  api_method_name : string;
  resource_cls : resource_class;
  api_method_arg_key : option string;
  additional_arg_keys : list string;
  resource_validation_method_name : option validation_method
}.

Definition method_name (v : validation_method) : string :=
  match v with
  | enumerable => "enumerable"
  | compute_api_enabled => "compute_api_enabled"
  | container_api_enabled => "container_api_enabled"
  end.

(** [getattr(self.resource, resource_validation_method_name)()]: the
    three methods are defined by projects only. *)
Definition resource_validation_check `{Runtime} (v : validation_method)
  : M value :=
  self ← get_self;
  match cls self with
  | ResourceManagerProject =>
      match v with
      | enumerable => b ← lift (Project.enumerable self); mret (VBool b)
      | compute_api_enabled => ProjectPolicies.compute_api_enabled
      | container_api_enabled => ProjectPolicies.container_api_enabled
      end
  | _ =>
      lift (Raise (mkExn AttributeError
                     ("'" +:+ class_name_of (cls self)
                      +:+ "' object has no attribute '" +:+ method_name v
                      +:+ "'")))
  end.

(** [self.resource[key] for key in additional_arg_keys] *)
Fixpoint items_of `{Runtime} (resource : Resource) (keys : list string)
  : result (list value) :=
  match keys with
  | [] => Ok []
  | k :: keys' =>
      x ← getitem resource k; xs ← items_of resource keys'; Ok (x :: xs)
  end.

(** The list [args] *)
Definition iter_args `{Runtime} (it : iter_class) (resource : Resource)
  : result (list value) :=
  first ←
    match api_method_arg_key it with
    | Some k =>
        if truthy (VStr k) then x ← getitem resource k; Ok [x] else Ok []
    | None => Ok []
    end;
  rest ← items_of resource (additional_arg_keys it);
  Ok (first ++ rest).

(** [except ResourceNotSupported] around the body of the generator. *)
Definition ignore_not_supported (ending : option exn) : option exn :=
  match ending with
  | Some e => if isinstance e ResourceNotSupported then None else Some e
  | None => None
  end.

(** [ResourceIteratorSubclass.iter], driven to its end: the resources
    yielded and the exception that ends the generator, with the
    resource and the log of the client as the generator leaves them. *)
Definition iter `{Runtime} (it : iter_class) (client : Client)
    (gcp : ClientIterators) (st : Resource * list api_call)
  : yielder * (Resource * list api_call) :=
  let check : M value :=
    match resource_validation_method_name it with
    | Some v => resource_validation_check v
    | None => mret (VBool true)
    end in
  match check st with
  | (Raise e, st') => (([], Some e), st')
  | (Ok passed, (resource, log)) =>
      if truthy passed then
        match iter_args it resource with
        | Raise e => (([], ignore_not_supported (Some e)), (resource, log))
        | Ok args =>
            let call := mkCall (api_method_name it) args in
            let '(items, ending) := iter_respond gcp log call in
            (((fun item => create_new client (resource_cls it) (fst item) false)
                <$> items,
              ignore_not_supported ending),
             (resource, log ++ [call]))
        end
      else (([], None), (resource, log))
  end.

(** [compute_iter_class_factory] *)
Definition compute_iter_class (api_method_name : string)
    (resource_cls : resource_class) : iter_class :=
  mkIterClass api_method_name resource_cls (Some "projectNumber") []
    (Some compute_api_enabled).

End ResourceIterator.

(* ================================================================= *)
(** ** Concrete runtime, clients, visitors and resources

    Used to run the definitions above on explicit inputs. *)

Module Scenario.

(** A runtime whose uninterpreted functions return fixed shapes. *)
#[export] Instance runtime : Runtime := {|
  py_repr := fun v => match v with VStr s => "'" +:+ s +:+ "'" | _ => "{...}" end;
  json_dumps := fun _ => "{...}";
  blake2b_hexdigest := fun _ => "ff";
  py_hash := fun _ => 7%Z;
  convert_iam_to_bigquery_policy := fun p => VList [p];
  convert_bigquery_policy_to_iam := fun p _ => VDict {[ "bindings" := p ]}
|}.

(** A curated role as [IamOrganizationCuratedRoleIterator] builds it. *)
Definition curated_role : Resource :=
  new_resource IamCuratedRole (VDict {[ "name" := VStr "roles/viewer" ]})
    false [].

(** An organization built as a root. *)
Definition org_111 : Resource :=
  new_resource ResourceManagerOrganization
    (VDict {[ "name" := VStr "organizations/111" ]}) true [].

(** An instance, as a child of a project. *)
Definition instance_i1 : Resource :=
  new_resource (ResourceSubclass "ComputeInstance" "instance" "id" false)
    (VDict {[ "id" := VStr "i1" ]}) false [].

Definition project_data (state : string) : value :=
  VDict (<[ "projectId" := VStr "p42" ]>
         (<[ "projectNumber" := VStr "42" ]>
          {[ "lifecycleState" := VStr state ]})).

(** An active project with one iterator, which yields one instance. *)
Definition project_p42 : Resource :=
  new_resource ResourceManagerProject (project_data "ACTIVE") false
    [([instance_i1], None)].

(** A project that is being deleted. *)
Definition project_deleted : Resource :=
  new_resource ResourceManagerProject (project_data "DELETE_REQUESTED")
    false [].

(** A dataset of [project_p42], with its stack bound. *)
Definition dataset_d1 : Resource :=
  set_stack
    (new_resource BigqueryDataSet
       (VDict (<[ "id" := VStr "p42:d1" ]>
               {[ "datasetReference" :=
                    VDict {[ "datasetId" := VStr "d1" ]} ]}))
       false [])
    [project_p42].

(** An organization whose only iterator yields [project_p42]. *)
Definition org_tree : Resource :=
  new_resource ResourceManagerOrganization
    (VDict {[ "name" := VStr "organizations/111" ]}) true
    [([project_p42], None)].

(** [org_tree] as its [accept] hands it to the visitor and puts it on
    the stack of its children. *)
Definition org_visited : Resource := set_visitor (set_stack org_tree []).

(** A project, bound below [org_visited], with two iterators: the first
    ends in the given exception, the second yields an instance. *)
Definition project_with_failing_iterator (e : exn) : Resource :=
  set_stack
    (new_resource ResourceManagerProject (project_data "ACTIVE") false
       [([], Some e); ([instance_i1], None)])
    [org_visited].

(** The error of an instance that is going away, which [accept] skips. *)
Definition benign_error : exn :=
  mkExn ApiExecutionError "instance scheduled for deletion".

(** An error that [accept] turns into a warning. *)
Definition quota_error : exn :=
  mkExn ApiExecutionError "quota exceeded".

(** A client every method of which returns the same policy. *)
Definition client_ok : Client :=
  {| respond := fun _ _ => Ok (VDict {[ "billingEnabled" := VBool true ]}, VNone);
     iterate := fun _ _ => [] |}.

(** A client every method of which fails with the given message. *)
Definition client_failing (msg : string) : Client :=
  {| respond := fun _ _ => Raise (mkExn ApiExecutionError msg);
     iterate := fun _ _ => [] |}.

(** A client whose dataset-policy fetch fails and whose other methods
    answer. *)
Definition client_no_dataset_policy : Client :=
  {| respond := fun _ call =>
       if String.eqb (call_method call) "fetch_bigquery_dataset_policy"
       then Raise (mkExn ApiExecutionError "backend error")
       else Ok (VStr "iam-policy", VNone);
     iterate := fun _ _ => [] |}.

(** A visitor that excludes nothing and only records. *)
Definition recording_visitor : Visitor :=
  {| excluded_resources := ∅;
     visit := fun r =>
       mkVisitOutcome (attrs r) [] (_enabled_service_names r) None |}.

(** A visitor whose [visit] always raises. *)
Definition raising_visitor : Visitor :=
  {| excluded_resources := ∅;
     visit := fun r =>
       mkVisitOutcome (attrs r) [] (_enabled_service_names r)
         (Some (mkExn Exception "storage is down")) |}.

(** A visitor configured with an exclusion set. *)
Definition excluding_visitor (excluded : gset string) : Visitor :=
  {| excluded_resources := excluded;
     visit := fun r =>
       mkVisitOutcome (attrs r) [] (_enabled_service_names r) None |}.

(** [project_p42] as the crawl of [org_tree] hands it to the visitor. *)
Definition project_visited : Resource :=
  set_visitor (set_stack project_p42 [org_visited]).

(** [project_p42] and [instance_i1] bound to their stacks. *)
Definition project_bound : Resource := set_stack project_p42 [org_visited].

Definition instance_bound : Resource :=
  set_stack instance_i1 [org_visited; project_bound].

(** A project whose billing info was fetched in vain, and whose enabled
    APIs are known. *)
Definition project_without_billing_info : Resource :=
  set_enabled_service_names
    (set_attrs project_p42 {[ "__cached_billing_info" := VNone ]})
    [VStr "compute.googleapis.com"].

(** The events of a crawl of [org_tree] in which the thread of the
    project starts when the thread of the root has finished. *)
Definition crawl_log : list event :=
  run_trace (accept recording_visitor org_tree None)
  ++ run_trace (try_accept recording_visitor project_p42 (Some [org_visited])).

(** An organization that carries a warning, as a failed fetch leaves
    it. *)
Definition org_with_warning : Resource :=
  add_warning org_111 "Unable to fetch Organization".

(** An instance whose data lacks the key field. *)
Definition instance_without_id : Resource :=
  new_resource (ResourceSubclass "ComputeInstance" "instance" "id" false)
    (VDict ∅) false [].

(** A zonal cluster, and the parts of its link. *)
Definition cluster_link_parts : list string :=
  ["https:"; ""; "container.googleapis.com"; "v1"; "projects"; "p42";
   "zones"; "us-central1-a"; "clusters"; "c1"].

Definition cluster_c1 : Resource :=
  new_resource
    (ResourceSubclass "KubernetesCluster" "kubernetes_cluster" "selfLink" true)
    (VDict {[ "selfLink" :=
                VStr "https://container.googleapis.com/v1/projects/p42/zones/us-central1-a/clusters/c1" ]})
    false [].

(** A cluster whose data has no link. *)
Definition cluster_without_link : Resource :=
  new_resource
    (ResourceSubclass "KubernetesCluster" "kubernetes_cluster" "selfLink" true)
    (VDict {[ "name" := VStr "c2" ]}) false [].

(** [BigqueryDataSetIterator] and [CloudSqlInstanceIterator]. *)
Definition dataset_iterator : ResourceIterator.iter_class :=
  ResourceIterator.mkIterClass "iter_bigquery_datasets" BigqueryDataSet
    (Some "projectNumber") [] None.

Definition cloudsql_iterator : ResourceIterator.iter_class :=
  ResourceIterator.mkIterClass "iter_cloudsql_instances"
    (ResourceSubclass "CloudSqlInstance" "cloudsqlinstance" "selfLink" true)
    (Some "projectId") ["projectNumber"]
    (Some ResourceIterator.enumerable).

(** A client whose listings yield one dataset and then fail. *)
Definition gcp_listing : ClientIterators :=
  {| iter_respond := fun _ _ =>
       ([(VDict {[ "id" := VStr "p42:d1" ]}, VNone)], Some quota_error) |}.

(** A client that supports no listing. *)
Definition gcp_unsupported : ClientIterators :=
  {| iter_respond := fun _ _ =>
       ([], Some (mkExn ResourceNotSupported "not supported")) |}.

(** A client whose every method fails with an error that is not an API
    error, as a dropped connection does. *)
Definition client_broken : Client :=
  {| respond := fun _ _ => Raise (mkExn Exception "connection reset");
     iterate := fun _ _ => [] |}.


(** [instance_i1] as the crawl of [org_tree] hands it to the visitor. *)
Definition instance_visited : Resource :=
  set_visitor (set_stack instance_i1 [org_visited; project_visited]).

(** An organization whose only iterator yields a curated role, and the
    two as a crawl of the organization hands them to the visitor. *)
Definition org_with_role : Resource :=
  new_resource ResourceManagerOrganization
    (VDict {[ "name" := VStr "organizations/111" ]}) true
    [([curated_role], None)].

Definition org_with_role_visited : Resource :=
  set_visitor (set_stack org_with_role []).

Definition role_visited : Resource :=
  set_visitor (set_stack curated_role [org_with_role_visited]).

End Scenario.

(* ================================================================= *)
(** * Properties *)

Section properties.

Context `{rt : Runtime}.

(** ** Strings *)





Lemma eq_str_true (v : value) (s : string) :
  eq_str v s = true <-> v = VStr s.
Proof.
  destruct v; simpl; try (split; [discriminate|congruence]).
  rewrite String.eqb_eq. split; congruence.
Qed.

(** ** [parent] *)

Lemma parent_curated (self : Resource) :
  cls self = IamCuratedRole -> parent self = Ok None.
Proof. unfold parent. by intros ->. Qed.


Lemma parent_bound (self : Resource) (st : list Resource) :
  cls self <> IamCuratedRole -> _root self = false ->
  _stack self = Some st -> parent self = Ok (last st).
Proof. unfold parent. intros Hc -> ->. by destruct (cls self). Qed.

Lemma parent_unbound (self : Resource) :
  cls self <> IamCuratedRole -> _root self = false -> _stack self = None ->
  parent self
  = Raise (mkExn TypeError "'NoneType' object is not subscriptable").
Proof. unfold parent. intros Hc -> ->. by destruct (cls self). Qed.

(** C10 (as amended). A resource of a class that keeps [Resource.parent]
    (every class but [IamCuratedRole]), constructed with [root=False]:
    while its stack is unset, [parent()] raises [TypeError] (it returns
    neither [None] nor the resource); once a stack is bound, [parent()]
    returns the top of that stack, and [None] when the stack is empty.
    A curated role's [parent()] returns [None] in every state. *)
Theorem parent_of_non_root (c : resource_class) (data : value)
    (contains : list yielder) (st : list Resource) :
  c <> IamCuratedRole ->
  (exists e, parent (new_resource c data false contains) = Raise e
             /\ exn_cls e = TypeError)
  /\ parent (set_stack (new_resource c data false contains) st) = Ok (last st)
  /\ parent (set_stack (new_resource c data false contains) []) = Ok None
  /\ (forall r, cls r = IamCuratedRole -> parent r = Ok None).
Proof.
  intros Hc. repeat split.
  - eexists. split; [by apply parent_unbound|done].
  - by apply parent_bound.
  - by rewrite (parent_bound _ []).
  - apply parent_curated.
Qed.

(** ** The [cached] decorator *)

Lemma cached_hit (n : string) (f : option Client -> M value)
    (client : option Client) (st : Resource * list api_call) (v : value) :
  attrs (fst st) !! ("__cached_" +:+ n) = Some v ->
  cached n f client st = (Ok v, st).
Proof. unfold cached. by intros ->. Qed.

Lemma cached_miss (n : string) (f : option Client -> M value)
    (client : option Client) (st : Resource * list api_call) :
  attrs (fst st) !! ("__cached_" +:+ n) = None ->
  cached n f client st
  = match f client st with
    | (Ok result, (self, log)) =>
        (Ok result,
         (set_attrs self (<["__cached_" +:+ n := result]> (attrs self)), log))
    | (Raise e, st') => (Raise e, st')
    end.
Proof. unfold cached. by intros ->. Qed.

(** A call that returns leaves its result in the attribute. *)
Lemma cached_stores (n : string) (f : option Client -> M value)
    (client : option Client) (st st' : Resource * list api_call) (v : value) :
  cached n f client st = (Ok v, st') ->
  attrs (fst st') !! ("__cached_" +:+ n) = Some v.
Proof.
  unfold cached.
  destruct (attrs (fst st) !! ("__cached_" +:+ n)) as [w|] eqn:E.
  - intros [= <- <-]. done.
  - destruct (f client st) as [[result|e] [self log]]; [|discriminate].
    intros [= <- <-]. simpl. apply lookup_insert_eq.
Qed.

(** ** Project predicates *)

Lemma enumerable_true_iff (self : Resource) :
  Project.enumerable self = Ok true
  <-> exists d, _data self = VDict d
                /\ d !! "lifecycleState" = Some (VStr "ACTIVE").
Proof.
  unfold Project.enumerable, getitem. split.
  - destruct (_data self) as [| | | | |d] eqn:E; simpl; try discriminate.
    destruct (d !! "lifecycleState") as [v|] eqn:L; simpl; [|discriminate].
    intros [= Hv]. apply eq_str_true in Hv. subst v. eauto.
  - intros (d & -> & ->). done.
Qed.

Lemma enumerable_false_iff (self : Resource) :
  Project.enumerable self = Ok false
  <-> exists d v, _data self = VDict d /\ d !! "lifecycleState" = Some v
                  /\ v <> VStr "ACTIVE".
Proof.
  unfold Project.enumerable, getitem. split.
  - destruct (_data self) as [| | | | |d] eqn:E; simpl; try discriminate.
    destruct (d !! "lifecycleState") as [v|] eqn:L; simpl; [|discriminate].
    intros [= Hv]. exists d, v. repeat split; try done.
    intros ->. simpl in Hv. discriminate.
  - intros (d & v & -> & -> & Hv). simpl. f_equal.
    destruct (eq_str v "ACTIVE") eqn:E; [|done].
    by apply eq_str_true in E.
Qed.

(** With a falsy billing info in the cache, billing counts as enabled. *)
Lemma billing_enabled_unknown (self : Resource) (log : list api_call)
    (info : value) :
  attrs self !! "__cached_billing_info" = Some info ->
  truthy info = false ->
  Project.billing_enabled (self, log) = (Ok (VBool true), (self, log)).
Proof.
  intros Hc Ht. unfold Project.billing_enabled, Project.get_billing_info.
  unfold mbind, M_bind. rewrite (cached_hit _ _ _ _ info); [|done].
  by rewrite Ht.
Qed.

(** With a truthy billing info in the cache, the answer is its
    [billingEnabled] entry, [False] if there is none. *)
Lemma billing_enabled_known (self : Resource) (log : list api_call)
    (info : value) :
  attrs self !! "__cached_billing_info" = Some info ->
  truthy info = true ->
  Project.billing_enabled (self, log)
  = (dict_get info "billingEnabled" (VBool false), (self, log)).
Proof.
  intros Hc Ht. unfold Project.billing_enabled, Project.get_billing_info.
  unfold mbind, M_bind. rewrite (cached_hit _ _ _ _ info); [|done].
  rewrite Ht. rewrite (cached_hit _ _ _ _ info); [|done].
  unfold lift. by destruct (dict_get _ _ _).
Qed.

(** With nothing in the cache, [billing_enabled] runs the fetch without
    a client: a project that is not active gets the empty info and
    counts as enabled, an active one fails on the missing client. *)
Lemma billing_enabled_uncached (self : Resource) (log : list api_call) :
  attrs self !! "__cached_billing_info" = None ->
  (Project.enumerable self = Ok false ->
   Project.billing_enabled (self, log)
   = (Ok (VBool true),
      (set_attrs self (<["__cached_billing_info" := VDict ∅]> (attrs self)),
       log)))
  /\ (Project.enumerable self = Ok true ->
      Project.billing_enabled (self, log)
      = (Raise (no_attribute "fetch_billing_project_info"), (self, log))).
Proof.
  intros Hc.
  split; intros He;
    unfold Project.billing_enabled, Project.get_billing_info;
    unfold mbind at 1; unfold M_bind at 1;
    (rewrite cached_miss; [|done]);
    unfold mbind, M_bind, get_self, lift; cbn [fst snd];
    rewrite He; reflexivity.
Qed.

Lemma existsb_eq_str (names : list value) (n : string) :
  existsb (fun v => eq_str v n) names = true <-> VStr n ∈ names.
Proof.
  rewrite existsb_exists. split.
  - intros (v & Hin & Hv). apply eq_str_true in Hv. subst.
    by apply list_elem_of_In.
  - intros Hin. exists (VStr n). split; [by apply list_elem_of_In|].
    by apply eq_str_true.
Qed.

Lemma is_api_enabled_spec (self : Resource) (n : string) :
  match _enabled_service_names self with
  | None | Some [] => Project.is_api_enabled self n = true
  | Some names => Project.is_api_enabled self n = true <-> VStr n ∈ names
  end.
Proof.
  unfold Project.is_api_enabled.
  destruct (_enabled_service_names self) as [[|v names]|]; try done.
  apply existsb_eq_str.
Qed.

(** ** Inversion of the monad of methods *)

Lemma M_bind_ok {A B} (m : M A) (k : A -> M B) (st st' : Resource * list api_call)
    (b : B) :
  (m ≫= k) st = (Ok b, st') ->
  exists a st1, m st = (Ok a, st1) /\ k a st1 = (Ok b, st').
Proof.
  unfold mbind, M_bind. destruct (m st) as [[a|e] st1]; [eauto|discriminate].
Qed.

Lemma M_lift_ok {A} (r : result A) (st st' : Resource * list api_call) (a : A) :
  lift r st = (Ok a, st') -> r = Ok a /\ st' = st.
Proof. unfold lift. by intros [= -> ->]. Qed.

Lemma M_ret_ok {A} (x a : A) (st st' : Resource * list api_call) :
  mret (M := M) x st = (Ok a, st') -> a = x /\ st' = st.
Proof. unfold mret, M_ret. by intros [= -> ->]. Qed.

Ltac inv_M H :=
  repeat
    (let a := fresh "a" in
     let st := fresh "st" in
     let H1 := fresh "Hm" in
     first
       [ apply M_bind_ok in H as (a & st & H1 & H)
       | apply M_lift_ok in H as [H ->]
       | apply M_ret_ok in H as [-> ->] ]).

(** [get_enabled_apis], when it fetches and returns, leaves in
    [_enabled_service_names] the configured names of the APIs it
    returns. *)
Lemma get_enabled_apis_sets_names (client : option Client) (self self' : Resource)
    (log log' : list api_call) (apis : value) :
  attrs self !! "__cached_enabled_apis" = None ->
  Project.get_enabled_apis client (self, log) = (Ok apis, (self', log')) ->
  exists items names,
    Project.iter_items apis = Ok items
    /\ Project.config_names items = Ok names
    /\ _enabled_service_names self' = Some names.
Proof.
  intros Hc. unfold Project.get_enabled_apis. rewrite cached_miss; [|done].
  match goal with
  | |- context [ mbind ?k ?m ?st ] =>
      destruct (mbind k m st) as [[r|e] [s1 l1]] eqn:Em; [|discriminate]
  end.
  intros [= <- <- <-].
  apply M_bind_ok in Em as (s0 & st0 & _ & Em).
  apply M_bind_ok in Em as (active & st1 & _ & Em).
  apply M_bind_ok in Em as (apis & st2 & _ & Em).
  apply M_bind_ok in Em as (items & st3 & Hitems & Em).
  apply M_lift_ok in Hitems as [Hitems ->].
  apply M_bind_ok in Em as (names & st4 & Hnames & Em).
  apply M_lift_ok in Hnames as [Hnames ->].
  apply M_bind_ok in Em as ([] & st5 & Hmod & Em).
  apply M_ret_ok in Em as [-> Hst].
  unfold modify_self in Hmod. injection Hmod as <-. simplify_eq.
  exists items, names. simpl. done.
Qed.

(** C9. On a project: [enumerable()] returns [True] exactly when
    [data['lifecycleState']] is ["ACTIVE"]; [billing_enabled()] returns
    [True] whenever the cached billing info is falsy ([None] after a
    failed fetch, the empty dict of a project that was not fetched);
    [is_api_enabled(name)] returns [True] for every name when the set
    that [get_enabled_apis] left in [_enabled_service_names] is empty (or
    was never filled), and otherwise tells whether [name] is in that
    set; and [get_enabled_apis] fills the set with the configured names
    of the APIs it returns. *)
Theorem project_predicates (self : Resource) (log : list api_call)
    (name : string) :
  (Project.enumerable self = Ok true
   <-> exists d, _data self = VDict d
                 /\ d !! "lifecycleState" = Some (VStr "ACTIVE"))
  /\ (forall info,
        attrs self !! "__cached_billing_info" = Some info ->
        truthy info = false ->
        Project.billing_enabled (self, log) = (Ok (VBool true), (self, log)))
  /\ match _enabled_service_names self with
     | None | Some [] => Project.is_api_enabled self name = true
     | Some names =>
         Project.is_api_enabled self name = true <-> VStr name ∈ names
     end
  /\ (forall client before log0 apis,
        attrs before !! "__cached_enabled_apis" = None ->
        Project.get_enabled_apis client (before, log0)
        = (Ok apis, (self, log)) ->
        exists items names,
          Project.iter_items apis = Ok items
          /\ Project.config_names items = Ok names
          /\ _enabled_service_names self = Some names).
Proof.
  split; [apply enumerable_true_iff|].
  split; [intros info; apply billing_enabled_unknown|].
  split; [apply is_api_enabled_spec|].
  intros client before log0 apis. apply get_enabled_apis_sets_names.
Qed.

(** ** Memoisation of the side-band fetches *)

(** Once a decorated method has returned, every later call returns the
    same value and changes nothing, whatever client it is given and
    whatever happened to the rest of the instance in between. *)
Lemma cached_again (n : string) (f : option Client -> M value)
    (client client' : option Client) (st st1 st2 : Resource * list api_call)
    (v : value) :
  cached n f client st = (Ok v, st1) ->
  attrs (fst st2) !! ("__cached_" +:+ n) = attrs (fst st1) !! ("__cached_" +:+ n) ->
  cached n f client' st2 = (Ok v, st2).
Proof.
  intros Hcall Hsame. apply cached_hit. rewrite Hsame.
  by eapply cached_stores.
Qed.

Lemma cached_iter (n : string) (f : option Client -> M value)
    (client : option Client) (st : Resource * list api_call) (v : value)
    (k : nat) :
  attrs (fst st) !! ("__cached_" +:+ n) = Some v ->
  Nat.iter k (fun s => snd (cached n f client s)) st = st.
Proof.
  intros Hc. induction k as [|k IH]; [done|].
  simpl. rewrite IH. by rewrite (cached_hit _ _ _ _ v).
Qed.

Lemma count_calls_app (m : string) (l1 l2 : list api_call) :
  count_calls m (l1 ++ l2) = count_calls m l1 + count_calls m l2.
Proof. unfold count_calls. by rewrite filter_app, length_app. Qed.

(** One run of the body of [get_billing_info] invokes the client at most
    once, and only its method [fetch_billing_project_info]; it invokes
    it when it returns for an active project. *)
Lemma get_billing_info_miss (client : Client) (self self' : Resource)
    (log log' : list api_call) (r : result value) :
  attrs self !! "__cached_billing_info" = None ->
  Project.get_billing_info (Some client) (self, log) = (r, (self', log')) ->
  (log' = log /\ Project.enumerable self <> Ok true
   \/ exists number,
        getitem self "projectNumber" = Ok number
        /\ Project.enumerable self = Ok true
        /\ log' = log ++ [mkCall "fetch_billing_project_info" [number]])
  \/ (log' = log /\ exists e, r = Raise e).
Proof.
  intros Hc. unfold Project.get_billing_info. rewrite cached_miss; [|done].
  unfold mbind, M_bind, get_self, lift, try_except, client_method, invoke,
    mret, M_ret, modify_self.
  cbn [fst snd].
  destruct (Project.enumerable self) as [[|]|e] eqn:He.
  - destruct (getitem self "projectNumber") as [number|e] eqn:Hn.
    + cbn [fst snd].
      destruct (respond client log _) as [[data meta]|e] eqn:Hr.
      * intros [= <- <- <-]. left. right. eauto.
      * cbn [fst snd]. destruct (existsb (isinstance e) api_errors).
        -- destruct (key self) as [k|e'].
           ++ intros [= <- <- <-]. left. right. eauto.
           ++ intros [= <- <- <-]. left. right. eauto.
        -- intros [= <- <- <-]. left. right. eauto.
    + unfold getitem in Hn.
      assert (existsb (isinstance e) api_errors = false) as ->.
      { unfold subscript in Hn. repeat case_match; simplify_eq; done. }
      intros [= <- <- <-]. right. eauto.
  - intros [= <- <- <-]. left. left. done.
  - intros [= <- <- <-]. right. eauto.
Qed.

(** A call of [get_billing_info] that raises leaves the instance as it
    was: nothing is memoised, and no warning was added. *)
Lemma get_billing_info_raises (client : Client) (self self' : Resource)
    (log log' : list api_call) (e : exn) :
  attrs self !! "__cached_billing_info" = None ->
  Project.get_billing_info (Some client) (self, log)
  = (Raise e, (self', log')) ->
  self' = self.
Proof.
  intros Hc. unfold Project.get_billing_info. rewrite cached_miss; [|done].
  unfold mbind, M_bind, get_self, lift, try_except, client_method, invoke,
    mret, M_ret, modify_self.
  cbn [fst snd].
  destruct (Project.enumerable self) as [[|]|e0] eqn:He.
  - destruct (getitem self "projectNumber") as [number|e0] eqn:Hn.
    + cbn [fst snd].
      destruct (respond client log _) as [[data meta]|e0] eqn:Hr.
      * intros [=].
      * cbn [fst snd]. destruct (existsb (isinstance e0) api_errors).
        -- cbn [fst snd]. destruct (key self) as [k|e']; cbn [fst snd].
           ++ intros [=].
           ++ by intros [= _ <- _].
        -- by intros [= _ <- _].
    + destruct (existsb (isinstance e0) api_errors).
      * cbn [fst snd]. destruct (key self) as [k|e']; cbn [fst snd].
        -- intros [=].
        -- by intros [= _ <- _].
      * by intros [= _ <- _].
  - intros [=].
  - by intros [= _ <- _].
Qed.

(** C5 (as amended). For every side-band name [n] and every method [f]
    decorated with [cached(n)]: a call that returns stores its result
    (be it [None] or an empty container) on the instance, and from then
    on every call, with whatever client and also after [add_warning],
    returns the stored value and leaves the instance and the log of
    client invocations as they are, for as long as the entry holds that
    value. A call that raises is the call of the method itself on an
    instance without the entry: the decorator stores nothing. For
    [get_billing_info], one call invokes [fetch_billing_project_info]
    at most once and nothing else, exactly once when it returns for an
    active project, and a call that raises leaves the instance as it
    was, without the entry. *)
Theorem memoised_fetch_once (n : string) (f : option Client -> M value)
    (client client' : option Client) (st st1 : Resource * list api_call)
    (v : value) (w : string) (k : nat) :
  cached n f client st = (Ok v, st1) ->
  attrs (fst st1) !! ("__cached_" +:+ n) = Some v
  /\ cached n f client' st1 = (Ok v, st1)
  /\ cached n f client' (add_warning (fst st1) w, snd st1)
     = (Ok v, (add_warning (fst st1) w, snd st1))
  /\ Nat.iter k (fun s => snd (cached n f client' s)) st1 = st1
  /\ (forall st2,
        attrs (fst st2) !! ("__cached_" +:+ n) = Some v ->
        cached n f client' st2 = (Ok v, st2))
  /\ (forall st0 e st0',
        cached n f client st0 = (Raise e, st0') ->
        attrs (fst st0) !! ("__cached_" +:+ n) = None
        /\ f client st0 = (Raise e, st0'))
  /\ (forall c self log r self' log',
        attrs self !! "__cached_billing_info" = None ->
        Project.get_billing_info (Some c) (self, log) = (r, (self', log')) ->
        (exists new, log' = log ++ new /\ length new <= 1
                     /\ count_calls "fetch_billing_project_info" new
                        = length new)
        /\ (Project.enumerable self = Ok true -> is_ok r = true ->
            count_calls "fetch_billing_project_info" log'
            = count_calls "fetch_billing_project_info" log + 1)
        /\ (is_ok r = false -> self' = self)).
Proof.
  intros Hcall. split_and!.
  - by eapply cached_stores.
  - by eapply cached_again.
  - by eapply cached_again.
  - eapply cached_iter. by eapply cached_stores.
  - intros st2 Hst2. by apply cached_hit.
  - intros st0 e st0'. unfold cached.
    destruct (attrs (fst st0) !! ("__cached_" +:+ n)); [done|].
    destruct (f client st0) as [[result|e0] [self0 log0]]; [done|].
    by intros [= <- <-].
  - intros c self log r self' log' Hc Hget. split_and!.
    + destruct (get_billing_info_miss _ _ _ _ _ _ Hc Hget)
        as [[[-> Hne]|(number & Hn & He & ->)]|[-> [e ->]]].
      * exists []. rewrite app_nil_r. split_and!; [done|simpl; lia|done].
      * eexists. split; [done|]. split; [simpl; lia|reflexivity].
      * exists []. rewrite app_nil_r. split_and!; [done|simpl; lia|done].
    + destruct (get_billing_info_miss _ _ _ _ _ _ Hc Hget)
        as [[[-> Hne]|(number & Hn & He & ->)]|[-> [e ->]]]; try done.
      intros _ _. by rewrite count_calls_app.
    + destruct r as [x|e]; [done|]. intros _.
      by eapply get_billing_info_raises.
Qed.

(** ** The paired cache of a dataset *)

Lemma set_cache_keeps (field : string) (v w : value) (self : Resource)
    (log : list api_call) :
  attrs self !! ("__cached_" +:+ field) = Some w -> w <> VNone ->
  DataSet._set_cache field v (self, log) = (Ok tt, (self, log)).
Proof.
  intros Hw Hne. unfold DataSet._set_cache, modify_self. cbn [fst snd].
  rewrite Hw. by destruct w.
Qed.

Lemma set_cache_fills (field : string) (v : value) (self : Resource)
    (log : list api_call) :
  attrs self !! ("__cached_" +:+ field) = None
  \/ attrs self !! ("__cached_" +:+ field) = Some VNone ->
  DataSet._set_cache field v (self, log)
  = (Ok tt,
     (set_attrs self (<["__cached_" +:+ field := v]> (attrs self)), log)).
Proof.
  unfold DataSet._set_cache, modify_self. cbn [fst snd].
  by intros [-> | ->].
Qed.

(** After [_set_cache], the entry is there. *)
Lemma set_cache_present (field : string) (v : value) (st st' : Resource * list api_call) :
  DataSet._set_cache field v st = (Ok tt, st') ->
  is_Some (attrs (fst st') !! ("__cached_" +:+ field))
  /\ snd st' = snd st
  /\ forall other, other <> "__cached_" +:+ field ->
       attrs (fst st') !! other = attrs (fst st) !! other.
Proof.
  unfold DataSet._set_cache, modify_self. intros [= <-]. cbn [fst snd].
  destruct (attrs (fst st) !! ("__cached_" +:+ field)) as [w|] eqn:E.
  - destruct w; simpl; rewrite ?lookup_insert_eq, ?E; split_and!; eauto;
      intros other Hne; by rewrite ?lookup_insert_ne.
  - simpl. rewrite lookup_insert_eq. split_and!; eauto.
    intros other Hne. by rewrite lookup_insert_ne.
Qed.

Lemma fetch_args_project_id (self : Resource) (args : list value) :
  DataSet.fetch_args self = Ok args ->
  exists project_id, DataSet.parent_item self "projectId" = Ok project_id.
Proof.
  unfold DataSet.fetch_args.
  destruct (DataSet.parent_item self "projectId"); [eauto|discriminate].
Qed.

(** What [_set_cache] leaves in the entry: the value offered when the
    entry was absent or held [None], and the value held otherwise. *)
Lemma set_cache_lookup (field : string) (v : value)
    (st : Resource * list api_call) :
  attrs (fst (snd (DataSet._set_cache field v st))) !! ("__cached_" +:+ field)
  = Some match attrs (fst st) !! ("__cached_" +:+ field) with
         | None | Some VNone => v
         | Some w => w
         end.
Proof.
  unfold DataSet._set_cache, modify_self. cbn [fst snd].
  destruct (attrs (fst st) !! ("__cached_" +:+ field)) as [w|] eqn:E.
  - destruct w; simpl; by rewrite ?lookup_insert_eq, ?E.
  - simpl. by rewrite lookup_insert_eq.
Qed.

(** A fetch of the IAM policy that succeeds leaves in the entry of the
    dataset policy the policy converted from the one fetched, unless
    the entry held a value other than [None]. *)
Lemma get_iam_policy_prepopulates (client : Client) (self : Resource)
    (log : list api_call) (args : list value) (p meta : value) :
  attrs self !! "__cached_iam_policy" = None ->
  DataSet.fetch_args self = Ok args ->
  respond client log (mkCall "fetch_bigquery_iam_policy" args) = Ok (p, meta) ->
  exists s1,
    DataSet.get_iam_policy (Some client) (self, log)
    = (Ok p, (s1, log ++ [mkCall "fetch_bigquery_iam_policy" args]))
    /\ attrs s1 !! "__cached_dataset_policy"
       = Some match attrs self !! "__cached_dataset_policy" with
              | None | Some VNone => convert_iam_to_bigquery_policy p
              | Some w => w
              end
    /\ attrs s1 !! "__cached_iam_policy" = Some p.
Proof.
  intros Hc Hargs Hr. unfold DataSet.get_iam_policy.
  rewrite cached_miss; [|done].
  unfold try_except, mbind, M_bind, client_method, get_self, lift, invoke,
    mret, M_ret. cbn [fst snd]. rewrite Hargs. cbn [fst snd]. rewrite Hr.
  pose proof (set_cache_lookup "dataset_policy"
                (convert_iam_to_bigquery_policy p)
                (self, log ++ [mkCall "fetch_bigquery_iam_policy" args]))
    as Hlook.
  destruct (DataSet._set_cache "dataset_policy" _ _) as [[[]|e] [s0 l0]] eqn:Es.
  2:{ unfold DataSet._set_cache, modify_self in Es. discriminate. }
  apply set_cache_present in Es as (Hp & Hl & Ho). cbn [fst snd] in *.
  subst l0. eexists. split; [reflexivity|]. simpl.
  rewrite lookup_insert_eq, lookup_insert_ne; [|done]. done.
Qed.

(** A fetch of the dataset policy that succeeds leaves in the entry of
    the IAM policy the policy converted from the one fetched, unless
    the entry held a value other than [None]. *)
Lemma get_dataset_policy_prepopulates (client : Client) (self : Resource)
    (log : list api_call) (args : list value) (p meta project_id : value) :
  attrs self !! "__cached_dataset_policy" = None ->
  DataSet.fetch_args self = Ok args ->
  DataSet.parent_item self "projectId" = Ok project_id ->
  respond client log (mkCall "fetch_bigquery_dataset_policy" args)
  = Ok (p, meta) ->
  exists s1,
    DataSet.get_dataset_policy (Some client) (self, log)
    = (Ok p, (s1, log ++ [mkCall "fetch_bigquery_dataset_policy" args]))
    /\ attrs s1 !! "__cached_iam_policy"
       = Some match attrs self !! "__cached_iam_policy" with
              | None | Some VNone => convert_bigquery_policy_to_iam p project_id
              | Some w => w
              end
    /\ attrs s1 !! "__cached_dataset_policy" = Some p.
Proof.
  intros Hc Hargs Hpid Hr. unfold DataSet.get_dataset_policy.
  rewrite cached_miss; [|done].
  unfold try_except, mbind, M_bind, client_method, get_self, lift, invoke,
    mret, M_ret. cbn [fst snd]. rewrite Hargs. cbn [fst snd]. rewrite Hr.
  rewrite Hpid.
  pose proof (set_cache_lookup "iam_policy"
                (convert_bigquery_policy_to_iam p project_id)
                (self, log ++ [mkCall "fetch_bigquery_dataset_policy" args]))
    as Hlook.
  destruct (DataSet._set_cache "iam_policy" _ _) as [[[]|e] [s0 l0]] eqn:Es.
  2:{ unfold DataSet._set_cache, modify_self in Es. discriminate. }
  apply set_cache_present in Es as (Hp & Hl & Ho). cbn [fst snd] in *.
  subst l0. eexists. split; [reflexivity|]. simpl.
  rewrite lookup_insert_eq, lookup_insert_ne; [|done]. done.
Qed.

(** C6 (as amended). On a dataset whose fetch arguments can be read:
    after a call of [get_iam_policy] that fetches and succeeds, every
    call of [get_dataset_policy] returns one and the same memoised value
    and neither invokes the client nor changes the instance; that value
    is the dataset policy converted from the IAM policy fetched when
    the entry of the dataset policy was absent or held [None], and the
    value that the entry held otherwise. Likewise with the two methods
    exchanged, the IAM policy being converted from the dataset policy
    fetched and the id of the project. The pre-population [_set_cache]
    fills an absent entry, leaves an entry that holds a value other
    than [None] as it is, and replaces an entry that holds [None] (a
    memoised failure) like an absent one. *)
Theorem dataset_paired_cache (client : Client) (self : Resource)
    (log : list api_call) (args : list value) (p meta : value) :
  DataSet.fetch_args self = Ok args ->
  (attrs self !! "__cached_iam_policy" = None ->
   respond client log (mkCall "fetch_bigquery_iam_policy" args)
   = Ok (p, meta) ->
   exists s1 v,
     DataSet.get_iam_policy (Some client) (self, log)
     = (Ok p, (s1, log ++ [mkCall "fetch_bigquery_iam_policy" args]))
     /\ (forall client' log1,
           DataSet.get_dataset_policy client' (s1, log1) = (Ok v, (s1, log1)))
     /\ (attrs self !! "__cached_dataset_policy" = None
         \/ attrs self !! "__cached_dataset_policy" = Some VNone ->
         v = convert_iam_to_bigquery_policy p)
     /\ (forall w,
           attrs self !! "__cached_dataset_policy" = Some w -> w <> VNone ->
           v = w))
  /\ (attrs self !! "__cached_dataset_policy" = None ->
      respond client log (mkCall "fetch_bigquery_dataset_policy" args)
      = Ok (p, meta) ->
      exists s1 v project_id,
        DataSet.parent_item self "projectId" = Ok project_id
        /\ DataSet.get_dataset_policy (Some client) (self, log)
           = (Ok p, (s1, log ++ [mkCall "fetch_bigquery_dataset_policy" args]))
        /\ (forall client' log1,
              DataSet.get_iam_policy client' (s1, log1) = (Ok v, (s1, log1)))
        /\ (attrs self !! "__cached_iam_policy" = None
            \/ attrs self !! "__cached_iam_policy" = Some VNone ->
            v = convert_bigquery_policy_to_iam p project_id)
        /\ (forall w,
              attrs self !! "__cached_iam_policy" = Some w -> w <> VNone ->
              v = w))
  /\ (forall field v w,
        attrs self !! ("__cached_" +:+ field) = Some w -> w <> VNone ->
        DataSet._set_cache field v (self, log) = (Ok tt, (self, log)))
  /\ (forall field v,
        attrs self !! ("__cached_" +:+ field) = None
        \/ attrs self !! ("__cached_" +:+ field) = Some VNone ->
        DataSet._set_cache field v (self, log)
        = (Ok tt,
           (set_attrs self (<["__cached_" +:+ field := v]> (attrs self)),
            log))).
Proof.
  intros Hargs. split_and!.
  - intros Hc Hr.
    destruct (get_iam_policy_prepopulates _ _ _ _ _ _ Hc Hargs Hr)
      as (s1 & Hcall & Hv & _).
    eexists s1, _. split; [done|]. split_and!.
    + intros client' log1. apply cached_hit. exact Hv.
    + by intros [-> | ->].
    + intros w -> Hne. by destruct w.
  - intros Hc Hr.
    destruct (fetch_args_project_id _ _ Hargs) as [pid Hpid].
    destruct (get_dataset_policy_prepopulates _ _ _ _ _ _ _ Hc Hargs Hpid Hr)
      as (s1 & Hcall & Hv & _).
    eexists s1, _, pid. split; [done|]. split; [done|]. split_and!.
    + intros client' log1. apply cached_hit. exact Hv.
    + by intros [-> | ->].
    + intros w -> Hne. by destruct w.
  - intros field v w. apply set_cache_keeps.
  - intros field v. apply set_cache_fills.
Qed.

(** ** Full resource names *)

Lemma append_assoc (a b c : string) : (a +:+ b) +:+ c = a +:+ b +:+ c.
Proof.
  induction a as [|x a IH]; [done|].
  change (String x ((a +:+ b) +:+ c) = String x (a +:+ b +:+ c)).
  by rewrite IH.
Qed.

Lemma append_nonempty_r (a b : string) : b <> "" -> a +:+ b <> "".
Proof. destruct a; [done|discriminate]. Qed.

Lemma concat_snoc (sep : string) (l : list string) (x : string) :
  String.concat sep (l ++ [x])
  = match l with
    | [] => x
    | _ => String.concat sep l +:+ sep +:+ x
    end.
Proof.
  induction l as [|y l IH]; [done|].
  destruct l as [|z l]; [done|].
  change (String.concat sep ((y :: z :: l) ++ [x]))
    with (y +:+ sep +:+ String.concat sep ((z :: l) ++ [x])).
  rewrite IH.
  change (String.concat sep (y :: z :: l))
    with (y +:+ sep +:+ String.concat sep (z :: l)).
  by rewrite !append_assoc.
Qed.

Lemma to_type_name_nonempty (t : string) (k : value) : to_type_name t k <> "".
Proof. unfold to_type_name. by apply append_nonempty_r. Qed.

Lemma to_full_resource_name_nonempty (pn tn : string) :
  tn <> "" -> to_full_resource_name pn tn <> "".
Proof.
  intros Htn. unfold to_full_resource_name.
  destruct (String.eqb pn ""); [done|].
  by apply append_nonempty_r, append_nonempty_r.
Qed.

Lemma segments_app (l1 l2 : list Resource) :
  segments (l1 ++ l2)
  = (s1 ← segments l1; s2 ← segments l2; Ok (s1 ++ s2)).
Proof.
  induction l1 as [|r l1 IH]; simpl.
  - by destruct (segments l2).
  - destruct (segment r); simpl; [|done]. rewrite IH.
    destruct (segments l1); simpl; [|done]. by destruct (segments l2).
Qed.

Lemma segments_nonempty (l : list Resource) (ss : list string) :
  segments l = Ok ss -> Forall (fun s => s <> "") ss.
Proof.
  revert ss. induction l as [|r l IH]; intros ss; simpl.
  - by intros [= <-].
  - unfold segment at 1. destruct (key r) as [k|]; simpl; [|done].
    destruct (segments l) as [ss'|]; simpl; [|done].
    intros [= <-]. constructor; [apply to_type_name_nonempty|by apply IH].
Qed.

Lemma concat_nonempty (sep : string) (ss : list string) :
  ss <> [] -> Forall (fun s => s <> "") ss -> String.concat sep ss <> "".
Proof.
  destruct ss as [|s ss]; [done|]. intros _ Hall.
  apply Forall_cons in Hall as [Hs _].
  destruct ss; simpl; [done|]. destruct s; [done|]. discriminate.
Qed.

(** Induction on a resource through the top of its stack. *)
Lemma Resource_stack_ind (P : Resource -> Prop) :
  (forall r,
     (forall st p, _stack r = Some st -> last st = Some p -> P p) -> P r) ->
  forall r, P r.
Proof.
  intros H. fix IH 1. intros r. apply H.
  destruct r as [c d ro st v k w f e a]. simpl.
  intros st' p Hst. destruct st as [st|]; [|discriminate].
  injection Hst as <-. revert p.
  induction st as [|x st IHst]; intros p Hl; [discriminate|].
  destruct st as [|y st].
  - injection Hl as <-. apply IH.
  - apply IHst. exact Hl.
Qed.

(** The resource that the naming follows above [self], if any. *)
Lemma at_last_spec {A} (f : Resource -> A) (d : A) (st : list Resource) :
  (fix at_last (l : list Resource) : A :=
     match l with
     | [] => d
     | [p] => f p
     | _ :: l' => at_last l'
     end) st
  = from_option f d (last st).
Proof.
  induction st as [|x st IH]; [done|]. destruct st as [|y st]; [done|].
  rewrite IH. done.
Qed.

#[local] Arguments key {_} _ : simpl never.

Lemma lineage_unfold (self : Resource) :
  lineage self = from_option lineage [] (above self) ++ [self].
Proof.
  destruct self as [c d ro st v k w f e a]. unfold above. simpl.
  destruct ro; [done|]. destruct st as [st|]; [|by destruct c].
  rewrite (at_last_spec lineage []). by destruct c.
Qed.

Lemma above_stack (self p : Resource) :
  above self = Some p ->
  exists st, _stack self = Some st /\ last st = Some p.
Proof.
  unfold above. destruct (_root self); [done|].
  destruct (_stack self) as [st|]; [|by destruct (cls self)].
  intros Hp. exists st. split; [done|]. by destruct (cls self).
Qed.

Lemma get_full_resource_name_unfold (self : Resource) :
  nameable self ->
  get_full_resource_name self
  = match key self with
    | Raise e => (Raise e, self)
    | Ok k =>
        match from_option (fun p => fst (get_full_resource_name p)) (Ok "")
                (above self) with
        | Raise e => (Raise e, self)
        | Ok pn =>
            let n := to_full_resource_name pn (to_type_name (type self) k) in
            (Ok n, set_full_resource_name self n)
        end
    end.
Proof.
  intros [Hb Hn]. destruct self as [c d ro st v k w f e a].
  unfold above. simpl in *. subst f.
  destruct (key _) as [ky|]; [|done].
  destruct ro; [done|].
  destruct st as [st|].
  - rewrite (at_last_spec (fun p => fst (get_full_resource_name p)) (Ok "")).
    by destruct c.
  - destruct Hb as [?|[->|[? ?]]]; done.
Qed.

(** A stored name is returned as it is. *)
Lemma get_full_resource_name_cached (self : Resource) (n : string) :
  _full_resource_name self = Some n -> n <> "" ->
  get_full_resource_name self = (Ok n, self).
Proof.
  intros Hn Hne. destruct self as [c d ro st v k w f e a]. simpl in *.
  subst f. destruct n; [done|]. done.
Qed.

(** The name of a resource is the slash-joined segments of its lineage,
    and the call stores it. *)
Lemma get_full_resource_name_lineage (self : Resource) :
  Forall nameable (lineage self) ->
  forall ss, segments (lineage self) = Ok ss ->
  get_full_resource_name self
  = (Ok (String.concat "/" ss),
     set_full_resource_name self (String.concat "/" ss)).
Proof.
  induction self as [self IH] using Resource_stack_ind.
  rewrite lineage_unfold. intros Hall ss Hss.
  apply Forall_app in Hall as [Habove Hself].
  apply Forall_inv in Hself.
  rewrite get_full_resource_name_unfold; [|done].
  rewrite segments_app in Hss. simpl in Hss.
  destruct (segments (from_option lineage [] (above self))) as [sa|] eqn:Ha;
    simpl in Hss; [|done].
  unfold segment in Hss. destruct (key self) as [k|]; simpl in Hss; [|done].
  injection Hss as <-.
  destruct (above self) as [p|] eqn:Hp; simpl in *.
  - destruct (above_stack _ _ Hp) as (st & Hst & Hl).
    rewrite (IH st p Hst Hl Habove sa Ha). simpl.
    rewrite concat_snoc.
    assert (sa <> []) as Hsa.
    { intros ->. rewrite lineage_unfold in Ha.
      rewrite segments_app in Ha. simpl in Ha.
      destruct (segments (from_option lineage [] (above p))) as [[|]|];
        simpl in Ha; try done;
        destruct (segment p); simpl in Ha; done. }
    unfold to_full_resource_name.
    destruct (String.eqb (String.concat "/" sa) "") eqn:E.
    + apply String.eqb_eq in E.
      by apply concat_nonempty in E; [|done|eapply segments_nonempty].
    + by destruct sa.
  - injection Ha as <-. done.
Qed.

(** What a call that returns does to the instance: nothing when the name
    was stored already, and otherwise it stores the name it returns; a
    name is never empty. *)
Lemma get_full_resource_name_returns (self self' : Resource) (n : string) :
  get_full_resource_name self = (Ok n, self') ->
  n <> ""
  /\ _full_resource_name self' = Some n
  /\ (self' = self \/ self' = set_full_resource_name self n).
Proof.
  destruct self as [c d ro st v k w f e a]. simpl.
  destruct f as [n0|].
  - destruct (negb (String.eqb n0 "")) eqn:Ht.
    + intros [= <- <-]. split_and!; [|done|by left].
      intros ->. done.
    + destruct (key _) as [ky|]; [|done].
      match goal with
      | |- context [ match ?x with Ok _ => _ | Raise _ => _ end ] =>
          destruct x as [pn|]; [|done]
      end.
      intros [= <- <-]. split_and!; [|done|by right].
      apply to_full_resource_name_nonempty, to_type_name_nonempty.
  - destruct (key _) as [ky|]; [|done].
    match goal with
    | |- context [ match ?x with Ok _ => _ | Raise _ => _ end ] =>
        destruct x as [pn|]; [|done]
    end.
    intros [= <- <-]. split_and!; [|done|by right].
    apply to_full_resource_name_nonempty, to_type_name_nonempty.
Qed.

(** A second call returns what the first returned and changes nothing. *)
Lemma get_full_resource_name_again (self self' : Resource) (n : string) :
  get_full_resource_name self = (Ok n, self') ->
  get_full_resource_name self' = (Ok n, self').
Proof.
  intros Hcall.
  destruct (get_full_resource_name_returns _ _ _ Hcall) as (Hne & Hn & _).
  by apply get_full_resource_name_cached.
Qed.

(** On a stack as [accept] builds it, the lineage of the resource bound
    to the stack is the stack followed by the resource. *)
Lemma lineage_chained (st : list Resource) :
  chained st ->
  forall self,
    _stack self = Some st ->
    Forall follows_stack (drop 1 (st ++ [self])) ->
    lineage self = st ++ [self].
Proof.
  induction st as [|p st IH] using rev_ind; intros Hch self Hst Hfs.
  - rewrite lineage_unfold. unfold above. rewrite Hst.
    destruct (_root self); [done|]. by destruct (cls self).
  - assert (follows_stack self) as [Hr Hc].
    { rewrite <- app_assoc in Hfs.
      destruct st; simpl in Hfs.
      - by apply Forall_inv in Hfs.
      - rewrite drop_0 in Hfs. apply Forall_app in Hfs as [_ Hfs].
        apply Forall_inv_tail in Hfs. by apply Forall_inv in Hfs. }
    rewrite lineage_unfold. unfold above. rewrite Hst, Hr, last_snoc.
    assert (from_option lineage [] (Some p) = st ++ [p]) as Hp.
    { simpl. apply IH.
      - intros i q Hq.
        assert (i < length st) as Hi by (by apply lookup_lt_Some in Hq).
        rewrite (Hch i q); [|by rewrite lookup_app_l].
        by rewrite take_app_le by lia.
      - rewrite (Hch (length st) p); [|by rewrite list_lookup_middle].
        by rewrite take_app_length.
      - rewrite <- app_assoc in Hfs.
        destruct st; simpl in *; [constructor|].
        rewrite drop_0 in *. apply Forall_app in Hfs as [H1 H2].
        apply Forall_app. split; [done|].
        constructor; [by apply Forall_inv in H2|constructor]. }
    destruct (cls self); try (by rewrite Hp); done.
Qed.

(** ** The traversal: one call of [accept] *)

Section one_accept.

Context (visitor : Visitor).

Lemma accept_unfold (self : Resource) (stack : option (list Resource)) :
  accept visitor self stack
  = accept_body visitor
      (fun resource new_stack => accept visitor resource (Some new_stack))
      self (_contains self) stack.
Proof. by destruct self. Qed.

(** A resource that matches the exclusion set: [accept] binds the stack
    and returns. *)
Lemma accept_excluded (self : Resource) (stack : option (list Resource))
    (reprs : gset string) :
  cur_resource_repr (set_stack self (default [] stack)) = Ok reprs ->
  reprs ∩ excluded_resources visitor <> ∅ ->
  accept visitor self stack
  = mkRun (set_stack self (default [] stack)) [] None.
Proof.
  intros Hr Hx. rewrite accept_unfold. unfold accept_body.
  rewrite Hr. by rewrite decide_False.
Qed.

(** A resource whose identifiers cannot be formed: [accept] raises, and
    nothing has been visited. *)
Lemma accept_unidentified (self : Resource) (stack : option (list Resource))
    (e : exn) :
  cur_resource_repr (set_stack self (default [] stack)) = Raise e ->
  accept visitor self stack
  = mkRun (set_stack self (default [] stack)) [] (Some e).
Proof.
  intros Hr. rewrite accept_unfold. unfold accept_body. by rewrite Hr.
Qed.

(** A resource that is not excluded is visited first. *)
Lemma accept_visits (self : Resource) (stack : option (list Resource))
    (reprs : gset string) :
  cur_resource_repr (set_stack self (default [] stack)) = Ok reprs ->
  reprs ∩ excluded_resources visitor = ∅ ->
  let visited := set_visitor (set_stack self (default [] stack)) in
  let out := visit visitor visited in
  accept visitor self stack
  = match v_raises out with
    | Some e => mkRun (apply_visit visited out) [EvVisit visited] (Some e)
    | None =>
        let r :=
          drive_yielders
            (fun resource new_stack => accept visitor resource (Some new_stack))
            (apply_visit visited out) (default [] stack) (_contains self) 0 in
        mkRun (run_self r) (EvVisit visited :: run_trace r) (run_exn r)
    end.
Proof.
  intros Hr Hx. rewrite accept_unfold. unfold accept_body.
  rewrite Hr. by rewrite decide_True.
Qed.

Lemma cur_resource_repr_name (self : Resource) (k : value)
    (reprs : gset string) :
  key self = Ok k ->
  cur_resource_repr self = Ok reprs ->
  type self +:+ "/" +:+ str k ∈ reprs.
Proof.
  unfold cur_resource_repr. intros ->. simpl.
  destruct (String.eqb (type self) "project").
  - destruct (getitem self "projectNumber"); simpl; [|done].
    intros [= <-]. set_solver.
  - intros [= <-]. set_solver.
Qed.

Lemma cur_resource_repr_project (self : Resource) (k number : value) :
  key self = Ok k ->
  type self = "project" ->
  getitem self "projectNumber" = Ok number ->
  cur_resource_repr self
  = Ok ({[ "project/" +:+ str k ]} ∪ {[ "project/" +:+ str number ]}).
Proof.
  unfold cur_resource_repr. intros -> Ht ->. simpl. by rewrite Ht.
Qed.

Lemma cur_resource_repr_other (self : Resource) (k : value) :
  key self = Ok k ->
  type self <> "project" ->
  cur_resource_repr self = Ok {[ type self +:+ "/" +:+ str k ]}.
Proof.
  unfold cur_resource_repr. intros -> Ht. simpl.
  destruct (String.eqb (type self) "project") eqn:E; [|done].
  by apply String.eqb_eq in E.
Qed.

End one_accept.

(** ** Exclusion, failing visits and failing iterators *)

Section accept_claims.

Context (visitor : Visitor).

Let accept_child : Resource -> list Resource -> run :=
  fun resource new_stack => accept visitor resource (Some new_stack).





(** A resource whose identifier [type/key], or for a project also
    [project/projectNumber], is in the exclusion set matches it, and
    [accept] returns after binding the stack. *)
Lemma accept_skips_excluded (self : Resource)
    (stack : option (list Resource)) (k : value) :
  let bound := set_stack self (default [] stack) in
  key bound = Ok k ->
  (type self +:+ "/" +:+ str k ∈ excluded_resources visitor
   \/ type self = "project"
      /\ exists number,
           getitem self "projectNumber" = Ok number
           /\ "project/" +:+ str number ∈ excluded_resources visitor) ->
  (type self = "project" -> is_ok (getitem self "projectNumber") = true) ->
  matches_exclusion visitor bound
  /\ accept visitor self stack = mkRun bound [] None
  /\ run_trace (try_accept visitor self stack) = [].
Proof.
  intros bound Hk Hin Hnum.
  assert (matches_exclusion visitor bound) as (reprs & Hr & Hx).
  { destruct (decide (type self = "project")) as [Hp|Hp].
    - specialize (Hnum Hp).
      destruct (getitem self "projectNumber") as [number|] eqn:Hn; [|done].
      eexists. split; [by apply (cur_resource_repr_project _ k number)|].
      destruct Hin as [Hin|(_ & number' & [= <-] & Hin)].
      + rewrite Hp in Hin. set_solver.
      + set_solver.
    - eexists. split; [by apply cur_resource_repr_other|].
      destruct Hin as [Hin|[? _]]; [|done].
      change (type bound) with (type self). set_solver. }
  pose proof (accept_excluded visitor self stack reprs Hr Hx) as Ha.
  split; [by exists reprs|].
  split; [done|]. unfold try_accept, try_accept_handler. by rewrite Ha.
Qed.

End accept_claims.

(** ** A root that cannot be fetched *)

(** C7. [from_root_id(client, "projects/bad", root)] when
    [fetch_crm_project("bad")] raises an API error [e]: the result is a
    project holding only [{"name": "projects/bad"}], with one warning,
    which begins with ["Unable to fetch Project from API"]. The key of a
    project is its [projectId], which this resource lacks: [accept] on
    it raises [KeyError] while forming the identifier, before any visit,
    and [try_accept] raises as well. *)
Theorem placeholder_project_accept_raises (client : Client)
    (visitor : Visitor) (root : bool) (log : list api_call) (e : exn)
    (stack : option (list Resource)) :
  respond client log (mkCall "fetch_crm_project" [VStr "bad"]) = Raise e ->
  existsb (isinstance e) api_errors = true ->
  exists placeholder w,
    from_root_id client "projects/bad" root log
    = (Ok placeholder, log ++ [mkCall "fetch_crm_project" [VStr "bad"]])
    /\ cls placeholder = ResourceManagerProject
    /\ _data placeholder = VDict {[ "name" := VStr "projects/bad" ]}
    /\ _warning placeholder = [w]
    /\ String.prefix "Unable to fetch Project from API" w = true
    /\ (exists err,
          exn_cls err = KeyError
          /\ accept visitor placeholder stack
             = mkRun (set_stack placeholder (default [] stack)) []
                 (Some err))
    /\ is_Some (run_exn (try_accept visitor placeholder stack)).
Proof.
  intros Hr He.
  exists (fake_resource client ResourceManagerProject "projects/bad"
            ("Unable to fetch Project from API " +:+ "projects/bad"
             +:+ ": " +:+ exn_str e +:+ ", creating fake resource.") root).
  eexists. split_and!.
  - unfold from_root_id. simpl. unfold Project.fetch.
    change (split1_last "projects/bad") with "bad". by rewrite Hr, He.
  - done.
  - done.
  - done.
  - done.
  - eexists. split; [|apply accept_unidentified; reflexivity]. done.
  - unfold try_accept. erewrite accept_unidentified; [|reflexivity].
    unfold try_accept_handler. cbn [run_exn run_self run_trace].
    destruct (repr _); [|by eexists].
    destruct root; simpl; by eexists.
Qed.

(** ** The traversal: a whole crawl *)

(** Induction on a resource through the resources its iterators yield. *)
Lemma Resource_contains_ind (P : Resource -> Prop) :
  (forall r, Forall (fun y => Forall P (fst y)) (_contains r) -> P r) ->
  forall r, P r.
Proof.
  intros H. fix IH 1. intros r. apply H.
  destruct r as [c d ro st v k w f e a]. simpl.
  induction k as [|[cs en] k IHk]; constructor; [|exact IHk].
  simpl. induction cs as [|x cs IHcs]; constructor; [apply IH|exact IHcs].
Qed.

Lemma same_object_refl (a : Resource) : same_object a a.
Proof. by repeat split. Qed.

Lemma same_object_trans (a b c : Resource) :
  same_object a b -> same_object b c -> same_object a c.
Proof.
  unfold same_object. intros (?&?&?&?&?) (?&?&?&?&?).
  split_and!; congruence.
Qed.

Lemma same_object_key (a b : Resource) : same_object a b -> key a = key b.
Proof.
  destruct a, b. unfold same_object. simpl.
  intros (-> & -> & -> & -> & ->). reflexivity.
Qed.

Lemma same_object_repr (a b : Resource) :
  same_object a b -> cur_resource_repr a = cur_resource_repr b.
Proof.
  intros Hs. unfold cur_resource_repr, getitem, type.
  rewrite (same_object_key a b Hs).
  destruct Hs as (-> & -> & _). done.
Qed.

Lemma seen_mono (V V' : list Resource) (p : Resource) :
  V ⊆ V' -> seen V p -> seen V' p.
Proof. intros Hsub (p' & Hin & Hs). exists p'. split; [by apply Hsub|done]. Qed.

Lemma seen_same_object (V : list Resource) (p q : Resource) :
  same_object p q -> seen V p -> seen V q.
Proof.
  intros Hpq (p' & Hin & Hs). exists p'. split; [done|].
  by eapply same_object_trans.
Qed.

Lemma parent_seen_mono (V V' : list Resource) (st : list Resource) :
  V ⊆ V' -> parent_seen V st -> parent_seen V' st.
Proof.
  unfold parent_seen. destruct (last st); [|done]. apply seen_mono.
Qed.

Lemma parents_first_mono (t : list event) (V V' : list Resource) :
  V ⊆ V' -> parents_first V t -> parents_first V' t.
Proof.
  revert V V'. induction t as [|e t IH]; intros V V' Hsub; [done|].
  destruct e as [c|c i|c st|n err]; simpl.
  - intros [Hp Ht]. split.
    + intros st Hst. eapply parent_seen_mono; eauto.
    + eapply IH; [|done]. intros x Hx.
      apply elem_of_app in Hx as [Hx|Hx]; apply elem_of_app;
        [left; by apply Hsub|by right].
  - apply IH; done.
  - intros [Hp Ht]. split; [by eapply parent_seen_mono|by eapply IH].
  - apply IH; done.
Qed.

Lemma visits_app (l1 l2 : list event) : visits (l1 ++ l2) = visits l1 ++ visits l2.
Proof. unfold visits. apply omap_app. Qed.

Lemma parents_first_app (t1 t2 : list event) (V : list Resource) :
  parents_first V (t1 ++ t2)
  <-> parents_first V t1 /\ parents_first (V ++ visits t1) t2.
Proof.
  revert V. induction t1 as [|e t1 IH]; intros V.
  - simpl. rewrite app_nil_r. tauto.
  - destruct e as [c|c i|c st|n err]; simpl.
    + rewrite IH. change (visits (EvVisit c :: t1)) with (c :: visits t1).
      rewrite <- app_assoc. simpl. tauto.
    + rewrite IH. done.
    + rewrite IH. change (visits (EvDispatch c st :: t1)) with (visits t1).
      tauto.
    + rewrite IH. done.
Qed.

Lemma elem_of_visits (r : Resource) (l : list event) :
  r ∈ visits l <-> EvVisit r ∈ l.
Proof.
  unfold visits. rewrite list_elem_of_omap. split.
  - intros ([c|c i|c st|n err] & Hin & Heq); simplify_eq. done.
  - intros Hin. exists (EvVisit r). done.
Qed.

Lemma try_accept_handler_trace (r : run) :
  run_trace (try_accept_handler r) = run_trace r
  \/ exists n e,
       run_trace (try_accept_handler r)
       = run_trace r ++ [EvOnChildError n (inl e)].
Proof.
  unfold try_accept_handler. destruct (run_exn r) as [e|]; [|by left].
  destruct (repr (run_self r)); [|by left].
  destruct (get_full_resource_name (run_self r)) as [[n|e'] self'];
    simpl; eauto.
Qed.

Lemma report_warnings_trace (self : Resource) :
  run_trace (report_warnings self) = []
  \/ exists n w, run_trace (report_warnings self) = [EvOnChildError n (inr w)].
Proof.
  unfold report_warnings. destruct (_warning self); [by left|].
  destruct (get_full_resource_name self) as [[n|e'] self']; simpl; eauto.
Qed.

Lemma add_warning_same_object (self : Resource) (w : string) :
  same_object self (add_warning self w).
Proof. by repeat split. Qed.

Section traversal_loops.

Context (accept_child : Resource -> list Resource -> run).

(** Every turn of the loop over the factories leaves the object what it
    was, and its events are those of driving the iterator. *)
Lemma drive_yielder_shape (self : Resource) (stack : list Resource)
    (y : yielder) :
  exists self' e,
    drive_yielder accept_child self stack y
    = (self', fst (drive_children accept_child self stack (fst y)), e)
    /\ same_object self self'.
Proof.
  unfold drive_yielder.
  destruct (iteration_raises _ _ _ _) as [e|].
  - destruct (skipped e).
    + eexists _, _. split; [done|apply same_object_refl].
    + destruct (repr self).
      * eexists _, _. split; [done|apply add_warning_same_object].
      * eexists _, _. split; [done|apply same_object_refl].
  - eexists _, _. split; [done|apply same_object_refl].
Qed.

Lemma drive_children_cons (self : Resource) (stack : list Resource)
    (c : Resource) (rest : list Resource) :
  drive_children accept_child self stack (c :: rest)
  = if should_dispatch c then
      (EvDispatch c (stack ++ [self])
         :: fst (drive_children accept_child self stack rest),
       snd (drive_children accept_child self stack rest))
    else
      let r := try_accept_handler (accept_child c (stack ++ [self])) in
      match run_exn r with
      | Some e => (run_trace r, Some e)
      | None =>
          (run_trace r ++ fst (drive_children accept_child self stack rest),
           snd (drive_children accept_child self stack rest))
      end.
Proof.
  simpl. destruct (should_dispatch c).
  - by destruct (drive_children accept_child self stack rest).
  - destruct (run_exn _); [done|].
    by destruct (drive_children accept_child self stack rest).
Qed.

(** *** Parents first *)

Lemma handler_parents_first (V : list Resource) (r : run) :
  parents_first V (run_trace r) ->
  parents_first V (run_trace (try_accept_handler r)).
Proof.
  intros Hr. destruct (try_accept_handler_trace r) as [->|(n & e & ->)];
    [done|].
  apply parents_first_app. done.
Qed.

Lemma drive_children_parents_first (self : Resource) (stack : list Resource)
    (children : list Resource) :
  Forall (child_parents_first accept_child) children ->
  forall V, seen V self ->
    parents_first V (fst (drive_children accept_child self stack children)).
Proof.
  induction children as [|c rest IH]; intros Hall V Hself; [done|].
  apply Forall_cons in Hall as [Hc Hrest]. rewrite drive_children_cons.
  assert (parent_seen V (stack ++ [self])) as Hps.
  { unfold parent_seen. by rewrite last_snoc. }
  destruct (should_dispatch c).
  - simpl. split; [done|]. by apply IH.
  - pose proof (handler_parents_first V _ (Hc V _ Hps)) as Hh.
    cbn zeta. destruct (run_exn (try_accept_handler _)); [done|].
    simpl. apply parents_first_app. split; [done|].
    apply IH; [done|].
    eapply seen_mono; [|done]. intros x Hx. apply elem_of_app. by left.
Qed.

Lemma drive_yielders_parents_first (stack : list Resource)
    (ys : list yielder) :
  Forall (fun y => Forall (child_parents_first accept_child) (fst y)) ys ->
  forall self i V, seen V self ->
    parents_first V (run_trace (drive_yielders accept_child self stack ys i)).
Proof.
  induction ys as [|y ys IH]; intros Hall self i V Hself.
  - simpl. destruct (report_warnings_trace self) as [->|(n & w & ->)]; done.
  - apply Forall_cons in Hall as [Hy Hys]. simpl.
    destruct (drive_yielder_shape self stack y) as (self' & e & -> & Hs).
    pose proof (drive_children_parents_first self stack (fst y) Hy V Hself)
      as Htr.
    destruct e as [e|]; simpl; [done|].
    apply parents_first_app. split; [done|].
    apply IH; [done|].
    eapply seen_same_object; [done|].
    eapply seen_mono; [|done]. intros x Hx. apply elem_of_app. by left.
Qed.

End traversal_loops.

Section crawl.

Context (visitor : Visitor).

Lemma apply_visit_same_object (self : Resource) (out : visit_outcome) :
  same_object self (apply_visit self out).
Proof. by repeat split. Qed.

Lemma set_visitor_same_object (self : Resource) :
  same_object self (set_visitor self).
Proof. by repeat split. Qed.

(** The events of one [accept], produced after the visits [V], keep
    parents first, provided the top of the stack passed in is among
    [V]. *)
Lemma accept_parents_first (c : Resource) :
  forall (V : list Resource) (stack : option (list Resource)),
    parent_seen V (default [] stack) ->
    parents_first V (run_trace (accept visitor c stack)).
Proof.
  induction c as [c IH] using Resource_contains_ind.
  intros V stack Hps. rewrite accept_unfold. unfold accept_body.
  destruct (cur_resource_repr _) as [reprs|e]; [|done].
  destruct (decide _) as [Hx|Hx]; [|done].
  destruct (v_raises _) as [e|]; simpl.
  - split; [|done]. by intros st [= <-].
  - split; [by intros st [= <-]|].
    apply drive_yielders_parents_first.
    + eapply Forall_impl; [exact IH|]. intros y Hy. simpl in Hy.
      eapply Forall_impl; [exact Hy|]. intros ch Hch V' st' Hps'.
      by apply Hch.
    + eexists. split; [apply elem_of_app; right; by apply list_elem_of_singleton|].
      apply apply_visit_same_object.
Qed.

Lemma try_accept_parents_first (c : Resource) (V : list Resource)
    (stack : option (list Resource)) :
  parent_seen V (default [] stack) ->
  parents_first V (run_trace (try_accept visitor c stack)).
Proof.
  intros Hps. unfold try_accept.
  by apply handler_parents_first, accept_parents_first.
Qed.

(** The invariant of the pool: what every thread has still to produce
    keeps parents first after the visits made so far, and so does the
    log itself. *)
Lemma pool_step_parents_first (st st' : list (list event) * list event) :
  pool_step visitor st st' ->
  Forall (parents_first (visits (snd st))) (fst st)
  /\ parents_first [] (snd st) ->
  Forall (parents_first (visits (snd st'))) (fst st')
  /\ parents_first [] (snd st').
Proof.
  intros [ths1 e rest ths2 log]. cbn [fst snd]. intros [Hths Hlog].
  apply Forall_app in Hths as [H1 H2].
  apply Forall_cons in H2 as [He H2].
  change (e :: rest) with ([e] ++ rest) in He.
  apply parents_first_app in He as [He Hrest].
  assert (visits log ⊆ visits (log ++ [e])) as Hsub.
  { rewrite visits_app. intros x Hx. apply elem_of_app. by left. }
  split.
  - apply Forall_app. split.
    { eapply Forall_impl; [exact H1|]. intros t. by apply parents_first_mono. }
    apply Forall_cons. split; [by rewrite visits_app|].
    apply Forall_app. split.
    { eapply Forall_impl; [exact H2|]. intros t. by apply parents_first_mono. }
    destruct e as [c|c i|c s|n err]; simpl; try constructor; [|constructor].
    destruct He as [Hps _].
    apply try_accept_parents_first. simpl.
    by eapply parent_seen_mono.
  - apply parents_first_app. done.
Qed.

Lemma crawl_parents_first (root : Resource) (stack : option (list Resource))
    (st : list (list event) * list event) :
  default [] stack = [] ->
  crawl_reaches visitor root stack st ->
  Forall (parents_first (visits (snd st))) (fst st)
  /\ parents_first [] (snd st).
Proof.
  intros Hstack Hreach. unfold crawl_reaches in Hreach.
  revert st Hreach. apply rtc_ind_r.
  - cbn [fst snd]. split; [|done].
    constructor; [|constructor].
    apply accept_parents_first. by rewrite Hstack.
  - intros st st' _ Hstep IH. by eapply pool_step_parents_first.
Qed.

End crawl.

(** A log that keeps parents first: before every visit and every
    submission of a resource, the object on top of its stack was
    visited. *)
Lemma parents_first_before (log : list event) (i : nat) (e : event)
    (st : list Resource) (p : Resource) :
  parents_first [] log ->
  log !! i = Some e ->
  match e with
  | EvVisit c => _stack c = Some st
  | EvDispatch c st' => st' = st
  | _ => False
  end ->
  last st = Some p ->
  exists j p', j < i /\ log !! j = Some (EvVisit p') /\ same_object p' p.
Proof.
  intros Hlog Hi He Hl.
  rewrite <- (take_drop_middle log i e Hi) in Hlog.
  apply parents_first_app in Hlog as [_ Hlog]. simpl in Hlog.
  assert (seen (visits (take i log)) p) as (p' & Hin & Hs).
  { destruct e as [c|c k|c st'|n err]; try done.
    - destruct Hlog as [Hps _]. specialize (Hps st He).
      unfold parent_seen in Hps. by rewrite Hl in Hps.
    - subst st'. destruct Hlog as [Hps _].
      unfold parent_seen in Hps. by rewrite Hl in Hps. }
  apply elem_of_visits, list_elem_of_lookup in Hin as [j Hj].
  apply lookup_take_Some in Hj as [Hj Hlt].
  exists j, p'. done.
Qed.

Section crawl_order.

Context (visitor : Visitor).

(** What one call of [accept] produces begins with the visit of the
    resource itself, unless it produces nothing. *)
Lemma accept_visits_first (self : Resource) (stack : option (list Resource)) :
  run_trace (accept visitor self stack) = []
  \/ exists rest,
       run_trace (accept visitor self stack)
       = EvVisit (set_visitor (set_stack self (default [] stack))) :: rest.
Proof.
  rewrite accept_unfold. unfold accept_body.
  destruct (cur_resource_repr _); [|by left].
  destruct (decide _); [|by left].
  destruct (v_raises _); simpl; right; by eexists.
Qed.

End crawl_order.

(** *** Exclusion over a whole crawl *)

Section crawl_exclusion.

Context (visitor : Visitor).

Lemma same_object_matches (a b : Resource) :
  same_object a b -> matches_exclusion visitor a -> matches_exclusion visitor b.
Proof.
  intros Hs (reprs & Hr & Hx). exists reprs.
  by rewrite <- (same_object_repr a b Hs).
Qed.

Lemma same_object_sym (a b : Resource) : same_object a b -> same_object b a.
Proof. unfold same_object. intros (?&?&?&?&?). by split_and!. Qed.

Lemma same_object_passes (a b : Resource) :
  same_object a b -> passes_exclusion visitor a -> passes_exclusion visitor b.
Proof.
  intros Hs (reprs & Hr & Hx). exists reprs.
  by rewrite <- (same_object_repr a b Hs).
Qed.

Lemma passes_not_matches (r : Resource) :
  passes_exclusion visitor r -> ~ matches_exclusion visitor r.
Proof. intros (reprs & Hr & Hx) (reprs' & Hr' & Hx'). congruence. Qed.

Lemma passes_key_ok (r : Resource) :
  passes_exclusion visitor r -> is_ok (key r) = true.
Proof.
  intros (reprs & Hr & _). unfold cur_resource_repr in Hr.
  by destruct (key r).
Qed.

Lemma handler_clear (r : run) :
  Forall (event_clear visitor) (run_trace r) ->
  Forall (event_clear visitor) (run_trace (try_accept_handler r)).
Proof.
  intros Hr. destruct (try_accept_handler_trace r) as [->|(n & e & ->)];
    [done|].
  apply Forall_app. split; [done|]. by constructor.
Qed.

Lemma chained_snoc (st : list Resource) (r : Resource) :
  chained st -> _stack r = Some st -> chained (st ++ [r]).
Proof.
  intros Hch Hst i p Hp.
  destruct (decide (i < length st)) as [Hi|Hi].
  - rewrite lookup_app_l in Hp by done.
    rewrite (Hch i p Hp). by rewrite take_app_le by lia.
  - assert (i = length st) as ->.
    { apply lookup_lt_Some in Hp. rewrite length_app in Hp. simpl in Hp. lia. }
    rewrite list_lookup_middle in Hp by done. injection Hp as <-.
    by rewrite take_app_length.
Qed.

Lemma clear_stack_snoc (st : list Resource) (r : Resource) :
  clear_stack visitor st -> passes_exclusion visitor r ->
  _stack r = Some st -> clear_stack visitor (st ++ [r]).
Proof.
  intros [Hp Hch] Hr Hst. split.
  - apply Forall_app. split; [done|]. by constructor.
  - by apply chained_snoc.
Qed.

Lemma clear_stack_nil : clear_stack visitor [].
Proof. split; [constructor|]. intros i p Hp. done. Qed.

Section loops_clear.

Context (accept_child : Resource -> list Resource -> run).

Lemma drive_children_clear (self : Resource) (stack : list Resource)
    (children : list Resource) :
  Forall (fun c => forall st,
            clear_stack visitor st ->
            Forall (event_clear visitor) (run_trace (accept_child c st)))
    children ->
  clear_stack visitor (stack ++ [self]) ->
  Forall (event_clear visitor)
    (fst (drive_children accept_child self stack children)).
Proof.
  induction children as [|c rest IH]; intros Hall Hst; [constructor|].
  apply Forall_cons in Hall as [Hc Hrest]. rewrite drive_children_cons.
  destruct (should_dispatch c).
  - simpl. constructor; [done|]. by apply IH.
  - pose proof (handler_clear _ (Hc _ Hst)) as Hh.
    cbn zeta. destruct (run_exn (try_accept_handler _)); [done|].
    simpl. apply Forall_app. split; [done|]. by apply IH.
Qed.

Lemma drive_yielders_clear (stack : list Resource) (ys : list yielder) :
  Forall (fun y =>
            Forall (fun c => forall st,
                      clear_stack visitor st ->
                      Forall (event_clear visitor)
                        (run_trace (accept_child c st)))
              (fst y)) ys ->
  clear_stack visitor stack ->
  forall self i,
    passes_exclusion visitor self ->
    _stack self = Some stack ->
    Forall (event_clear visitor)
      (run_trace (drive_yielders accept_child self stack ys i)).
Proof.
  induction ys as [|y ys IH]; intros Hall Hst self i Hself Hbound.
  - simpl. destruct (report_warnings_trace self) as [->|(n & w & ->)];
      repeat constructor.
  - apply Forall_cons in Hall as [Hy Hys]. simpl.
    destruct (drive_yielder_shape accept_child self stack y)
      as (self' & e & -> & Hs).
    assert (Forall (event_clear visitor)
              (fst (drive_children accept_child self stack (fst y)))) as Htr.
    { apply drive_children_clear; [done|]. by apply clear_stack_snoc. }
    destruct e as [e|]; simpl.
    + by constructor.
    + constructor; [done|]. apply Forall_app. split; [done|].
      apply IH; [done..|by eapply same_object_passes|].
      destruct Hs as (_ & _ & _ & <- & _). done.
Qed.

End loops_clear.

Lemma accept_clear (c : Resource) :
  forall stack : option (list Resource),
    clear_stack visitor (default [] stack) ->
    Forall (event_clear visitor) (run_trace (accept visitor c stack)).
Proof.
  induction c as [c IH] using Resource_contains_ind.
  intros stack Hst. rewrite accept_unfold. unfold accept_body.
  destruct (cur_resource_repr _) as [reprs|e] eqn:Hr; [|constructor].
  destruct (decide _) as [Hx|Hx]; [|constructor].
  assert (passes_exclusion visitor
            (set_visitor (set_stack c (default [] stack)))) as Hv.
  { exists reprs. split; [|done].
    by rewrite <- (same_object_repr _ _ (set_visitor_same_object _)). }
  assert (event_clear visitor
            (EvVisit (set_visitor (set_stack c (default [] stack))))) as Hev.
  { split; [done|]. by eexists. }
  destruct (v_raises _) as [e|]; simpl.
  - constructor; [done|constructor].
  - constructor; [done|].
    apply drive_yielders_clear; [|done| |done].
    + eapply Forall_impl; [exact IH|]. intros y Hy. simpl in Hy.
      eapply Forall_impl; [exact Hy|]. intros ch Hch st' Hst'.
      by apply Hch.
    + eapply same_object_passes; [apply apply_visit_same_object|done].
Qed.

Lemma pool_step_clear (st st' : list (list event) * list event) :
  pool_step visitor st st' ->
  Forall (Forall (event_clear visitor)) (fst st)
  /\ Forall (event_clear visitor) (snd st) ->
  Forall (Forall (event_clear visitor)) (fst st')
  /\ Forall (event_clear visitor) (snd st').
Proof.
  intros [ths1 e rest ths2 log]. cbn [fst snd]. intros [Hths Hlog].
  apply Forall_app in Hths as [H1 H2].
  apply Forall_cons in H2 as [He H2].
  apply Forall_cons in He as [He Hrest].
  split.
  - apply Forall_app. split; [done|]. constructor; [done|].
    apply Forall_app. split; [done|].
    destruct e as [c|c i|c s|n err]; simpl; try constructor; [|constructor].
    unfold try_accept. apply handler_clear, accept_clear. done.
  - apply Forall_app. split; [done|]. by constructor.
Qed.

Lemma crawl_clear (root : Resource) (stack : option (list Resource))
    (st : list (list event) * list event) :
  clear_stack visitor (default [] stack) ->
  crawl_reaches visitor root stack st ->
  Forall (Forall (event_clear visitor)) (fst st)
  /\ Forall (event_clear visitor) (snd st).
Proof.
  intros Hstack Hreach. unfold crawl_reaches in Hreach.
  revert st Hreach. apply rtc_ind_r.
  - cbn [fst snd]. split; [|constructor].
    constructor; [|constructor]. by apply accept_clear.
  - intros st st' _ Hstep IH. by eapply pool_step_clear.
Qed.

End crawl_exclusion.

(** *** The [repr] of the resources of a crawl *)

Lemma same_object_repr_str (a b : Resource) :
  same_object a b -> repr a = repr b.
Proof.
  intros Hs. pose proof (same_object_key a b Hs) as Hk.
  destruct a as [c d ro st v k w f e at1], b as [c' d' ro' st' v' k' w' f' e' at2].
  unfold same_object in Hs. simpl in Hs.
  destruct Hs as (<- & <- & <- & <- & <-).
  unfold repr, parent, type. simpl.
  destruct c; destruct ro; simpl; rewrite ?Hk; done.
Qed.



(** ** The claims on the order of visits and on exclusion *)

(** C1. In every state that a crawl reaches, whatever the interleaving
    of the threads of the pool: before each visit of a resource, and
    before each submission of a resource to the pool, the object on top
    of the stack of that resource (its parent) was visited; and what one
    call of [accept] produces begins with the visit of the resource
    itself, so that every child it accepts inline or submits comes
    after. *)
Theorem parent_visited_before_child (visitor : Visitor) (root : Resource)
    (stack : option (list Resource)) (threads : list (list event))
    (log : list event) :
  default [] stack = [] ->
  crawl_reaches visitor root stack (threads, log) ->
  (forall i c st p,
     log !! i = Some (EvVisit c) -> _stack c = Some st -> last st = Some p ->
     exists j p',
       j < i /\ log !! j = Some (EvVisit p') /\ same_object p' p)
  /\ (forall i c st p,
        log !! i = Some (EvDispatch c st) -> last st = Some p ->
        exists j p',
          j < i /\ log !! j = Some (EvVisit p') /\ same_object p' p)
  /\ (forall self stk,
        run_trace (accept visitor self stk) = []
        \/ exists rest,
             run_trace (accept visitor self stk)
             = EvVisit (set_visitor (set_stack self (default [] stk)))
                 :: rest).
Proof.
  intros Hstack Hreach.
  destruct (crawl_parents_first visitor root stack _ Hstack Hreach)
    as [_ Hlog]. cbn [snd] in Hlog.
  split_and!.
  - intros i c st p Hi Hst Hl.
    by eapply (parents_first_before log i (EvVisit c) st p).
  - intros i c st p Hi Hl.
    by eapply (parents_first_before log i (EvDispatch c st) st p).
  - apply accept_visits_first.
Qed.

(** C2. A resource whose identifier [type/key], or for a project also
    [project/projectNumber], is in the exclusion set: [accept] returns
    after binding the stack, without calling [visit] and without
    starting any child iterator (for a project the code reads
    [projectNumber] before it compares, so the number must be there for
    the call to return). And in every state that a crawl reaches, no
    resource visited is that object, and none has that object in its
    stack: neither the resource nor any of its descendants reaches the
    visitor. *)
Theorem excluded_resource_not_delivered (visitor : Visitor) (self : Resource)
    (stack : option (list Resource)) (k : value) :
  let bound := set_stack self (default [] stack) in
  key bound = Ok k ->
  (type self +:+ "/" +:+ str k ∈ excluded_resources visitor
   \/ type self = "project"
      /\ exists number,
           getitem self "projectNumber" = Ok number
           /\ "project/" +:+ str number ∈ excluded_resources visitor) ->
  (type self = "project" -> is_ok (getitem self "projectNumber") = true) ->
  accept visitor self stack = mkRun bound [] None
  /\ run_trace (try_accept visitor self stack) = []
  /\ (forall root stack0 threads log,
        clear_stack visitor (default [] stack0) ->
        crawl_reaches visitor root stack0 (threads, log) ->
        forall c,
          EvVisit c ∈ log ->
          ~ same_object bound c
          /\ forall st, _stack c = Some st ->
               Forall (fun p => ~ same_object bound p) st).
Proof.
  intros bound Hk Hin Hnum.
  destruct (accept_skips_excluded visitor self stack k Hk Hin Hnum)
    as (Hm & Ha & Ht).
  split; [done|]. split; [done|].
  intros root stack0 threads log Hclean Hreach c Hc.
  destruct (crawl_clear visitor root stack0 _ Hclean Hreach) as [_ Hlog].
  cbn [snd] in Hlog. rewrite Forall_forall in Hlog.
  destruct (Hlog _ Hc) as (Hnc & st0 & Hst0 & Hnst & _). split.
  - intros Hs. apply (passes_not_matches visitor c Hnc).
    by eapply same_object_matches.
  - intros st Hst. assert (st0 = st) as -> by congruence.
    eapply Forall_impl; [exact Hnst|]. intros p Hp Hs.
    apply (passes_not_matches visitor p Hp).
    by eapply same_object_matches.
Qed.

(** A thread of the pool can run to its end, starting the threads it
    submits. *)
Lemma pool_runs_thread (visitor : Visitor) (t : list event) :
  forall (threads1 threads2 : list (list event)) (log : list event),
    rtc (pool_step visitor)
      (threads1 ++ t :: threads2, log)
      (threads1 ++ [] :: threads2 ++ flat_map (spawned visitor) t, log ++ t).
Proof.
  induction t as [|e t IH]; intros threads1 threads2 log.
  - simpl. rewrite !app_nil_r. apply rtc_refl.
  - eapply rtc_l; [apply pool_step_event|].
    replace (log ++ e :: t) with ((log ++ [e]) ++ t)
      by (by rewrite <- app_assoc).
    replace (threads2 ++ flat_map (spawned visitor) (e :: t))
      with ((threads2 ++ spawned visitor e) ++ flat_map (spawned visitor) t)
      by (by rewrite <- app_assoc).
    apply IH.
Qed.

(** *** The names of the resources of a crawl *)

Section crawl_names.

Context (visitor : Visitor).

Lemma handler_unnamed (r : run) :
  Forall event_unnamed (run_trace r) ->
  Forall event_unnamed (run_trace (try_accept_handler r)).
Proof.
  intros Hr. destruct (try_accept_handler_trace r) as [->|(n & e & ->)];
    [done|].
  apply Forall_app. split; [done|]. by constructor.
Qed.

Lemma unnamed_stack_nil : unnamed_stack [].
Proof. split; constructor. Qed.

Lemma unnamed_stack_snoc (st : list Resource) (r : Resource) :
  unnamed_stack st ->
  _full_resource_name r = None -> cls r <> IamCuratedRole ->
  (st <> [] -> _root r = false) ->
  unnamed_stack (st ++ [r]).
Proof.
  intros [Hst Hroots] Hn Hc Hr. split.
  - apply Forall_app. split; [done|]. by constructor.
  - destruct st as [|p st]; [constructor|].
    change (Forall (fun p => _root p = false) (st ++ [r])).
    change (Forall (fun p => _root p = false) st) in Hroots.
    apply Forall_app. split; [done|]. constructor; [by apply Hr|constructor].
Qed.

Section loops_unnamed.

Context (accept_child : Resource -> list Resource -> run).

Lemma drive_yielder_name (self : Resource) (stack : list Resource)
    (y : yielder) :
  _full_resource_name (fst (fst (drive_yielder accept_child self stack y)))
  = _full_resource_name self.
Proof.
  unfold drive_yielder. destruct (iteration_raises _ _ _ _) as [e|]; [|done].
  destruct (skipped e); [done|]. by destruct (repr self).
Qed.

Lemma drive_children_unnamed (self : Resource) (stack : list Resource)
    (children : list Resource) :
  Forall (fun c => as_created c
                   /\ forall st,
                        unnamed_stack st -> st <> [] ->
                        Forall event_unnamed (run_trace (accept_child c st)))
    children ->
  unnamed_stack (stack ++ [self]) ->
  Forall event_unnamed
    (fst (drive_children accept_child self stack children)).
Proof.
  assert (stack ++ [self] <> []) as Hne by (by destruct stack).
  induction children as [|c rest IH]; intros Hall Hst; [constructor|].
  apply Forall_cons in Hall as [[Hc Hrun] Hrest]. rewrite drive_children_cons.
  destruct (should_dispatch c).
  - simpl. constructor; [done|]. by apply IH.
  - pose proof (handler_unnamed _ (Hrun _ Hst Hne)) as Hh.
    cbn zeta. destruct (run_exn (try_accept_handler _)); [done|].
    simpl. apply Forall_app. split; [done|]. by apply IH.
Qed.

Lemma drive_yielders_unnamed (stack : list Resource) (ys : list yielder) :
  Forall (fun y =>
            Forall (fun c => as_created c
                             /\ forall st,
                                  unnamed_stack st -> st <> [] ->
                                  Forall event_unnamed
                                    (run_trace (accept_child c st)))
              (fst y)) ys ->
  unnamed_stack stack ->
  forall self i,
    _full_resource_name self = None ->
    cls self <> IamCuratedRole ->
    (stack <> [] -> _root self = false) ->
    Forall event_unnamed
      (run_trace (drive_yielders accept_child self stack ys i)).
Proof.
  induction ys as [|y ys IH]; intros Hall Hst self i Hn Hc Hr.
  - simpl. destruct (report_warnings_trace self) as [->|(n & w & ->)];
      repeat constructor.
  - apply Forall_cons in Hall as [Hy Hys]. simpl.
    pose proof (drive_yielder_name self stack y) as Hname.
    destruct (drive_yielder_shape accept_child self stack y)
      as (self' & e & Heq & Hs).
    rewrite Heq in Hname |- *. cbn [fst] in Hname.
    assert (Forall event_unnamed
              (fst (drive_children accept_child self stack (fst y)))) as Htr.
    { apply drive_children_unnamed; [done|]. by apply unnamed_stack_snoc. }
    destruct e as [e|]; simpl.
    + by constructor.
    + constructor; [done|]. apply Forall_app. split; [done|].
      destruct Hs as (Hcls & _ & Hroot & _).
      apply IH; [done|done|congruence|congruence|].
      intros Hne. rewrite <- Hroot. by apply Hr.
Qed.

End loops_unnamed.

Lemma accept_unnamed (c : Resource) :
  _full_resource_name c = None ->
  (cls c = IamCuratedRole -> _contains c = []) ->
  Forall (fun y : yielder => Forall as_created (fst y)) (_contains c) ->
  forall stack : option (list Resource),
    unnamed_stack (default [] stack) ->
    (default [] stack <> [] -> _root c = false) ->
    Forall event_unnamed (run_trace (accept visitor c stack)).
Proof.
  induction c as [c IH] using Resource_contains_ind.
  intros Hn Hrole Hchildren stack Hst Hr.
  rewrite accept_unfold. unfold accept_body.
  destruct (cur_resource_repr _) as [reprs|e] eqn:Hrepr; [|constructor].
  destruct (decide _) as [Hx|Hx]; [|constructor].
  assert (event_unnamed
            (EvVisit (set_visitor (set_stack c (default [] stack))))) as Hev.
  { split; [done|]. by eexists. }
  destruct (v_raises _) as [e|]; simpl.
  - constructor; [done|constructor].
  - constructor; [done|].
    destruct (_contains c) as [|y ys] eqn:Hys.
    { simpl. destruct (report_warnings_trace
                         (apply_visit
                            (set_visitor (set_stack c (default [] stack)))
                            (visit visitor
                               (set_visitor
                                  (set_stack c (default [] stack))))))
        as [->|(n & w & ->)]; repeat constructor. }
    apply drive_yielders_unnamed; [|done|done| |done].
    + apply Forall_forall. intros y' Hy'. apply Forall_forall. intros ch Hch.
      rewrite Forall_forall in IH, Hchildren.
      specialize (IH y' Hy'). specialize (Hchildren y' Hy').
      rewrite Forall_forall in IH, Hchildren.
      pose proof (Hchildren ch Hch) as Hcr. split; [done|].
      intros st' Hst' Hne. inversion Hcr as [r Hroot Hname Hcur Hsub]; subst r.
      apply (IH ch Hch); [done|done|done|done|]. by intros _.
    + simpl. intros Hcls. by specialize (Hrole Hcls).
Qed.

Lemma pool_step_unnamed (st st' : list (list event) * list event) :
  pool_step visitor st st' ->
  Forall (Forall event_unnamed) (fst st) /\ Forall event_unnamed (snd st) ->
  Forall (Forall event_unnamed) (fst st') /\ Forall event_unnamed (snd st').
Proof.
  intros [ths1 e rest ths2 log]. cbn [fst snd]. intros [Hths Hlog].
  apply Forall_app in Hths as [H1 H2].
  apply Forall_cons in H2 as [He H2].
  apply Forall_cons in He as [He Hrest].
  split.
  - apply Forall_app. split; [done|]. constructor; [done|].
    apply Forall_app. split; [done|].
    destruct e as [c|c i|c s|n err]; simpl; try constructor; [|constructor].
    destruct He as (Hc & Hs & Hne).
    inversion Hc as [r Hroot Hname Hcur Hsub]; subst r.
    unfold try_accept. apply handler_unnamed, accept_unnamed; try done.
  - apply Forall_app. split; [done|]. by constructor.
Qed.

Lemma crawl_unnamed (root : Resource) (st : list (list event) * list event) :
  crawlable root ->
  crawl_reaches visitor root None st ->
  Forall (Forall event_unnamed) (fst st) /\ Forall event_unnamed (snd st).
Proof.
  intros (Hn & Hrole & Hchildren) Hreach. unfold crawl_reaches in Hreach.
  revert st Hreach. apply rtc_ind_r.
  - cbn [fst snd]. split; [|constructor].
    constructor; [|constructor].
    apply accept_unnamed; [done|done|done|apply unnamed_stack_nil|done].
  - intros st st' _ Hstep IH. by eapply pool_step_unnamed.
Qed.

End crawl_names.

Lemma segments_of_keys (l : list Resource) :
  Forall (fun p => is_ok (key p) = true) l -> exists ss, segments l = Ok ss.
Proof.
  induction l as [|r l IH]; intros Hall; [by exists []|].
  apply Forall_cons in Hall as [Hr Hl]. destruct (IH Hl) as [ss Hss].
  simpl. unfold segment. destruct (key r) as [k|]; [|done].
  simpl. rewrite Hss. simpl. by eexists.
Qed.

(** The name of a resource bound to a stack as a crawl builds it: the
    joined segments of the stack and of the resource, unless the
    resource is a curated role, which is named by its own segment. *)
Lemma name_on_crawl_stack (self : Resource) (st : list Resource)
    (ss : list string) :
  _stack self = Some st -> chained st -> unnamed_stack st ->
  (st <> [] -> _root self = false) ->
  _full_resource_name self = None ->
  segments (st ++ [self]) = Ok ss ->
  (cls self <> IamCuratedRole \/ st = [] ->
   get_full_resource_name self
   = (Ok (String.concat "/" ss),
      set_full_resource_name self (String.concat "/" ss)))
  /\ (cls self = IamCuratedRole ->
      exists s,
        segment self = Ok s
        /\ get_full_resource_name self = (Ok s, set_full_resource_name self s)).
Proof.
  intros Hst Hch [Hun Hroots] Hr Hn Hss. split.
  - intros Hcase.
    assert (lineage self = st ++ [self]) as Hlin.
    { apply lineage_chained; [done|done|].
      destruct st as [|p st]; [constructor|].
      change (Forall follows_stack (st ++ [self])).
      change (Forall (fun p => _root p = false) st) in Hroots.
      apply Forall_cons in Hun as [_ Hun].
      apply Forall_app. split.
      - rewrite Forall_forall in Hun, Hroots. apply Forall_forall.
        intros q Hq. split; [by apply Hroots|by apply Hun].
      - constructor; [|constructor]. split; [by apply Hr|].
        by destruct Hcase as [?|?]. }
    apply get_full_resource_name_lineage; rewrite Hlin; [|done].
    apply Forall_app. split.
    + apply Forall_lookup. intros i p Hp. split.
      * right. right. rewrite (Hch i p Hp). by eexists.
      * rewrite Forall_forall in Hun.
        by apply (Hun p), (list_elem_of_lookup_2 _ i).
    + constructor; [|constructor]. split; [|done].
      right. right. by eexists.
  - intros Hc.
    rewrite segments_app in Hss.
    destruct (segments st) as [sa|]; simpl in Hss; [|done].
    destruct (segment self) as [s|] eqn:Hs; simpl in Hss; [|done].
    exists s. split; [done|].
    assert (lineage self = [self]) as Hlin.
    { rewrite lineage_unfold. unfold above. rewrite Hc.
      by destruct (_root self). }
    change s with (String.concat "/" [s]).
    apply get_full_resource_name_lineage; rewrite Hlin.
    + constructor; [|constructor]. split; [|done]. right. by left.
    + simpl. by rewrite Hs.
Qed.

(** C8 (as amended). In every state that a crawl reaches, when the crawl
    started on a resource with no stored name and the iterators yield
    resources as [create_new] makes them: every resource visited is
    bound to a stack, its ancestors, whose segments [type/key] and its
    own can all be formed; and for every resource visited other than a
    curated role below an ancestor, [get_full_resource_name] returns
    these segments joined by slashes, from the root down to the
    resource itself (the name that the spec gives), and stores it. A
    visited curated role is named by its own segment alone, whatever
    its ancestors. The name is built by the first call that returns,
    which stores it; every later call returns the stored name and
    changes nothing. *)
Theorem full_resource_name_joins_ancestors (visitor : Visitor)
    (root self : Resource) (threads : list (list event))
    (log : list event) :
  crawlable root ->
  crawl_reaches visitor root None (threads, log) ->
  EvVisit self ∈ log ->
  exists n,
    full_resource_name_spec self = Ok n
    /\ is_Some (_stack self)
    /\ (cls self <> IamCuratedRole \/ ancestors self = [] ->
        get_full_resource_name self = (Ok n, set_full_resource_name self n))
    /\ (cls self = IamCuratedRole ->
        exists s,
          segment self = Ok s
          /\ get_full_resource_name self
             = (Ok s, set_full_resource_name self s))
    /\ (forall r r' m,
          get_full_resource_name r = (Ok m, r') ->
          _full_resource_name r' = Some m
          /\ get_full_resource_name r' = (Ok m, r')).
Proof.
  intros Hroot Hreach Hin.
  destruct (crawl_clear visitor root None _ (clear_stack_nil visitor) Hreach)
    as [_ Hclear].
  destruct (crawl_unnamed visitor root _ Hroot Hreach) as [_ Hunnamed].
  cbn [snd] in Hclear, Hunnamed. rewrite Forall_forall in Hclear, Hunnamed.
  destruct (Hclear _ Hin) as (Hpass & st & Hst & Hkeys & Hch).
  destruct (Hunnamed _ Hin) as (Hn & st' & Hst' & Hun & Hr).
  assert (st' = st) as -> by congruence.
  destruct (segments_of_keys (st ++ [self])) as [ss Hss].
  { apply Forall_app. split.
    - eapply Forall_impl; [exact Hkeys|]. intros p Hp.
      by eapply passes_key_ok.
    - constructor; [|constructor]. by eapply passes_key_ok. }
  destruct (name_on_crawl_stack self st ss Hst Hch Hun Hr Hn Hss)
    as [Hname Hrole].
  exists (String.concat "/" ss). split_and!.
  - unfold full_resource_name_spec, ancestors. rewrite Hst. simpl.
    by rewrite Hss.
  - by eexists.
  - unfold ancestors. rewrite Hst. simpl. exact Hname.
  - exact Hrole.
  - intros r r' m Hcall. split.
    + by destruct (get_full_resource_name_returns _ _ _ Hcall) as (_ & ? & _).
    + by eapply get_full_resource_name_again.
Qed.


(** ** What [accept] does to its receiver *)

Lemma get_full_resource_name_raises (self self' : Resource) (e : exn) :
  get_full_resource_name self = (Raise e, self') -> self' = self.
Proof.
  destruct self as [c d ro st v k w f e0 a]. simpl.
  destruct f as [n0|]; [destruct (negb (String.eqb n0 "")); [done|]|];
    (destruct (key _); [|by intros [= _ <-]]);
    match goal with
    | |- context [ match ?x with Ok _ => _ | Raise _ => _ end ] =>
        destruct x; [done|by intros [= _ <-]]
    end.
Qed.

(** The end of [accept] keeps the object, its visitor and its warnings,
    and stores a name only when it returns. *)
Lemma report_warnings_receiver (self : Resource) :
  let r := report_warnings self in
  same_object self (run_self r)
  /\ _warning (run_self r) = _warning self
  /\ _visitor (run_self r) = _visitor self
  /\ (is_Some (run_exn r) -> run_self r = self).
Proof.
  unfold report_warnings. destruct (_warning self) as [|w ws] eqn:Hw; simpl.
  { rewrite Hw. split_and!; [apply same_object_refl|done..]. }
  destruct (get_full_resource_name self) as [[n|e] self'] eqn:E; simpl.
  - destruct (get_full_resource_name_returns _ _ _ E) as (_ & _ & [->| ->]).
    + rewrite Hw. split_and!; [apply same_object_refl|done|done|].
      by intros [? ?].
    + simpl. rewrite Hw. split_and!; [by repeat split|done|done|].
      by intros [? ?].
  - apply get_full_resource_name_raises in E as ->.
    rewrite Hw. split_and!; [apply same_object_refl|done..].
Qed.

Section receiver_loops.

Context (visitor : Visitor).
Context (accept_child : Resource -> list Resource -> run).

Lemma drive_yielder_receiver (self : Resource) (stack : list Resource)
    (y : yielder) :
  exists self' tr e,
    drive_yielder accept_child self stack y = (self', tr, e)
    /\ (self' = self
        \/ e = None /\ exists w, self' = add_warning self w).
Proof.
  unfold drive_yielder.
  destruct (iteration_raises _ _ _ _) as [e|]; [|by eexists _, _, _; eauto].
  destruct (skipped e); [by eexists _, _, _; eauto|].
  destruct (repr self); eexists _, _, _; eauto.
Qed.

(** The loop over the factories keeps the object and the visitor of the
    receiver, only adds warnings, and stores no name when it raises. *)
Lemma drive_yielders_receiver (stack : list Resource) (ys : list yielder) :
  forall self i,
    let r := drive_yielders accept_child self stack ys i in
    same_object self (run_self r)
    /\ _warning self `prefix_of` _warning (run_self r)
    /\ _visitor (run_self r) = _visitor self
    /\ (is_Some (run_exn r) ->
        _full_resource_name (run_self r) = _full_resource_name self).
Proof.
  induction ys as [|y ys IH]; intros self i.
  - cbn zeta. simpl.
    destruct (report_warnings_receiver self) as (Hs & Hw & Hv & Hn).
    split_and!; [done|by rewrite Hw|done|].
    intros He. by rewrite (Hn He).
  - cbn zeta. simpl.
    destruct (drive_yielder_receiver self stack y)
      as (self' & tr & e & -> & Hself).
    destruct e as [e|]; simpl.
    + destruct Hself as [->|[? _]]; [|done].
      split_and!; [apply same_object_refl|done|done|done].
    + destruct (IH self' (S i)) as (Hs & Hw & Hv & Hn).
      destruct Hself as [->|[_ [w ->]]]; [done|].
      split_and!.
      * eapply same_object_trans; [apply add_warning_same_object|exact Hs].
      * etrans; [|exact Hw]. by apply prefix_app_r.
      * by rewrite Hv.
      * intros He. by rewrite (Hn He).
Qed.

End receiver_loops.

(** [accept] binds the stack and otherwise leaves the object what it
    was; it keeps the warnings it finds and stores no name when it
    raises. *)
Lemma accept_receiver (visitor : Visitor) (self : Resource)
    (stack : option (list Resource)) :
  let r := accept visitor self stack in
  same_object (set_stack self (default [] stack)) (run_self r)
  /\ _warning self `prefix_of` _warning (run_self r)
  /\ (is_Some (run_exn r) ->
      _full_resource_name (run_self r) = _full_resource_name self).
Proof.
  cbn zeta. rewrite accept_unfold. unfold accept_body.
  destruct (cur_resource_repr _) as [reprs|e]; simpl;
    [|split_and!; [apply same_object_refl|done|done]].
  destruct (decide _) as [Hx|Hx]; simpl;
    [|split_and!; [apply same_object_refl|done|done]].
  destruct (v_raises _) as [e|]; simpl.
  - split_and!; [by repeat split|by apply prefix_app_r|done].
  - match goal with
    | |- context [ drive_yielders ?ac ?s ?st ?ys ?i ] =>
        destruct (drive_yielders_receiver ac st ys s i) as (Hs & Hw & _ & Hn)
    end.
    split_and!.
    + eapply same_object_trans; [|exact Hs]. by repeat split.
    + etrans; [|exact Hw]. simpl. by apply prefix_app_r.
    + intros He. by rewrite (Hn He).
Qed.

(** The handler of [try_accept] keeps the object and the warnings. *)
Lemma try_accept_handler_receiver (r : run) :
  same_object (run_self r) (run_self (try_accept_handler r))
  /\ _warning (run_self (try_accept_handler r)) = _warning (run_self r).
Proof.
  unfold try_accept_handler.
  destruct (run_exn r) as [e|]; [|split; [apply same_object_refl|done]].
  destruct (repr (run_self r)); [|split; [apply same_object_refl|done]].
  destruct (get_full_resource_name (run_self r)) as [[n|e'] self'] eqn:E.
  - destruct (get_full_resource_name_returns _ _ _ E) as (_ & _ & [->| ->]);
      simpl; (split; [by repeat split|done]).
  - apply get_full_resource_name_raises in E as ->.
    split; [apply same_object_refl|done].
Qed.

(** [stack()] raises on a resource that no [accept] has reached. Once
    [accept] or [try_accept] has been called on it, whether the call
    visited the resource, passed it over as excluded or raised,
    [stack()] returns the stack that was passed in (the empty list for
    [None]), and class, data, root flag and iterators are what they
    were. *)
Theorem accept_binds_stack (visitor : Visitor) (self : Resource)
    (st : option (list Resource)) (c : resource_class) (data : value)
    (root : bool) (ys : list yielder) :
  stack (new_resource c data root ys)
  = Raise (mkExn Exception "Stack not initialized yet")
  /\ stack (run_self (accept visitor self st)) = Ok (default [] st)
  /\ stack (run_self (try_accept visitor self st)) = Ok (default [] st)
  /\ same_object (set_stack self (default [] st))
       (run_self (accept visitor self st))
  /\ same_object (set_stack self (default [] st))
       (run_self (try_accept visitor self st)).
Proof.
  destruct (accept_receiver visitor self st) as (Hs & _ & _).
  destruct (try_accept_handler_receiver (accept visitor self st)) as (Hh & _).
  fold (try_accept visitor self st) in Hh.
  pose proof (same_object_trans _ _ _ Hs Hh) as Ht.
  split; [done|]. unfold stack.
  pose proof Hs as (_ & _ & _ & Hst & _).
  pose proof Ht as (_ & _ & _ & Hst' & _).
  rewrite <- Hst, <- Hst'. simpl. done.
Qed.

Lemma drive_yielders_reports (accept_child : Resource -> list Resource -> run)
    (stack : list Resource) (ys : list yielder) :
  forall self i,
    run_exn (drive_yielders accept_child self stack ys i) = None ->
    _warning (run_self (drive_yielders accept_child self stack ys i)) <> [] ->
    exists name,
      _full_resource_name (run_self (drive_yielders accept_child self stack ys i))
      = Some name
      /\ name <> ""
      /\ last (run_trace (drive_yielders accept_child self stack ys i))
         = Some (EvOnChildError name
                   (inr (get_warning
                           (run_self (drive_yielders accept_child self stack ys i))))).
Proof.
  induction ys as [|y ys IH]; intros self i.
  - simpl. unfold report_warnings.
    destruct (_warning self) as [|w ws] eqn:Hw; simpl; [by rewrite Hw|].
    destruct (get_full_resource_name self) as [[n|e] self'] eqn:E; simpl;
      [|done].
    intros _ _.
    destruct (get_full_resource_name_returns _ _ _ E) as (Hne & Hn & _).
    by exists n.
  - simpl.
    destruct (drive_yielder_receiver accept_child self stack y)
      as (self' & tr & e & -> & _).
    destruct e as [e|]; simpl; [done|].
    intros He Hw. destruct (IH self' (S i) He Hw) as (n & Hn & Hne & Hl).
    exists n. split_and!; [done|done|].
    rewrite last_cons, last_app, Hl. done.
Qed.

(** When [accept] has visited a resource and returns, no warning that
    the resource carried before the call is lost, and if the resource
    ends with warnings, the last call that [accept] makes is
    [on_child_error] with the full name of the resource and its
    warnings joined by newlines. *)
Theorem accept_reports_warnings (visitor : Visitor) (self : Resource)
    (st : option (list Resource)) :
  run_exn (accept visitor self st) = None ->
  run_trace (accept visitor self st) <> [] ->
  _warning self `prefix_of` _warning (run_self (accept visitor self st))
  /\ (_warning (run_self (accept visitor self st)) <> [] ->
      exists name,
        get_full_resource_name (run_self (accept visitor self st))
        = (Ok name, run_self (accept visitor self st))
        /\ last (run_trace (accept visitor self st))
           = Some (EvOnChildError name
                     (inr (get_warning (run_self (accept visitor self st)))))).
Proof.
  intros He Htr.
  split; [apply (accept_receiver visitor self st)|].
  revert He Htr. rewrite accept_unfold. unfold accept_body.
  destruct (cur_resource_repr _) as [reprs|e]; [|done].
  destruct (decide _) as [Hx|Hx]; [|done].
  destruct (v_raises _) as [e|]; [done|]. simpl.
  intros He _ Hw.
  destruct (drive_yielders_reports _ _ _ _ _ He Hw) as (n & Hn & Hne & Hl).
  exists n. split; [by apply get_full_resource_name_cached|].
  by rewrite last_cons, Hl.
Qed.

Lemma segments_key_ok (l : list Resource) (ss : list string) (r : Resource) :
  segments l = Ok ss -> r ∈ l -> exists k, key r = Ok k.
Proof.
  revert ss. induction l as [|x l IH]; intros ss Hss Hin.
  - by apply elem_of_nil in Hin.
  - simpl in Hss. unfold segment in Hss.
    destruct (key x) as [k|] eqn:Hk; simpl in Hss; [|done].
    destruct (segments l) as [ss'|]; simpl in Hss; [|done].
    apply elem_of_cons in Hin as [->|Hin]; [by exists k|by eapply IH].
Qed.

Lemma same_object_above (a b : Resource) :
  same_object a b -> above a = above b.
Proof.
  intros (Hc & _ & Hr & Hst & _). unfold above. by rewrite Hc, Hr, Hst.
Qed.

Lemma same_object_segments (a b : Resource) :
  same_object a b -> segments (lineage a) = segments (lineage b).
Proof.
  intros Hs. rewrite (lineage_unfold a), (lineage_unfold b), !segments_app.
  rewrite (same_object_above a b Hs). simpl. unfold segment, type.
  rewrite (same_object_key a b Hs). destruct Hs as (-> & _). done.
Qed.

(** A resource other than a curated role that is a root, or is bound
    to a stack that is not empty, has a [repr] as soon as the keys of
    its lineage can be formed. *)
Lemma repr_of_lineage (self : Resource) (ss : list string) :
  cls self <> IamCuratedRole ->
  _root self = true \/ (exists st, _stack self = Some st /\ st <> []) ->
  segments (lineage self) = Ok ss ->
  exists s, repr self = Ok s.
Proof.
  intros Hc Hp Hss. unfold repr, parent.
  destruct (_root self) eqn:Hr.
  - destruct (segments_key_ok _ _ self Hss) as [k Hk].
    { rewrite lineage_unfold. apply elem_of_app. right.
      by apply list_elem_of_singleton. }
    destruct (cls self); try done; simpl; rewrite Hk; simpl; by eexists.
  - destruct Hp as [?|(st & Hst & Hne)]; [done|]. rewrite Hst.
    destruct (last st) as [p|] eqn:Hl.
    2:{ apply last_None in Hl. done. }
    destruct (segments_key_ok _ _ p Hss) as [k Hk].
    { rewrite lineage_unfold. apply elem_of_app. left.
      unfold above. rewrite Hr, Hst, Hl.
      destruct (cls self); try done; simpl; rewrite (lineage_unfold p);
        apply elem_of_app; right; by apply list_elem_of_singleton. }
    destruct (cls self); try done; simpl; rewrite Hk; simpl; by eexists.
Qed.

(** [try_accept] contains every failure of [accept]. For a resource
    other than a curated role, a root or bound below a parent, whose
    lineage has keys and no stored names: [try_accept] never raises, and
    an exception that leaves [accept] is handed to [on_child_error]
    under the full name of the resource, after the events of
    [accept]. *)
Theorem try_accept_contains_failures (visitor : Visitor) (self : Resource)
    (st : option (list Resource)) (ss : list string) :
  cls self <> IamCuratedRole ->
  _root self = true \/ default [] st <> [] ->
  Forall nameable (lineage (set_stack self (default [] st))) ->
  segments (lineage (set_stack self (default [] st))) = Ok ss ->
  run_exn (try_accept visitor self st) = None
  /\ (run_exn (accept visitor self st) = None ->
      try_accept visitor self st = accept visitor self st)
  /\ (forall e,
        run_exn (accept visitor self st) = Some e ->
        run_trace (try_accept visitor self st)
        = run_trace (accept visitor self st)
          ++ [EvOnChildError (String.concat "/" ss) (inl e)]).
Proof.
  intros Hc Hp Hall Hss.
  destruct (accept_receiver visitor self st) as (Hs & _ & Hn).
  unfold try_accept, try_accept_handler.
  destruct (run_exn (accept visitor self st)) as [e|] eqn:He;
    [|split_and!; done].
  destruct (repr_of_lineage (set_stack self (default [] st)) ss) as [s Hrepr].
  { done. }
  { destruct Hp as [Hp|Hp]; [by left|right]. by eexists. }
  { done. }
  rewrite <- (same_object_repr_str _ _ Hs), Hrepr.
  rewrite (get_full_resource_name_lineage _) with (ss := ss).
  - simpl. split_and!; [done|done|]. by intros e' [= <-].
  - rewrite lineage_unfold, <- (same_object_above _ _ Hs).
    rewrite lineage_unfold in Hall. apply Forall_app in Hall as [Ha Hb].
    apply Forall_app. split; [done|]. apply Forall_inv in Hb.
    constructor; [|constructor]. destruct Hb as [Hb1 Hb2].
    destruct Hs as (Hcl & _ & Hro & Hst & _).
    split; [by rewrite <- Hcl, <- Hro, <- Hst|].
    rewrite Hn by (by eexists). exact Hb2.
  - by rewrite <- (same_object_segments _ _ Hs).
Qed.

(** A curated role has no parent, so its [repr] cannot be formed. When
    [accept] raises on a curated role that an iterator yielded,
    [try_accept] raises [AttributeError] in place of reporting the
    failure: [on_child_error] is not called, and the loop over the
    iterator ends there, the roles yielded after it being left out. *)
Theorem curated_role_failure_escapes (visitor : Visitor)
    (self role : Resource) (stack rest : list Resource) (e : exn) :
  cls role = IamCuratedRole ->
  run_exn (accept visitor role (Some (stack ++ [self]))) = Some e ->
  run_exn (try_accept visitor role (Some (stack ++ [self])))
  = Some (no_attribute "type")
  /\ run_trace (try_accept visitor role (Some (stack ++ [self])))
     = run_trace (accept visitor role (Some (stack ++ [self])))
  /\ drive_children (fun r s => accept visitor r (Some s)) self stack
       (role :: rest)
     = (run_trace (accept visitor role (Some (stack ++ [self]))),
        Some (no_attribute "type")).
Proof.
  intros Hc He.
  destruct (accept_receiver visitor role (Some (stack ++ [self])))
    as (Hs & _ & _).
  assert (try_accept_handler (accept visitor role (Some (stack ++ [self])))
          = mkRun (run_self (accept visitor role (Some (stack ++ [self]))))
              (run_trace (accept visitor role (Some (stack ++ [self]))))
              (Some (no_attribute "type"))) as Hh.
  { unfold try_accept_handler. rewrite He.
    rewrite <- (same_object_repr_str _ _ Hs).
    unfold repr, parent. simpl. by rewrite Hc. }
  unfold try_accept. rewrite Hh. split_and!; [done|done|].
  rewrite drive_children_cons.
  unfold should_dispatch. rewrite Hc. cbn zeta. by rewrite Hh.
Qed.

(** A yielded resource whose key cannot be formed ends the iteration
    that yielded it. [accept] raises on it before any visit, the handler
    of [try_accept] needs the key again to name the resource and raises
    in turn, and the exception leaves the loop over the iterator: the
    turn produces no event, so the resources yielded after it are
    neither visited nor dispatched. *)
Theorem unidentified_child_ends_iteration (visitor : Visitor)
    (self child : Resource) (stack rest : list Resource)
    (ending : option exn) (e : exn) :
  should_dispatch child = false ->
  _full_resource_name child = None ->
  key (set_stack child (stack ++ [self])) = Raise e ->
  (exists e',
     drive_children (fun r s => accept visitor r (Some s)) self stack
       (child :: rest)
     = ([], Some e'))
  /\ (exists self' oe,
        drive_yielder (fun r s => accept visitor r (Some s)) self stack
          (child :: rest, ending)
        = (self', [], oe)).
Proof.
  intros Hd Hn Hk.
  assert (exists e',
            drive_children (fun r s => accept visitor r (Some s)) self stack
              (child :: rest)
            = ([], Some e')) as [e' He'].
  { rewrite drive_children_cons, Hd. cbn zeta.
    rewrite (accept_unidentified visitor child (Some (stack ++ [self])) e).
    2:{ unfold cur_resource_repr. simpl. by rewrite Hk. }
    unfold try_accept_handler. simpl.
    destruct (repr _); [|by eexists].
    destruct child as [c d ro st0 v k0 w f en at1].
    unfold set_stack in *. simpl in *. subst f.
    rewrite Hk. by eexists. }
  split; [by exists e'|].
  unfold drive_yielder, iteration_raises. cbn [fst snd]. rewrite He'.
  cbn [fst snd].
  destruct (skipped e'); [by eexists _, _|].
  destruct (repr self); by eexists _, _.
Qed.

(** ** Roots: [from_root_id] and the composite root *)

Lemma string_prefix_app_l (a b s : string) :
  String.prefix (a +:+ b) s = true -> String.prefix a s = true.
Proof.
  revert s. induction a as [|x a IH]; intros s; [by destruct s|].
  change ((String x a) +:+ b) with (String x (a +:+ b)).
  destruct s as [|y s]; simpl; [done|].
  destruct (Ascii.ascii_dec x y); [apply IH|done].
Qed.

Lemma string_prefix_first_char (x y : Ascii.ascii) (a b s : string) :
  String.prefix (String x a) s = true ->
  x <> y ->
  String.prefix (String y b) s = false.
Proof.
  destruct s as [|c s]; [done|]. cbn [String.prefix].
  destruct (Ascii.ascii_dec x c) as [->|]; [|done]. intros _ Hne.
  destruct (Ascii.ascii_dec y c) as [->|]; done.
Qed.

(** What [from_root_id] does with an id that it supports: one request,
    chosen by the first prefix that matches, and a resource of the
    matching class, a placeholder when the request fails with an API
    error. *)
Lemma from_root_id_cases (client : Client) (root_id : string) (root : bool)
    (log : list api_call) :
  supported_root_id root_id = true ->
  exists c call label,
    (c = ResourceManagerOrganization \/ c = ResourceManagerProject
     \/ c = ResourceManagerFolder)
    /\ String.prefix (class_type c) root_id = true
    /\ from_root_id client root_id root log
       = match respond client log call with
         | Ok (data, _) => (Ok (create_new client c data root), log ++ [call])
         | Raise e =>
             if existsb (isinstance e) api_errors then
               (Ok (fake_resource client c root_id
                      ("Unable to fetch " +:+ label +:+ " from API "
                       +:+ root_id +:+ ": " +:+ exn_str e
                       +:+ ", creating fake resource.") root),
                log ++ [call])
             else (Raise e, log ++ [call])
         end.
Proof.
  unfold supported_root_id, from_root_id. intros Hs. cbn [List.find fst].
  destruct (String.prefix "organizations" root_id) eqn:Ho.
  { exists ResourceManagerOrganization,
      (mkCall "fetch_crm_organization" [VStr root_id]), "Organization".
    split; [by left|]. split.
    { by apply (string_prefix_app_l "organization" "s"). }
    unfold Organization.fetch.
    destruct (respond client log _) as [[data md]|e]; [done|].
    by destruct (existsb _ _). }
  destruct (String.prefix "projects" root_id) eqn:Hp.
  { exists ResourceManagerProject,
      (mkCall "fetch_crm_project" [VStr (split1_last root_id)]), "Project".
    split; [by right; left|]. split.
    { by apply (string_prefix_app_l "project" "s"). }
    unfold Project.fetch.
    destruct (respond client log _) as [[data md]|e]; [done|].
    by destruct (existsb _ _). }
  simpl in Hs. rewrite Hs.
  exists ResourceManagerFolder,
    (mkCall "fetch_crm_folder" [VStr root_id]), "Folder".
  split; [by right; right|]. split.
  { by apply (string_prefix_app_l "folder" "s"). }
  unfold Folder.fetch.
  destruct (respond client log _) as [[data md]|e]; [done|].
  by destruct (existsb _ _).
Qed.

(** [from_root_id] on an id that starts with none of [organizations],
    [projects], [folders] raises and sends no request. On any other id
    it sends exactly one request and returns a resource, not yet bound
    to a stack, whose type is a prefix of the id and whose root flag is
    the one passed in: built from the data of the response, without
    warning, or, when the request fails with an API error, holding only
    the id under [name], with one warning. Any other exception of the
    client leaves [from_root_id]. *)
Theorem from_root_id_outcome (client : Client) (root_id : string)
    (root : bool) (log : list api_call) :
  if supported_root_id root_id then
    exists call,
      snd (from_root_id client root_id root log) = log ++ [call]
      /\ match respond client log call with
         | Ok (data, _) =>
             exists r,
               fst (from_root_id client root_id root log) = Ok r
               /\ _data r = data /\ _warning r = []
               /\ _root r = root /\ _stack r = None
               /\ String.prefix (type r) root_id = true
         | Raise e =>
             if existsb (isinstance e) api_errors then
               exists r w,
                 fst (from_root_id client root_id root log) = Ok r
                 /\ _data r = VDict {[ "name" := VStr root_id ]}
                 /\ _warning r = [w]
                 /\ _root r = root /\ _stack r = None
                 /\ String.prefix (type r) root_id = true
             else fst (from_root_id client root_id root log) = Raise e
         end
  else
    from_root_id client root_id root log
    = (Raise (mkExn Exception
                "Unsupported root id, must be one of organizations,projects,folders"),
       log).
Proof.
  destruct (supported_root_id root_id) eqn:Hs.
  - destruct (from_root_id_cases client root_id root log Hs)
      as (c & call & label & Hc & Hp & ->).
    exists call.
    destruct (respond client log call) as [[data md]|e]; cbn [fst snd].
    + split; [done|]. eexists. split_and!; done.
    + destruct (existsb (isinstance e) api_errors); cbn [fst snd]; [|done].
      split; [done|]. eexists _, _. split_and!; done.
  - unfold supported_root_id in Hs. unfold from_root_id. cbn [List.find fst].
    destruct (String.prefix "organizations" root_id); [done|].
    destruct (String.prefix "projects" root_id); [done|].
    simpl in Hs. rewrite Hs. done.
Qed.

(** The placeholder that a failed fetch of an organization or a folder
    leaves can be crawled, unlike that of a project: the key of both
    classes is read from [name], which the placeholder holds. *)
Lemma placeholder_key (client : Client) (c : resource_class)
    (resource_key err_msg : string) (root : bool) (st : list Resource) :
  c = ResourceManagerOrganization \/ c = ResourceManagerFolder ->
  key (set_stack (fake_resource client c resource_key err_msg root) st)
  = Ok (VStr (split1_last resource_key)).
Proof. intros [->| ->]; reflexivity. Qed.

(** When the request for an organization or a folder fails with an API
    error, [from_root_id] returns a placeholder whose key is what
    follows the first slash of the id, and [accept] visits the
    placeholder, with its warning, unless it is excluded. *)
Theorem placeholder_root_is_visited (client : Client) (visitor : Visitor)
    (root_id method : string) (c : resource_class) (root : bool)
    (log : list api_call) (e : exn) :
  (String.prefix "organizations" root_id = true
   /\ c = ResourceManagerOrganization /\ method = "fetch_crm_organization")
  \/ (String.prefix "folders" root_id = true
      /\ c = ResourceManagerFolder /\ method = "fetch_crm_folder") ->
  respond client log (mkCall method [VStr root_id]) = Raise e ->
  existsb (isinstance e) api_errors = true ->
  class_type c +:+ "/" +:+ split1_last root_id ∉ excluded_resources visitor ->
  exists placeholder w rest,
    from_root_id client root_id root log
    = (Ok placeholder, log ++ [mkCall method [VStr root_id]])
    /\ cls placeholder = c
    /\ _warning placeholder = [w]
    /\ key placeholder = Ok (VStr (split1_last root_id))
    /\ run_trace (accept visitor placeholder None)
       = EvVisit (set_visitor (set_stack placeholder [])) :: rest
    /\ _warning (set_visitor (set_stack placeholder [])) = [w].
Proof.
  intros Hkind Hr He Hx.
  assert (exists label,
            from_root_id client root_id root log
            = (Ok (fake_resource client c root_id
                     ("Unable to fetch " +:+ label +:+ " from API "
                      +:+ root_id +:+ ": " +:+ exn_str e
                      +:+ ", creating fake resource.") root),
               log ++ [mkCall method [VStr root_id]])) as [label Hfrom].
  { unfold from_root_id. cbn [List.find fst].
    destruct Hkind as [(Hp & -> & ->)|(Hp & -> & ->)].
    - rewrite Hp. unfold Organization.fetch. rewrite Hr, He.
      by exists "Organization".
    - rewrite (string_prefix_first_char _ _ _ _ _ Hp) by done.
      rewrite (string_prefix_first_char _ _ _ _ _ Hp) by done.
      rewrite Hp. unfold Folder.fetch. rewrite Hr, He.
      by exists "Folder". }
  assert (c = ResourceManagerOrganization \/ c = ResourceManagerFolder) as Hc
    by (destruct Hkind as [(_ & -> & _)|(_ & -> & _)]; eauto).
  revert Hfrom.
  generalize ("Unable to fetch " +:+ label +:+ " from API "
              +:+ root_id +:+ ": " +:+ exn_str e
              +:+ ", creating fake resource.").
  intros w Hfrom.
  assert (exists rest,
            run_trace (accept visitor (fake_resource client c root_id w root)
                         None)
            = EvVisit (set_visitor
                         (set_stack (fake_resource client c root_id w root) []))
                :: rest)
    as [rest Hrest].
  { erewrite accept_visits.
    - cbn zeta. destruct (v_raises _); simpl; by eexists.
    - apply cur_resource_repr_other.
      + by apply placeholder_key.
      + by destruct Hc as [->| ->].
    - assert (type (set_stack (fake_resource client c root_id w root)
                      (default [] None))
              = class_type c) as -> by done.
      apply elem_of_equiv_empty_L. intros y [Hy1 Hy2]%elem_of_intersection.
      apply elem_of_singleton in Hy1 as ->. done. }
  exists (fake_resource client c root_id w root), w, rest.
  split_and!; [exact Hfrom|done|done| |exact Hrest|done].
  destruct Hc as [->| ->]; reflexivity.
Qed.

(** An id that [from_root_id] supports yields a resource when the
    client raises nothing but API errors. *)
Lemma from_root_id_yields (client : Client) (root_id : string)
    (log : list api_call) :
  raises_api_errors_only client ->
  supported_root_id root_id = true ->
  exists r call,
    from_root_id client root_id false log = (Ok r, log ++ [call])
    /\ _root r = false /\ _stack r = None
    /\ String.prefix (type r) root_id = true.
Proof.
  intros Hapi Hs.
  destruct (from_root_id_cases client root_id false log Hs)
    as (c & call & label & Hc & Hp & ->).
  destruct (respond client log call) as [[data md]|e] eqn:Hr.
  - eexists _, _. split_and!; done.
  - rewrite (Hapi _ _ _ Hr). eexists _, _. split_and!; done.
Qed.

Lemma iter_children_app (client : Client) (good : list string)
    (more : list value) :
  raises_api_errors_only client ->
  Forall (fun id => supported_root_id id = true) good ->
  forall log,
  exists rs calls,
    length calls = length good
    /\ Forall2 (fun id r => _root r = false /\ _stack r = None
                            /\ String.prefix (type r) id = true) good rs
    /\ CompositeRoot.iter_children client ((VStr <$> good) ++ more) log
       = ((rs ++ fst (fst (CompositeRoot.iter_children client more
                             (log ++ calls))),
           snd (fst (CompositeRoot.iter_children client more (log ++ calls)))),
          snd (CompositeRoot.iter_children client more (log ++ calls))).
Proof.
  intros Hapi Hgood. induction Hgood as [|id good Hid Hgood IH]; intros log.
  - exists [], []. rewrite app_nil_r. split_and!; [done|constructor|].
    simpl. by destruct (CompositeRoot.iter_children client more log) as [[? ?] ?].
  - destruct (from_root_id_yields client id log Hapi Hid)
      as (r & call & Hfrom & Hr).
    destruct (IH (log ++ [call])) as (rs & calls & Hlen & Hall & Heq).
    exists (r :: rs), (call :: calls). split_and!.
    + simpl. by rewrite Hlen.
    + by constructor.
    + rewrite fmap_cons, <- app_comm_cons.
      cbn [CompositeRoot.iter_children str_receiver]. rewrite Hfrom, Heq.
      rewrite <- !app_assoc. done.
Qed.

Lemma from_root_id_unsupported (client : Client) (root_id : string)
    (root : bool) (log : list api_call) :
  supported_root_id root_id = false ->
  from_root_id client root_id root log
  = (Raise (mkExn Exception
              "Unsupported root id, must be one of organizations,projects,folders"),
     log).
Proof.
  unfold supported_root_id, from_root_id. intros Hs. cbn [List.find fst].
  destruct (String.prefix "organizations" root_id); [done|].
  destruct (String.prefix "projects" root_id); [done|].
  simpl in Hs. rewrite Hs. done.
Qed.

Lemma composite_iter_create (client : Client) (children : list value)
    (log : list api_call) :
  CompositeRoot.iter client (CompositeRoot.create client (VList children)) log
  = CompositeRoot.iter_children client children log.
Proof. reflexivity. Qed.

(** The iterator of a composite root, when every configured child is
    an id that [from_root_id] supports and the client raises nothing
    but API errors: it yields one resource for each child, in the order
    configured, none of them a root, sends one request for each, and
    ends normally. A child that cannot be fetched yields a placeholder
    and does not keep the children after it from being yielded. *)
Theorem composite_root_yields_every_child (client : Client)
    (ids : list string) (log : list api_call) :
  raises_api_errors_only client ->
  Forall (fun id => supported_root_id id = true) ids ->
  exists rs calls,
    CompositeRoot.iter client
      (CompositeRoot.create client (VList (VStr <$> ids))) log
    = ((rs, None), log ++ calls)
    /\ length calls = length ids
    /\ Forall2 (fun id r => _root r = false /\ _stack r = None
                            /\ String.prefix (type r) id = true) ids rs.
Proof.
  intros Hapi Hids.
  destruct (iter_children_app client ids [] Hapi Hids log)
    as (rs & calls & Hlen & Hall & Heq).
  exists rs, calls. rewrite composite_iter_create.
  rewrite app_nil_r in Heq. rewrite Heq. simpl. rewrite app_nil_r. done.
Qed.

(** A configured child that [from_root_id] does not support ends the
    iterator of the composite root with the exception of
    [from_root_id]: the children configured before it have been
    yielded, and those configured after it are not fetched. *)
Theorem unsupported_composite_child_ends_iteration (client : Client)
    (good rest : list string) (bad : string) (log : list api_call) :
  raises_api_errors_only client ->
  Forall (fun id => supported_root_id id = true) good ->
  supported_root_id bad = false ->
  exists rs calls,
    CompositeRoot.iter client
      (CompositeRoot.create client (VList (VStr <$> good ++ bad :: rest))) log
    = ((rs,
        Some (mkExn Exception
                "Unsupported root id, must be one of organizations,projects,folders")),
       log ++ calls)
    /\ length rs = length good
    /\ length calls = length good.
Proof.
  intros Hapi Hgood Hbad.
  destruct (iter_children_app client good (VStr <$> bad :: rest) Hapi Hgood log)
    as (rs & calls & Hlen & Hall & Heq).
  exists rs, calls. rewrite composite_iter_create, fmap_app, Heq.
  rewrite fmap_cons. cbn [CompositeRoot.iter_children str_receiver].
  rewrite from_root_id_unsupported by done. simpl. rewrite app_nil_r.
  split_and!; [done| |done]. symmetry. by eapply Forall2_length.
Qed.

(** ** Items of the data *)

(** Assigning an item makes it the item read back under that key and
    leaves the items under other keys as they are. It touches nothing
    but the data: the memoised side-band results, the stored full name
    and the warnings stay, also those that were derived from the item
    replaced. *)
Theorem setitem_then_getitem (self self' : Resource) (k : string)
    (v : value) :
  setitem self k v = Ok self' ->
  getitem self' k = Ok v
  /\ (forall k' x, k' <> k -> getitem self k' = Ok x <-> getitem self' k' = Ok x)
  /\ attrs self' = attrs self
  /\ _full_resource_name self' = _full_resource_name self
  /\ _warning self' = _warning self.
Proof.
  unfold setitem. destruct (_data self) as [| | | | |d] eqn:Hd; try done.
  intros [= <-]. split_and!; try done.
  - unfold getitem. simpl. by rewrite lookup_insert_eq.
  - intros k' x Hne. unfold getitem. rewrite Hd. simpl.
    rewrite lookup_insert_ne by done.
    destruct (d !! k'); split; intros [=]; by subst.
Qed.

(** Deleting an item of a resource whose data is a dict never raises,
    also when the key is absent, in which case nothing changes; reading
    the key afterwards raises [KeyError], and the items under other
    keys are as they were. *)
Theorem delitem_removes (self : Resource) (k : string)
    (d : gmap string value) :
  _data self = VDict d ->
  exists self',
    delitem self k = Ok self'
    /\ (exists e, getitem self' k = Raise e /\ exn_cls e = KeyError)
    /\ (forall k' x, k' <> k ->
          getitem self k' = Ok x <-> getitem self' k' = Ok x)
    /\ (d !! k = None -> self' = self).
Proof.
  intros Hd. unfold delitem. rewrite Hd. eexists. split; [done|].
  split_and!.
  - unfold getitem. simpl. rewrite lookup_delete_eq. by eexists.
  - intros k' x Hne. unfold getitem. rewrite Hd. simpl.
    rewrite lookup_delete_ne by done.
    destruct (d !! k'); split; intros [=]; by subst.
  - intros Hk. rewrite delete_id by done.
    destruct self. simpl in *. by subst.
Qed.

(** ** Values read out of names and links *)

Lemma no_slash_cons (c : Ascii.ascii) (s : string) :
  no_slash (String c s) -> Ascii.eqb c slash = false /\ no_slash s.
Proof.
  unfold no_slash. cbn [contains String.prefix].
  destruct (Ascii.ascii_dec _ c) as [<-|Hne].
  - by destruct s.
  - simpl. intros Hs. split; [|done].
    apply Ascii.eqb_neq. intros ->. by apply Hne.
Qed.

Lemma after_first_slash_app (pre post : string) :
  no_slash pre -> after_first_slash (pre +:+ "/" +:+ post) = Some post.
Proof.
  induction pre as [|c pre IH]; intros Hns; [done|].
  apply no_slash_cons in Hns as [Hc Hns].
  change (String c pre +:+ "/" +:+ post)
    with (String c (pre +:+ "/" +:+ post)).
  cbn [after_first_slash]. rewrite Hc. by apply IH.
Qed.

Lemma after_first_slash_none (s : string) :
  no_slash s -> after_first_slash s = None.
Proof.
  induction s as [|c s IH]; intros Hns; [done|].
  apply no_slash_cons in Hns as [Hc Hns].
  cbn [after_first_slash]. rewrite Hc. by apply IH.
Qed.

Lemma split_last_from_no_slash (cur s : string) :
  no_slash s -> split_last_from cur s = cur.
Proof.
  induction s as [|c s IH]; intros Hns; [done|].
  apply no_slash_cons in Hns as [Hc Hns].
  cbn [split_last_from]. rewrite Hc. by apply IH.
Qed.

Lemma split_last_from_app (cur pre post : string) :
  no_slash post -> split_last_from cur (pre +:+ "/" +:+ post) = post.
Proof.
  intros Hns. revert cur. induction pre as [|c pre IH]; intros cur.
  - change ("" +:+ "/" +:+ post) with (String slash post).
    cbn [split_last_from].
    assert (Ascii.eqb slash slash = true) as -> by done.
    by apply split_last_from_no_slash.
  - change (String c pre +:+ "/" +:+ post)
      with (String c (pre +:+ "/" +:+ post)).
    cbn [split_last_from]. destruct (Ascii.eqb c slash); apply IH.
Qed.

Lemma key_after_first_slash (self : Resource) :
  cls self = ResourceManagerOrganization \/ cls self = ResourceManagerFolder
  \/ cls self = BillingAccount ->
  key self
  = (name ← getitem self "name";
     s ← str_receiver "split" name;
     Ok (VStr (split1_last s))).
Proof.
  destruct self as [c d ro st v k w f e a]. simpl.
  intros [->|[->| ->]]; reflexivity.
Qed.

Lemma key_after_last_slash (self : Resource) :
  cls self = ResourceManagerLien ->
  key self
  = (name ← getitem self "name";
     s ← str_receiver "split" name;
     Ok (VStr (split_last s))).
Proof.
  destruct self as [c d ro st v k w f e a]. simpl. intros ->. reflexivity.
Qed.

(** The key of an organization, a folder or a billing account is what
    follows the first slash of its name, further slashes included; the
    key of a lien is what follows the last slash of its name; and a
    name without a slash is the key as it stands. *)
Theorem keys_read_from_names (self : Resource) (n : string) :
  getitem self "name" = Ok (VStr n) ->
  (cls self = ResourceManagerOrganization \/ cls self = ResourceManagerFolder
   \/ cls self = BillingAccount ->
   (forall pre post,
      n = pre +:+ "/" +:+ post -> no_slash pre -> key self = Ok (VStr post))
   /\ (no_slash n -> key self = Ok (VStr n)))
  /\ (cls self = ResourceManagerLien ->
      (forall pre post,
         n = pre +:+ "/" +:+ post -> no_slash post -> key self = Ok (VStr post))
      /\ (no_slash n -> key self = Ok (VStr n))).
Proof.
  intros Hn. split; intros Hc.
  - rewrite (key_after_first_slash self Hc), Hn. simpl. unfold split1_last.
    split.
    + intros pre post -> Hns. by rewrite after_first_slash_app.
    + intros Hns. by rewrite after_first_slash_none.
  - rewrite (key_after_last_slash self Hc), Hn. simpl. unfold split_last.
    split.
    + intros pre post -> Hns. by rewrite split_last_from_app.
    + intros Hns. by rewrite split_last_from_no_slash.
Qed.

(** [size_t_hash] of a string is a decimal numeral without a sign that
    reads back as a number below [2 ^ 64]; on anything but a string it
    raises [AttributeError]. *)
Theorem size_t_hash_is_uint64 (key : value) :
  match key with
  | VStr s =>
      exists (h : string) (n : Z),
        size_t_hash key = Ok h
        /\ (Z.of_int <$> NilZero.int_of_string h) = Some n
        /\ (0 <= n < 2 ^ 64)%Z
  | _ => exists e, size_t_hash key = Raise e /\ exn_cls e = AttributeError
  end.
Proof.
  destruct key as [| | |s| |]; try (by eexists).
  unfold size_t_hash, fmt_size_t. simpl.
  set (n := (Z.of_N (HexString.Raw.to_N (blake2b_hexdigest s) 0) mod 2 ^ 64)%Z).
  exists (NilZero.string_of_int (Z.to_int n)), n. split; [done|].
  split; [|by apply Z.mod_pos_bound].
  rewrite NilZero.isi.
  - simpl. by rewrite DecimalZ.of_to.
  - destruct n; simpl; [done| |done]. intros [= Hp].
    by apply DecimalPos.Unsigned.to_uint_nonnil in Hp.
  - destruct n; simpl; [done|done|]. intros [= Hp].
    by apply DecimalPos.Unsigned.to_uint_nonnil in Hp.
Qed.

Lemma split_slash_no_slash (p : string) :
  no_slash p -> split_slash p = [p].
Proof.
  induction p as [|c p IH]; intros Hns; [done|].
  apply no_slash_cons in Hns as [Hc Hns].
  cbn [split_slash]. rewrite Hc, IH; done.
Qed.

Lemma split_slash_app (p s : string) :
  no_slash p -> split_slash (p +:+ "/" +:+ s) = p :: split_slash s.
Proof.
  induction p as [|c p IH]; intros Hns.
  - change ("" +:+ "/" +:+ s) with (String slash s). cbn [split_slash].
    by assert (Ascii.eqb slash slash = true) as -> by done.
  - apply no_slash_cons in Hns as [Hc Hns].
    change (String c p +:+ "/" +:+ s) with (String c (p +:+ "/" +:+ s)).
    cbn [split_slash]. rewrite Hc, IH; done.
Qed.

(** Splitting at the slashes what joining with slashes produced gives
    the parts back. *)
Lemma split_slash_concat (parts : list string) :
  parts <> [] -> Forall no_slash parts ->
  split_slash (String.concat "/" parts) = parts.
Proof.
  induction parts as [|p parts IH]; [done|]. intros _ Hall.
  apply Forall_cons in Hall as [Hp Hall].
  destruct parts as [|q parts]; [by apply split_slash_no_slash|].
  change (String.concat "/" (p :: q :: parts))
    with (p +:+ "/" +:+ String.concat "/" (q :: parts)).
  rewrite split_slash_app by done. by rewrite IH.
Qed.

Lemma index_of_middle (x : string) (pre post : list string) :
  x ∉ pre -> index_of x (pre ++ x :: post) = Ok (length pre).
Proof.
  induction pre as [|p pre IH]; intros Hnin.
  - simpl. by rewrite String.eqb_refl.
  - apply not_elem_of_cons in Hnin as [Hne Hnin]. simpl.
    destruct (String.eqb p x) eqn:E; [by apply String.eqb_eq in E|].
    by rewrite IH.
Qed.

Lemma index_of_missing (x : string) (l : list string) :
  x ∉ l -> exists e, index_of x l = Raise e /\ exn_cls e = ValueError.
Proof.
  induction l as [|p l IH]; intros Hnin; [by eexists|].
  apply not_elem_of_cons in Hnin as [Hne Hnin]. simpl.
  destruct (String.eqb p x) eqn:E; [by apply String.eqb_eq in E|].
  destruct (IH Hnin) as (e & -> & He). by exists e.
Qed.

Lemma self_link_part_parts (self : Resource) (marker : string)
    (parts : list string) :
  parts <> [] -> Forall no_slash parts ->
  getitem self "selfLink" = Ok (VStr (String.concat "/" parts)) ->
  KubernetesCluster.self_link_part self marker
  = match index_of marker parts with
    | Ok i =>
        match parts !! (i + 1) with
        | Some part => Ok (VStr part)
        | None => Raise (mkExn IndexError "list index out of range")
        end
    | Raise e =>
        if existsb (isinstance e) [KeyError; ValueError] then Ok VNone
        else Raise e
    end.
Proof.
  intros Hne Hall Hlink. unfold KubernetesCluster.self_link_part.
  rewrite Hlink. simpl. rewrite split_slash_concat by done.
  destruct (index_of marker parts) as [i|e]; simpl; [|done].
  by destruct (parts !! (i + 1)).
Qed.

Lemma self_link_part_found (self : Resource) (marker x : string)
    (pre post : list string) :
  Forall no_slash (pre ++ marker :: x :: post) ->
  marker ∉ pre ->
  getitem self "selfLink"
  = Ok (VStr (String.concat "/" (pre ++ marker :: x :: post))) ->
  KubernetesCluster.self_link_part self marker = Ok (VStr x).
Proof.
  intros Hall Hnin Hlink.
  assert (pre ++ marker :: x :: post <> []) as Hne by (by destruct pre).
  rewrite (self_link_part_parts self marker _ Hne Hall Hlink).
  rewrite index_of_middle by done.
  rewrite lookup_app_r by lia.
  by replace (length pre + 1 - length pre) with 1 by lia.
Qed.

Lemma self_link_part_absent (self : Resource) (marker : string)
    (parts : list string) :
  parts <> [] -> Forall no_slash parts ->
  marker ∉ parts ->
  getitem self "selfLink" = Ok (VStr (String.concat "/" parts)) ->
  KubernetesCluster.self_link_part self marker = Ok VNone.
Proof.
  intros Hne Hall Hnin Hlink.
  rewrite (self_link_part_parts self marker _ Hne Hall Hlink).
  destruct (index_of_missing marker parts Hnin) as (e & -> & He).
  unfold isinstance. simpl. rewrite He. done.
Qed.

(** [zone()] and [location()] on a cluster whose [selfLink] is made of
    parts joined by slashes: each returns the part that follows the
    first part equal to ["zones"], respectively ["locations"], and
    [None] when the link has no such part. *)
Theorem cluster_zone_and_location (self : Resource) (parts : list string) :
  parts <> [] -> Forall no_slash parts ->
  getitem self "selfLink" = Ok (VStr (String.concat "/" parts)) ->
  (forall pre z post,
     parts = pre ++ "zones" :: z :: post -> "zones" ∉ pre ->
     KubernetesCluster.zone self = Ok (VStr z))
  /\ (forall pre l post,
        parts = pre ++ "locations" :: l :: post -> "locations" ∉ pre ->
        KubernetesCluster.location self = Ok (VStr l))
  /\ ("zones" ∉ parts -> KubernetesCluster.zone self = Ok VNone)
  /\ ("locations" ∉ parts -> KubernetesCluster.location self = Ok VNone).
Proof.
  intros Hne Hall Hlink. split_and!.
  - intros pre z post -> Hnin. by apply self_link_part_found with pre post.
  - intros pre l post -> Hnin. by apply self_link_part_found with pre post.
  - intros Hnin. by apply self_link_part_absent with parts.
  - intros Hnin. by apply self_link_part_absent with parts.
Qed.

(** The edges of [zone()] and [location()]. On a cluster whose data has
    no [selfLink] both return [None]. On a link that ends with the part
    ["zones"] the index after it is out of range: [zone()] raises
    [IndexError], which its handler for [KeyError] and [ValueError]
    lets through. *)
Theorem cluster_link_edges (self : Resource) :
  (forall d, _data self = VDict d -> d !! "selfLink" = None ->
     KubernetesCluster.zone self = Ok VNone
     /\ KubernetesCluster.location self = Ok VNone)
  /\ (forall pre,
        Forall no_slash pre -> "zones" ∉ pre ->
        getitem self "selfLink"
        = Ok (VStr (String.concat "/" (pre ++ ["zones"]))) ->
        KubernetesCluster.zone self
        = Raise (mkExn IndexError "list index out of range")).
Proof.
  split.
  - intros d Hd Hk.
    unfold KubernetesCluster.zone, KubernetesCluster.location,
      KubernetesCluster.self_link_part, getitem.
    rewrite Hd, Hk. done.
  - intros pre Hall Hnin Hlink. unfold KubernetesCluster.zone.
    rewrite (self_link_part_parts self "zones" (pre ++ ["zones"])).
    + rewrite index_of_middle by done.
      rewrite lookup_ge_None_2; [done|]. rewrite length_app. simpl. lia.
    + by destruct pre.
    + apply Forall_app. split; [done|]. by constructor.
    + done.
Qed.

(** ** What the side-band fetches cost *)

Lemma frugal_mono {A} (n n' w w' : nat) (m : M A) :
  frugal n w m -> n <= n' -> w <= w' -> frugal n' w' m.
Proof.
  intros Hm Hn Hw st. destruct (Hm st) as (new & ws & ? & ? & ? & ? & ?).
  exists new, ws. split_and!; [done|lia|done|lia|done].
Qed.

Lemma frugal_pure {A} (m : M A) :
  (forall st, snd (m st) = st) -> frugal 0 0 m.
Proof.
  intros Hm st. exists [], []. rewrite Hm, !app_nil_r.
  split_and!; [done|done|done|done|apply same_object_refl].
Qed.

Lemma frugal_ret {A} (a : A) : frugal 0 0 (mret a).
Proof. by apply frugal_pure. Qed.

Lemma frugal_lift {A} (r : result A) : frugal 0 0 (lift r).
Proof. by apply frugal_pure. Qed.

Lemma frugal_get_self : frugal 0 0 get_self.
Proof. by apply frugal_pure. Qed.

Lemma frugal_client_method (client : option Client) (method : string) :
  frugal 0 0 (client_method client method).
Proof. destruct client; by apply frugal_pure. Qed.

Lemma frugal_invoke (c : Client) (method : string) (args : list value) :
  frugal 1 0 (invoke c method args).
Proof.
  intros st. exists [mkCall method args], []. rewrite app_nil_r.
  split_and!; [done|done|done|done|apply same_object_refl].
Qed.

Lemma frugal_add_warning (msg : string) :
  frugal 0 1 (modify_self (fun s => add_warning s msg)).
Proof.
  intros st. exists [], [msg]. rewrite app_nil_r.
  split_and!; [done|done|done|done|apply add_warning_same_object].
Qed.

Lemma frugal_modify (f : Resource -> Resource) :
  (forall s, same_object s (f s) /\ _warning (f s) = _warning s) ->
  frugal 0 0 (modify_self f).
Proof.
  intros Hf st. exists [], []. rewrite !app_nil_r.
  destruct (Hf (fst st)) as [Hs Hw]. split_and!; done.
Qed.

Lemma frugal_bind {A B} (n1 n2 w1 w2 : nat) (m : M A) (k : A -> M B) :
  frugal n1 w1 m -> (forall a, frugal n2 w2 (k a)) ->
  frugal (n1 + n2) (w1 + w2) (m ≫= k).
Proof.
  intros Hm Hk st. unfold mbind, M_bind.
  destruct (Hm st) as (new & ws & Hl & Hn & Hw & Hws & Hs).
  destruct (m st) as [[a|e] st'] eqn:E; simpl in *.
  - destruct (Hk a st') as (new' & ws' & Hl' & Hn' & Hw' & Hws' & Hs').
    exists (new ++ new'), (ws ++ ws').
    rewrite Hl', Hl, Hw', Hw, !length_app, !app_assoc.
    split_and!; [done|lia|done|lia|by eapply same_object_trans].
  - exists new, ws. split_and!; [done|lia|done|lia|done].
Qed.

Lemma frugal_try {A} (n1 n2 w1 w2 : nat) (m : M A) (classes : list exn_class)
    (h : exn -> M A) :
  frugal n1 w1 m -> (forall e, frugal n2 w2 (h e)) ->
  frugal (n1 + n2) (w1 + w2) (try_except m classes h).
Proof.
  intros Hm Hh st. unfold try_except.
  destruct (Hm st) as (new & ws & Hl & Hn & Hw & Hws & Hs).
  destruct (m st) as [[a|e] st'] eqn:E; simpl in *.
  - exists new, ws. split_and!; [done|lia|done|lia|done].
  - destruct (existsb (isinstance e) classes).
    + destruct (Hh e st') as (new' & ws' & Hl' & Hn' & Hw' & Hws' & Hs').
      exists (new ++ new'), (ws ++ ws').
      rewrite Hl', Hl, Hw', Hw, !length_app, !app_assoc.
      split_and!; [done|lia|done|lia|by eapply same_object_trans].
    + exists new, ws. split_and!; [done|lia|done|lia|done].
Qed.

Lemma frugal_if {A} (n1 n2 w1 w2 : nat) (b : bool) (m1 m2 : M A) :
  frugal n1 w1 m1 -> frugal n2 w2 m2 ->
  frugal (n1 `max` n2) (w1 `max` w2) (if b then m1 else m2).
Proof.
  intros H1 H2. destruct b; (eapply frugal_mono; [done|lia|lia]).
Qed.

Lemma frugal_cached (n w : nat) (name : string)
    (f : option Client -> M value) (client : option Client) :
  frugal n w (f client) -> frugal n w (cached name f client).
Proof.
  intros Hf st. unfold cached.
  destruct (attrs (fst st) !! _).
  - exists [], []. rewrite !app_nil_r.
    split_and!; [done|simpl; lia|done|simpl; lia|apply same_object_refl].
  - destruct (Hf st) as (new & ws & Hl & Hn & Hw & Hws & Hs).
    destruct (f client st) as [[v|e] [self log]]; simpl in *.
    + exists new, ws. split_and!; try done.
    + exists new, ws. split_and!; done.
Qed.

(** Without a client nothing is sent and nothing caught: looking the
    method up on [None] raises [AttributeError]. *)
Lemma frugal_without_client {A} (method : string) (k : Client -> M A)
    (h : exn -> M A) :
  frugal 0 0 (try_except (client_method None method ≫= k) api_errors h).
Proof. by apply frugal_pure. Qed.

Ltac frugal_step :=
  cbn beta;
  lazymatch goal with
  | |- frugal _ _ (cached _ _ _) => apply frugal_cached
  | |- frugal _ _ (try_except (mbind _ (client_method None _)) _ _) =>
      apply frugal_without_client
  | |- frugal _ _ (try_except _ _ _) => eapply frugal_try; [|intros ?]
  | |- frugal _ _ (mbind _ _) => eapply frugal_bind; [|intros ?]
  | |- frugal _ _ (mret _) => apply frugal_ret
  | |- frugal _ _ (lift _) => apply frugal_lift
  | |- frugal _ _ get_self => apply frugal_get_self
  | |- frugal _ _ (client_method _ _) => apply frugal_client_method
  | |- frugal _ _ (invoke _ _ _) => apply frugal_invoke
  | |- frugal _ _ (modify_self (fun s => add_warning s _)) =>
      apply frugal_add_warning
  | |- frugal _ _ (modify_self _) =>
      apply frugal_modify; intros ?; repeat case_match;
      (split; [by repeat split|done])
  | |- frugal _ _ (if _ then _ else _) => eapply frugal_if
  | |- frugal _ _ (match ?p with (_, _) => _ end) => destruct p
  end.

Ltac frugal_solve :=
  eapply frugal_mono; [repeat frugal_step|simpl; lia|simpl; lia].

(** Each side-band fetch of an organization, a folder, a project or a
    dataset, and each template of [Resource], sends at most one request
    and adds at most one warning in one call, whatever the client
    answers and whether the call returns or raises; and it leaves the
    class, the data, the root flag, the stack and the iterators of the
    resource as they are. *)
Theorem side_band_fetches_are_frugal :
  Forall (fun get : option Client -> M value =>
            forall client, frugal 1 1 (get client))
    [OrganizationPolicies.get_iam_policy;
     OrganizationPolicies.get_org_policy;
     OrganizationPolicies.get_access_policy;
     FolderPolicies.get_iam_policy;
     FolderPolicies.get_org_policy;
     ProjectPolicies.get_iam_policy;
     ProjectPolicies.get_org_policy;
     Project.get_billing_info;
     Project.get_enabled_apis;
     DataSet.get_iam_policy;
     DataSet.get_dataset_policy;
     Base.get_iam_policy;
     Base.get_dataset_policy;
     Base.get_billing_info;
     Base.get_enabled_apis].
Proof.
  repeat (apply Forall_cons_2;
          [intros client;
           unfold OrganizationPolicies.get_iam_policy,
             OrganizationPolicies.get_org_policy,
             OrganizationPolicies.get_access_policy,
             FolderPolicies.get_iam_policy, FolderPolicies.get_org_policy,
             ProjectPolicies.get_iam_policy, ProjectPolicies.get_org_policy,
             Project.get_billing_info,
             Project.get_enabled_apis, DataSet.get_iam_policy,
             DataSet.get_dataset_policy, DataSet.warn, DataSet._set_cache,
             Base.get_iam_policy, Base.get_dataset_policy,
             Base.get_billing_info, Base.get_enabled_apis;
           frugal_solve|]).
  apply Forall_nil_2.
Qed.

(** The predicates of a project send no request and add no warning,
    also those that consult the billing info: they call
    [get_billing_info] without a client. *)
Theorem project_predicates_send_no_request :
  Forall (frugal 0 0)
    [Project.billing_enabled;
     ProjectPolicies.bigquery_api_enabled;
     ProjectPolicies.compute_api_enabled;
     ProjectPolicies.container_api_enabled;
     ProjectPolicies.storage_api_enabled].
Proof.
  repeat (apply Forall_cons_2;
          [unfold ProjectPolicies.bigquery_api_enabled,
             ProjectPolicies.compute_api_enabled,
             ProjectPolicies.container_api_enabled,
             ProjectPolicies.storage_api_enabled,
             ProjectPolicies.billing_and_api_enabled,
             Project.billing_enabled, Project.get_billing_info;
           frugal_solve|]).
  apply Forall_nil_2.
Qed.

Ltac run_M :=
  unfold try_except, client_method, invoke, modify_self, get_self, lift;
  unfold mbind, M_bind, mret, M_ret;
  cbn [fst snd].

(** A fetch of the IAM policy of an organization or a folder that
    fails with an API error is reported once: the call returns [None],
    having sent one request and added one warning, which names the key
    of the resource and the error; a later call, with whatever client,
    returns [None] again without sending a request or adding a
    warning. *)
Theorem iam_policy_failure_reported_once (get : option Client -> M value)
    (method label name : string) (client : Client) (client' : option Client)
    (self : Resource) (log : list api_call) (e : exn) :
  (cls self = ResourceManagerOrganization
   /\ get = OrganizationPolicies.get_iam_policy
   /\ method = "fetch_crm_organization_iam_policy" /\ label = "organization")
  \/ (cls self = ResourceManagerFolder
      /\ get = FolderPolicies.get_iam_policy
      /\ method = "fetch_crm_folder_iam_policy" /\ label = "folder") ->
  attrs self !! "__cached_iam_policy" = None ->
  getitem self "name" = Ok (VStr name) ->
  respond client log (mkCall method [VStr name]) = Raise e ->
  existsb (isinstance e) api_errors = true ->
  exists self',
    get (Some client) (self, log)
    = (Ok VNone, (self', log ++ [mkCall method [VStr name]]))
    /\ _warning self'
       = _warning self
         ++ ["Could not get IAM policy for " +:+ label +:+ " "
             +:+ split1_last name +:+ ": " +:+ exn_str e]
    /\ get client' (self', log ++ [mkCall method [VStr name]])
       = (Ok VNone, (self', log ++ [mkCall method [VStr name]])).
Proof.
  intros Hkind Hc Hn Hr He.
  assert (key self = Ok (VStr (split1_last name))) as Hk.
  { rewrite key_after_first_slash, Hn; [done|].
    destruct Hkind as [(-> & _)|(-> & _)]; eauto. }
  set (msg := "Could not get IAM policy for " +:+ label +:+ " "
              +:+ split1_last name +:+ ": " +:+ exn_str e).
  assert (get (Some client) (self, log)
          = (Ok VNone,
             (set_attrs (add_warning self msg)
                (<[ "__cached_iam_policy" := VNone ]> (attrs self)),
              log ++ [mkCall method [VStr name]]))
          /\ exists f, get = cached "iam_policy" f)
    as (Hget & f & Hf).
  { subst msg. destruct Hkind as [(_ & -> & -> & ->)|(_ & -> & -> & ->)].
    - split; [|by eexists]. unfold OrganizationPolicies.get_iam_policy.
      rewrite cached_miss by done. run_M. rewrite Hn. cbn [fst snd].
      rewrite Hr, He. cbn [fst snd]. rewrite Hk. reflexivity.
    - split; [|by eexists]. unfold FolderPolicies.get_iam_policy.
      rewrite cached_miss by done. run_M. rewrite Hn. cbn [fst snd].
      rewrite Hr, He. cbn [fst snd]. rewrite Hk. reflexivity. }
  eexists. split_and!; [exact Hget|done|].
  rewrite Hf in Hget |- *. by eapply cached_again.
Qed.

(** The fetches of a project that is not active send no request and
    add no warning: [get_iam_policy] and [get_billing_info] return the
    empty dict and [get_enabled_apis] the empty list, each memoised;
    after [get_enabled_apis] every API counts as enabled. *)
Theorem inactive_project_is_not_fetched (client : option Client)
    (self : Resource) (log : list api_call) :
  Project.enumerable self = Ok false ->
  (attrs self !! "__cached_iam_policy" = None ->
   ProjectPolicies.get_iam_policy client (self, log)
   = (Ok (VDict ∅),
      (set_attrs self (<[ "__cached_iam_policy" := VDict ∅ ]> (attrs self)),
       log)))
  /\ (attrs self !! "__cached_billing_info" = None ->
      Project.get_billing_info client (self, log)
      = (Ok (VDict ∅),
         (set_attrs self (<[ "__cached_billing_info" := VDict ∅ ]> (attrs self)),
          log)))
  /\ (attrs self !! "__cached_enabled_apis" = None ->
      exists self',
        Project.get_enabled_apis client (self, log)
        = (Ok (VList []), (self', log))
        /\ _warning self' = _warning self
        /\ forall service_name, Project.is_api_enabled self' service_name = true).
Proof.
  intros He. split_and!; intros Hc.
  - unfold ProjectPolicies.get_iam_policy. rewrite cached_miss by done.
    run_M. rewrite He. reflexivity.
  - unfold Project.get_billing_info. rewrite cached_miss by done.
    run_M. rewrite He. reflexivity.
  - eexists. unfold Project.get_enabled_apis. rewrite cached_miss by done.
    run_M. rewrite He. cbn [fst snd]. split; [reflexivity|]. done.
Qed.

(** On the placeholder that a failed fetch of a project leaves, which
    holds only [name], the fetches that ask [enumerable()] first raise
    [KeyError] for the missing [lifecycleState]; they send no request
    and memoise nothing. *)
Theorem placeholder_project_fetches_raise (source : Client)
    (client : option Client) (resource_key err_msg : string) (root : bool)
    (log : list api_call) :
  exists e,
    exn_cls e = KeyError
    /\ Project.enumerable
         (fake_resource source ResourceManagerProject resource_key err_msg root)
       = Raise e
    /\ Forall (fun get : option Client -> M value =>
                 get client
                   (fake_resource source ResourceManagerProject resource_key
                      err_msg root, log)
                 = (Raise e,
                    (fake_resource source ResourceManagerProject resource_key
                       err_msg root, log)))
         [ProjectPolicies.get_iam_policy; Project.get_billing_info;
          Project.get_enabled_apis].
Proof.
  eexists. split; [|split; [reflexivity|]]; [done|].
  repeat (apply Forall_cons_2; [reflexivity|]). apply Forall_nil_2.
Qed.

(** The APIs that depend on billing. With the billing info memoised:
    when it is falsy, the answer of [bigquery_api_enabled],
    [compute_api_enabled] and [container_api_enabled] is that of
    [is_api_enabled]; when it says [billingEnabled: b], the answer is
    [b and is_api_enabled(...)]. With no billing info memoised on an
    active project the three raise [AttributeError], for want of a
    client. [storage_api_enabled] does not look at billing. *)
Theorem billing_gates_apis (self : Resource) (log : list api_call) :
  Forall (fun '(enabled, service_name) =>
            (forall info,
               attrs self !! "__cached_billing_info" = Some info ->
               truthy info = false ->
               enabled (self, log)
               = (Ok (VBool (Project.is_api_enabled self service_name)),
                  (self, log)))
            /\ (forall d b,
                  attrs self !! "__cached_billing_info" = Some (VDict d) ->
                  d !! "billingEnabled" = Some (VBool b) ->
                  enabled (self, log)
                  = (Ok (VBool (b && Project.is_api_enabled self service_name)),
                     (self, log)))
            /\ (attrs self !! "__cached_billing_info" = None ->
                Project.enumerable self = Ok true ->
                enabled (self, log)
                = (Raise (no_attribute "fetch_billing_project_info"),
                   (self, log))))
    [(ProjectPolicies.bigquery_api_enabled, "bigquery-json.googleapis.com");
     (ProjectPolicies.compute_api_enabled, "compute.googleapis.com");
     (ProjectPolicies.container_api_enabled, "container.googleapis.com")]
  /\ ProjectPolicies.storage_api_enabled (self, log)
     = (Ok (VBool (Project.is_api_enabled self
                     "storage-component.googleapis.com")),
        (self, log)).
Proof.
  assert (forall service_name,
    (forall info,
       attrs self !! "__cached_billing_info" = Some info ->
       truthy info = false ->
       ProjectPolicies.billing_and_api_enabled service_name (self, log)
       = (Ok (VBool (Project.is_api_enabled self service_name)), (self, log)))
    /\ (forall d b,
          attrs self !! "__cached_billing_info" = Some (VDict d) ->
          d !! "billingEnabled" = Some (VBool b) ->
          ProjectPolicies.billing_and_api_enabled service_name (self, log)
          = (Ok (VBool (b && Project.is_api_enabled self service_name)),
             (self, log)))
    /\ (attrs self !! "__cached_billing_info" = None ->
        Project.enumerable self = Ok true ->
        ProjectPolicies.billing_and_api_enabled service_name (self, log)
        = (Raise (no_attribute "fetch_billing_project_info"), (self, log))))
    as Hall.
  { intros service_name. split_and!.
    - intros info Hc Ht. unfold ProjectPolicies.billing_and_api_enabled.
      unfold mbind at 1. unfold M_bind at 1.
      rewrite (billing_enabled_unknown self log info Hc Ht). reflexivity.
    - intros d b Hc Hb. unfold ProjectPolicies.billing_and_api_enabled.
      unfold mbind at 1. unfold M_bind at 1.
      rewrite (billing_enabled_known self log (VDict d) Hc).
      + unfold dict_get. rewrite Hb. simpl. by destruct b.
      + simpl. destruct (decide (size d = 0)) as [Hs|Hs].
        * apply map_size_empty_iff in Hs. subst d.
          by rewrite lookup_empty in Hb.
        * by destruct (size d).
    - intros Hc He. unfold ProjectPolicies.billing_and_api_enabled.
      unfold mbind at 1. unfold M_bind at 1.
      destruct (billing_enabled_uncached self log Hc) as [_ Hraise].
      by rewrite (Hraise He). }
  split; [|reflexivity].
  repeat (apply Forall_cons_2; [apply Hall|]). apply Forall_nil_2.
Qed.

(** ** The iterators of the factory *)

Lemma getitem_raises (self : Resource) (k : string) (e : exn) :
  getitem self k = Raise e -> exn_cls e = KeyError \/ exn_cls e = TypeError.
Proof.
  unfold getitem, subscript.
  destruct (_data self) as [| | | | |d]; try (intros [= <-]; by right).
  destruct (d !! k); [done|]. intros [= <-]. by left.
Qed.

Lemma ignore_not_supported_none (ending : option exn) :
  ResourceIterator.ignore_not_supported ending = None
  <-> ending = None
      \/ exists e, ending = Some e /\ exn_cls e = ResourceNotSupported.
Proof.
  unfold ResourceIterator.ignore_not_supported, isinstance.
  destruct ending as [e|]; [|by split; eauto].
  destruct e as [c s]. simpl.
  destruct c; simpl; split; try done; eauto;
    intros [?|(e' & [= <-] & Hc)]; done.
Qed.

(** An iterator of the factory without a validation method, whose
    arguments can be read from the resource: it sends one request and
    yields one resource for each pair that the API lists, in that
    order, built from the data of the pair, of the class of the
    factory, not a root, unbound and without warning. It ends normally
    when the listing ends normally or with [ResourceNotSupported], and
    with the exception of the listing otherwise; what was yielded
    before the exception stays yielded. *)
Theorem iterator_yields_what_the_api_lists (it : ResourceIterator.iter_class)
    (client : Client) (gcp : ClientIterators) (self : Resource)
    (log : list api_call) (args : list value) (items : list (value * value))
    (ending : option exn) :
  ResourceIterator.resource_validation_method_name it = None ->
  ResourceIterator.iter_args it self = Ok args ->
  iter_respond gcp log (mkCall (ResourceIterator.api_method_name it) args)
  = (items, ending) ->
  exists children ending',
    ResourceIterator.iter it client gcp (self, log)
    = ((children, ending'),
       (self, log ++ [mkCall (ResourceIterator.api_method_name it) args]))
    /\ Forall2 (fun item child =>
                  cls child = ResourceIterator.resource_cls it
                  /\ _data child = fst item /\ _root child = false
                  /\ _stack child = None /\ _warning child = [])
         items children
    /\ (ending' = None
        <-> ending = None
            \/ exists e, ending = Some e /\ exn_cls e = ResourceNotSupported)
    /\ (ending' <> None -> ending' = ending).
Proof.
  intros Hv Ha Hr. unfold ResourceIterator.iter. rewrite Hv.
  unfold mret, M_ret. simpl. rewrite Ha, Hr.
  eexists _, _. split; [reflexivity|]. split_and!.
  - clear Hr. induction items as [|item items IH]; constructor; [done|].
    apply IH.
  - apply ignore_not_supported_none.
  - unfold ResourceIterator.ignore_not_supported.
    destruct ending as [e|]; [|done]. by destruct (isinstance _ _).
Qed.

(** When an iterator of the factory sends no request. An iterator
    validated by [enumerable] on a project that is not active, and an
    iterator of a compute resource on a project whose memoised billing
    info says that billing is disabled, yield nothing and end normally.
    An iterator whose argument key is missing from the data ends with
    the exception of the lookup. An iterator of a compute resource on
    an active project without memoised billing info ends with
    [AttributeError]. *)
Theorem iterator_sends_no_request (it : ResourceIterator.iter_class)
    (client : Client) (gcp : ClientIterators) (self : Resource)
    (log : list api_call) :
  (cls self = ResourceManagerProject ->
   ResourceIterator.resource_validation_method_name it
   = Some ResourceIterator.enumerable ->
   Project.enumerable self = Ok false ->
   ResourceIterator.iter it client gcp (self, log) = (([], None), (self, log)))
  /\ (forall d,
        cls self = ResourceManagerProject ->
        ResourceIterator.resource_validation_method_name it
        = Some ResourceIterator.compute_api_enabled ->
        attrs self !! "__cached_billing_info" = Some (VDict d) ->
        d !! "billingEnabled" = Some (VBool false) ->
        ResourceIterator.iter it client gcp (self, log)
        = (([], None), (self, log)))
  /\ (forall k e,
        ResourceIterator.resource_validation_method_name it = None ->
        ResourceIterator.api_method_arg_key it = Some k -> k <> "" ->
        getitem self k = Raise e ->
        ResourceIterator.iter it client gcp (self, log)
        = (([], Some e), (self, log)))
  /\ (cls self = ResourceManagerProject ->
      ResourceIterator.resource_validation_method_name it
      = Some ResourceIterator.compute_api_enabled ->
      attrs self !! "__cached_billing_info" = None ->
      Project.enumerable self = Ok true ->
      ResourceIterator.iter it client gcp (self, log)
      = (([], Some (no_attribute "fetch_billing_project_info")), (self, log))).
Proof.
  split_and!.
  - intros Hc Hv He. unfold ResourceIterator.iter. rewrite Hv.
    unfold ResourceIterator.resource_validation_check. run_M.
    rewrite Hc, He. reflexivity.
  - intros d Hc Hv Hi Hb. unfold ResourceIterator.iter. rewrite Hv.
    unfold ResourceIterator.resource_validation_check.
    unfold mbind at 1. unfold M_bind at 1. unfold get_self at 1.
    cbn [fst snd]. rewrite Hc.
    unfold ProjectPolicies.compute_api_enabled,
      ProjectPolicies.billing_and_api_enabled.
    unfold mbind at 1. unfold M_bind at 1.
    rewrite (billing_enabled_known self log (VDict d) Hi).
    + unfold dict_get. rewrite Hb. reflexivity.
    + simpl. destruct (decide (size d = 0)) as [Hs|Hs].
      * apply map_size_empty_iff in Hs. subst d.
        by rewrite lookup_empty in Hb.
      * by destruct (size d).
  - intros k e Hv Hk Hne Hg. unfold ResourceIterator.iter. rewrite Hv.
    unfold mret, M_ret. simpl.
    unfold ResourceIterator.iter_args. rewrite Hk.
    assert (truthy (VStr k) = true) as ->.
    { simpl. destruct (String.eqb k "") eqn:E; [|done].
      by apply String.eqb_eq in E. }
    rewrite Hg. simpl.
    unfold isinstance. simpl.
    destruct (getitem_raises _ _ _ Hg) as [->| ->]; reflexivity.
  - intros Hc Hv Hi He. unfold ResourceIterator.iter. rewrite Hv.
    unfold ResourceIterator.resource_validation_check.
    unfold mbind at 1. unfold M_bind at 1. unfold get_self at 1.
    cbn [fst snd]. rewrite Hc.
    unfold ProjectPolicies.compute_api_enabled,
      ProjectPolicies.billing_and_api_enabled.
    unfold mbind at 1. unfold M_bind at 1.
    destruct (billing_enabled_uncached self log Hi) as [_ Hraise].
    by rewrite (Hraise He).
Qed.

(** A type of resource that the API client does not support leaves no
    trace: when the listing raises [ResourceNotSupported] at once, the
    turn of the loop of [accept] over the iterator produces no event
    and no warning. *)
Theorem unsupported_resource_type_is_silent (it : ResourceIterator.iter_class)
    (client : Client) (gcp : ClientIterators) (visitor : Visitor)
    (self : Resource) (stack : list Resource) (log : list api_call)
    (args : list value) (e : exn) :
  ResourceIterator.resource_validation_method_name it = None ->
  ResourceIterator.iter_args it self = Ok args ->
  iter_respond gcp log (mkCall (ResourceIterator.api_method_name it) args)
  = ([], Some e) ->
  exn_cls e = ResourceNotSupported ->
  fst (ResourceIterator.iter it client gcp (self, log)) = ([], None)
  /\ drive_yielder (fun r s => accept visitor r (Some s)) self stack
       (fst (ResourceIterator.iter it client gcp (self, log)))
     = (self, [], None).
Proof.
  intros Hv Ha Hr He.
  assert (fst (ResourceIterator.iter it client gcp (self, log)) = ([], None))
    as ->.
  { unfold ResourceIterator.iter. rewrite Hv.
    unfold mret, M_ret. simpl. rewrite Ha, Hr. simpl.
    unfold isinstance. simpl. by rewrite He. }
  done.
Qed.

(** ** Further edges *)

(** [has_directory_resource_id()] on an organization whose data is a
    dict: [False] without an [owner], as on the placeholder of an
    organization that could not be fetched; with an [owner] that is a
    dict, whether the owner has a [directoryCustomerId]; and a
    [TypeError] when the [owner] is [None]. *)
Theorem directory_resource_id_lookup (self : Resource)
    (d : gmap string value) :
  _data self = VDict d ->
  match d !! "owner" with
  | None => OrganizationPolicies.has_directory_resource_id self = Ok false
  | Some (VDict owner) =>
      OrganizationPolicies.has_directory_resource_id self
      = Ok (bool_decide (is_Some (owner !! "directoryCustomerId")))
  | Some VNone =>
      exists e,
        OrganizationPolicies.has_directory_resource_id self = Raise e
        /\ exn_cls e = TypeError
  | Some _ => True
  end.
Proof.
  intros Hd. unfold OrganizationPolicies.has_directory_resource_id, getitem.
  rewrite Hd. simpl.
  destruct (d !! "owner") as [owner|] eqn:Ho.
  - rewrite bool_decide_eq_true_2 by (by eexists). simpl.
    destruct owner; try done. by eexists.
  - rewrite bool_decide_eq_false_2; [done|]. by intros [? ?].
Qed.

(** The listing of the enabled APIs of an active project fails open:
    when the request fails with an API error, [get_enabled_apis]
    returns the empty list, not [None], with one warning that names the
    project and the error, and every API counts as enabled
    afterwards. *)
Theorem enabled_apis_failure_enables_all (client : Client) (self : Resource)
    (log : list api_call) (number k : value) (e : exn) :
  attrs self !! "__cached_enabled_apis" = None ->
  Project.enumerable self = Ok true ->
  getitem self "projectNumber" = Ok number ->
  key self = Ok k ->
  respond client log (mkCall "fetch_services_enabled_apis" [number]) = Raise e ->
  existsb (isinstance e) api_errors = true ->
  exists self',
    Project.get_enabled_apis (Some client) (self, log)
    = (Ok (VList []),
       (self', log ++ [mkCall "fetch_services_enabled_apis" [number]]))
    /\ _warning self'
       = _warning self
         ++ ["Could not get Enabled APIs for project " +:+ str k
             +:+ ": " +:+ exn_str e]
    /\ forall service_name, Project.is_api_enabled self' service_name = true.
Proof.
  intros Hc Ha Hn Hk Hr He. eexists.
  unfold Project.get_enabled_apis. rewrite cached_miss by done.
  run_M. rewrite Ha. cbn [fst snd]. rewrite Hn. cbn [fst snd].
  rewrite Hr, He. cbn [fst snd]. rewrite Hk. cbn [fst snd].
  split; [reflexivity|]. done.
Qed.

Section children_in_order.

Context (accept_child : Resource -> list Resource -> run).

(** The resources that an iterator yields are handled in the order in
    which they are yielded, each one to its end before the next: the
    events of the loop over a sequence of resources are the events of
    its first part followed by those of the rest, and an exception that
    leaves the first part keeps the rest from being handled. *)
Theorem children_are_handled_in_order (self : Resource)
    (stack children1 children2 : list Resource) :
  drive_children accept_child self stack (children1 ++ children2)
  = match snd (drive_children accept_child self stack children1) with
    | Some e =>
        (fst (drive_children accept_child self stack children1), Some e)
    | None =>
        (fst (drive_children accept_child self stack children1)
         ++ fst (drive_children accept_child self stack children2),
         snd (drive_children accept_child self stack children2))
    end.
Proof.
  induction children1 as [|c children1 IH].
  - simpl. by destruct (drive_children accept_child self stack children2).
  - rewrite <- app_comm_cons, !drive_children_cons, IH.
    destruct (should_dispatch c).
    + cbn [fst snd].
      by destruct (snd (drive_children accept_child self stack children1)).
    + cbn zeta.
      destruct (run_exn (try_accept_handler _)); [done|]. cbn [fst snd].
      destruct (snd (drive_children accept_child self stack children1));
        [done|].
      cbn [fst snd]. by rewrite app_assoc.
Qed.

End children_in_order.

(** ** A visit that fails *)

(** What the handler of [try_accept] does with an exception, for a
    resource other than a curated role, a root or bound below a parent,
    whose lineage has keys and no stored name: it hands the exception
    to [on_child_error] under the full name, which it stores. *)
Lemma try_accept_handler_reports (bound self' : Resource) (tr : list event)
    (e : exn) (ss : list string) :
  same_object bound self' ->
  _full_resource_name self' = _full_resource_name bound ->
  cls bound <> IamCuratedRole ->
  _root bound = true \/ (exists st, _stack bound = Some st /\ st <> []) ->
  Forall nameable (lineage bound) ->
  segments (lineage bound) = Ok ss ->
  try_accept_handler (mkRun self' tr (Some e))
  = mkRun (set_full_resource_name self' (String.concat "/" ss))
      (tr ++ [EvOnChildError (String.concat "/" ss) (inl e)]) None.
Proof.
  intros Hs Hn Hc Hp Hall Hss. unfold try_accept_handler.
  cbn [run_exn run_self run_trace].
  destruct (repr_of_lineage bound ss Hc Hp Hss) as [s Hrepr].
  rewrite <- (same_object_repr_str _ _ Hs), Hrepr.
  rewrite (get_full_resource_name_lineage self') with (ss := ss); [done| |].
  - rewrite lineage_unfold, <- (same_object_above _ _ Hs).
    rewrite lineage_unfold in Hall. apply Forall_app in Hall as [Ha Hb].
    apply Forall_app. split; [done|]. apply Forall_inv in Hb.
    constructor; [|constructor]. destruct Hb as [Hb1 Hb2].
    destruct Hs as (Hcl & _ & Hro & Hst & _).
    split; [by rewrite <- Hcl, <- Hro, <- Hst|]. by rewrite Hn.
  - by rewrite <- (same_object_segments _ _ Hs).
Qed.

(** C3 (as amended). When [visitor.visit(self)] raises, the exception
    leaves [accept] at once: the trace of the call is the one visit, no
    child iterator is started and no child is accepted or dispatched.
    When [try_accept] wraps the call, for a resource other than a
    curated role that is a root or is bound below a parent, and whose
    lineage has keys and no stored name, the exception is handed to
    [on_child_error] under the full name of the resource and
    [try_accept] returns; for a curated role, whose [repr] cannot be
    formed, [try_accept] raises [AttributeError] and [on_child_error]
    is not called. In both cases the visit is the only visit. *)
Theorem visit_failure_ends_accept (visitor : Visitor) (self : Resource)
    (stack : option (list Resource)) (reprs : gset string) (e : exn) :
  let visited := set_visitor (set_stack self (default [] stack)) in
  cur_resource_repr (set_stack self (default [] stack)) = Ok reprs ->
  reprs ∩ excluded_resources visitor = ∅ ->
  v_raises (visit visitor visited) = Some e ->
  accept visitor self stack
  = mkRun (apply_visit visited (visit visitor visited)) [EvVisit visited]
      (Some e)
  /\ (forall ss,
        cls self <> IamCuratedRole ->
        _root self = true \/ default [] stack <> [] ->
        Forall nameable (lineage (set_stack self (default [] stack))) ->
        segments (lineage (set_stack self (default [] stack))) = Ok ss ->
        try_accept visitor self stack
        = mkRun (set_full_resource_name
                   (apply_visit visited (visit visitor visited))
                   (String.concat "/" ss))
            [EvVisit visited; EvOnChildError (String.concat "/" ss) (inl e)]
            None)
  /\ (cls self = IamCuratedRole ->
      try_accept visitor self stack
      = mkRun (apply_visit visited (visit visitor visited)) [EvVisit visited]
          (Some (no_attribute "type"))).
Proof.
  intros visited Hr Hx He.
  assert (accept visitor self stack
          = mkRun (apply_visit visited (visit visitor visited))
              [EvVisit visited] (Some e)) as Ha.
  { rewrite (accept_visits visitor self stack reprs Hr Hx).
    fold visited. by rewrite He. }
  split; [exact Ha|]. split.
  - intros ss Hc Hp Hall Hss. unfold try_accept. rewrite Ha.
    apply (try_accept_handler_reports (set_stack self (default [] stack)));
      try done.
    destruct Hp as [Hp|Hp]; [by left|right]. by eexists.
  - intros Hc. unfold try_accept. rewrite Ha.
    unfold try_accept_handler. cbn [run_exn run_self run_trace].
    unfold repr, parent. simpl. by rewrite Hc.
Qed.

End properties.

(* ================================================================= *)
(** * The properties on explicit inputs *)

Section scenarios.

Import Scenario.

(** The crawl of [org_tree] reaches the state in which both threads have
    finished. *)
Lemma crawl_of_org_tree :
  crawl_reaches recording_visitor org_tree None ([[]; []], crawl_log).
Proof.
  unfold crawl_reaches, crawl_log.
  pose (t0 := run_trace (accept recording_visitor org_tree None)).
  pose (t1 := run_trace
                (try_accept recording_visitor project_p42 (Some [org_visited]))).
  transitivity ([[]] ++ t1 :: [], t0).
  - exact (pool_runs_thread recording_visitor t0 [] [] []).
  - exact (pool_runs_thread recording_visitor t1 [[]] [] t0).
Qed.

(** C1 on the crawl of [org_tree]: the project is visited fourth, its
    parent first. *)
Lemma parent_visited_before_child_witness :
  default [] (None : option (list Resource)) = []
  /\ crawl_reaches recording_visitor org_tree None ([[]; []], crawl_log)
  /\ crawl_log !! 3 = Some (EvVisit project_visited)
  /\ exists j p',
       j < 3 /\ crawl_log !! j = Some (EvVisit p')
       /\ same_object p' org_visited.
Proof.
  split; [reflexivity|]. split; [exact crawl_of_org_tree|].
  split; [vm_compute; reflexivity|].
  destruct (parent_visited_before_child recording_visitor org_tree None
              [[]; []] crawl_log eq_refl crawl_of_org_tree) as (Hvisit & _ & _).
  apply (Hvisit 3 project_visited [org_visited] org_visited);
    vm_compute; reflexivity.
Defined.

(** C2 on the hierarchy of [org_tree] with [project/42] excluded: the
    project matches by its number; its [accept] returns at once. *)
Lemma excluded_resource_not_delivered_witness :
  key (set_stack project_p42 [org_visited]) = Ok (VStr "p42")
  /\ "project/42" ∈ excluded_resources (excluding_visitor {[ "project/42" ]})
  /\ accept (excluding_visitor {[ "project/42" ]}) project_p42
       (Some [org_visited])
     = mkRun (set_stack project_p42 [org_visited]) [] None.
Proof.
  split; [reflexivity|]. split; [vm_compute; reflexivity|].
  apply (excluded_resource_not_delivered
           (excluding_visitor {[ "project/42" ]}) project_p42
           (Some [org_visited]) (VStr "p42")).
  - reflexivity.
  - right. split; [reflexivity|]. exists (VStr "42").
    split; [reflexivity|]. vm_compute. reflexivity.
  - reflexivity.
Defined.

(** C3 as stated fails: the visit of [project_p42] raises, one child
    iterator is registered, and [accept] returns with the exception
    after the visit alone; no iterator was started. *)
Lemma visit_failure_skips_children :
  length (_contains project_p42) = 1
  /\ run_exn (accept raising_visitor project_p42 (Some [org_visited]))
     = Some (mkExn Exception "storage is down")
  /\ run_trace (accept raising_visitor project_p42 (Some [org_visited]))
     = [EvVisit project_visited]
  /\ ~ (exists r i,
          EvIter r i
          ∈ run_trace (accept raising_visitor project_p42
                         (Some [org_visited]))).
Proof.
  split; [reflexivity|].
  assert (run_trace (accept raising_visitor project_p42 (Some [org_visited]))
          = [EvVisit project_visited]) as Htr by (vm_compute; reflexivity).
  split; [vm_compute; reflexivity|]. split; [exact Htr|].
  rewrite Htr. intros (r & i & Hin).
  apply list_elem_of_singleton in Hin. discriminate.
Qed.


(** The same project accepted as a whole: the project is visited, both
    iterators are started, the instance of the second is visited, and no
    warning is recorded or reported. *)
Lemma skipped_iterator_error_scenario :
  let r := accept recording_visitor
             (project_with_failing_iterator benign_error)
             (Some [org_visited]) in
  run_exn r = None
  /\ _warning (run_self r) = []
  /\ length (run_trace r) = 4
  /\ (type <$> visits (run_trace r)) = ["project"; "instance"].
Proof. vm_compute. done. Qed.

(** With an error that is not skipped, one warning is recorded, and
    reported at the end; the second iterator is driven all the same. *)
Lemma warned_iterator_error_scenario :
  let r := accept recording_visitor
             (project_with_failing_iterator quota_error)
             (Some [org_visited]) in
  run_exn r = None
  /\ length (_warning (run_self r)) = 1
  /\ length (run_trace r) = 5
  /\ (type <$> visits (run_trace r)) = ["project"; "instance"].
Proof. vm_compute. done. Qed.

(** C5 as stated fails. The request for the billing info of an active
    project raises an error that is not an API error: the call raises,
    nothing is memoised, and the next call invokes the client again, so
    that the client is invoked twice across two calls. And the fetch of
    the dataset policy of a dataset that failed and memoised [None]
    does not return [None] for ever: after a fetch of the IAM policy has
    replaced the entry, the next call returns the derived policy. *)
Lemma raising_fetch_is_repeated :
  let call := mkCall "fetch_billing_project_info" [VStr "42"] in
  let e := mkExn Exception "connection reset" in
  let c := Some client_no_dataset_policy in
  let st1 := snd (DataSet.get_dataset_policy c (dataset_d1, [])) in
  let st2 := snd (DataSet.get_iam_policy c st1) in
  Project.get_billing_info (Some client_broken) (project_p42, [])
  = (Raise e, (project_p42, [call]))
  /\ Project.get_billing_info (Some client_broken) (project_p42, [call])
     = (Raise e, (project_p42, [call; call]))
  /\ count_calls "fetch_billing_project_info" [call; call] = 2
  /\ fst (DataSet.get_dataset_policy c (dataset_d1, [])) = Ok VNone
  /\ fst (DataSet.get_dataset_policy c st2) = Ok (VList [VStr "iam-policy"])
  /\ VList [VStr "iam-policy"] <> VNone.
Proof. vm_compute. done. Qed.

(** C5 as amended, on an active project: two calls of
    [get_billing_info], a warning, a third call; the client was invoked
    once. *)
Lemma memoised_fetch_once_witness :
  let info := VDict {[ "billingEnabled" := VBool true ]} in
  let first := Project.get_billing_info (Some client_ok) (project_p42, []) in
  let warned := (add_warning (fst (snd first)) "w", snd (snd first)) in
  first = (Ok info, snd first)
  /\ attrs (fst (snd first)) !! "__cached_billing_info" = Some info
  /\ Project.get_billing_info (Some client_ok) (snd first)
     = (Ok info, snd first)
  /\ Project.get_billing_info (Some client_ok) warned = (Ok info, warned)
  /\ count_calls "fetch_billing_project_info" (snd warned) = 1.
Proof.
  intros info first warned.
  assert (first = (Ok info, snd first)) as Hfirst by (vm_compute; reflexivity).
  split; [exact Hfirst|].
  destruct (memoised_fetch_once "billing_info" _ (Some client_ok)
              (Some client_ok) (project_p42, []) (snd first) info "w" 2
              Hfirst) as (Hstored & Hsecond & Hthird & _).
  split; [exact Hstored|]. split; [exact Hsecond|]. split; [exact Hthird|].
  vm_compute. reflexivity.
Defined.

(** C6 as stated fails where an entry holds [None]: the fetch of the
    dataset policy fails and caches [None]; the fetch of the IAM policy
    then succeeds and replaces that entry, so that the next call of
    [get_dataset_policy] returns the derived policy, not the cached
    [None]. *)
Lemma set_cache_overwrites_cached_none :
  let c := Some client_no_dataset_policy in
  let st1 := snd (DataSet.get_dataset_policy c (dataset_d1, [])) in
  let st2 := snd (DataSet.get_iam_policy c st1) in
  fst (DataSet.get_dataset_policy c (dataset_d1, [])) = Ok VNone
  /\ attrs (fst st1) !! "__cached_dataset_policy" = Some VNone
  /\ fst (DataSet.get_iam_policy c st1) = Ok (VStr "iam-policy")
  /\ attrs (fst st2) !! "__cached_dataset_policy"
     = Some (VList [VStr "iam-policy"])
  /\ fst (DataSet.get_dataset_policy c st2) = Ok (VList [VStr "iam-policy"])
  /\ count_calls "fetch_bigquery_dataset_policy" (snd st2) = 1.
Proof. vm_compute. done. Qed.

(** C6 as amended, on a fresh dataset: the IAM policy is fetched, and
    the dataset policy then comes from the cache, converted from the
    IAM policy. *)
Lemma dataset_paired_cache_witness :
  let call := mkCall "fetch_bigquery_iam_policy"
                [VStr "p42"; VStr "42"; VStr "d1"] in
  DataSet.fetch_args dataset_d1 = Ok (call_args call)
  /\ attrs dataset_d1 !! "__cached_dataset_policy" = None
  /\ exists s1,
       DataSet.get_iam_policy (Some client_no_dataset_policy) (dataset_d1, [])
       = (Ok (VStr "iam-policy"), (s1, [call]))
       /\ forall client' log1,
            DataSet.get_dataset_policy client' (s1, log1)
            = (Ok (convert_iam_to_bigquery_policy (VStr "iam-policy")),
               (s1, log1)).
Proof.
  intros call. split; [reflexivity|]. split; [reflexivity|].
  destruct (dataset_paired_cache client_no_dataset_policy dataset_d1 []
              (call_args call) (VStr "iam-policy") VNone eq_refl)
    as (Hiam & _ & _ & _).
  destruct Hiam as (s1 & v & Hcall & Hlater & Habsent & _);
    [reflexivity|reflexivity|].
  exists s1. split; [exact Hcall|].
  intros client' log1. rewrite <- Habsent; [apply Hlater|by left].
Defined.

(** C7 on a client whose fetch answers "Not found". *)
Lemma placeholder_project_accept_raises_witness :
  respond (client_failing "Not found") []
    (mkCall "fetch_crm_project" [VStr "bad"])
  = Raise (mkExn ApiExecutionError "Not found")
  /\ exists placeholder,
       fst (from_root_id (client_failing "Not found") "projects/bad" true [])
       = Ok placeholder
       /\ _data placeholder = VDict {[ "name" := VStr "projects/bad" ]}
       /\ _contains placeholder = []
       /\ exists err,
            exn_cls err = KeyError
            /\ run_exn (accept recording_visitor placeholder None) = Some err.
Proof.
  split; [reflexivity|].
  destruct (placeholder_project_accept_raises (client_failing "Not found")
              recording_visitor true []
              (mkExn ApiExecutionError "Not found") None eq_refl eq_refl)
    as (placeholder & w & Hfrom & _ & Hdata & _ & _ & (err & Hcls & Hacc) & _).
  exists placeholder. rewrite Hfrom, Hacc.
  split; [reflexivity|]. split; [exact Hdata|].
  split; [|by exists err].
  injection Hfrom as <-. reflexivity.
Defined.

(** Against C8: a crawl of an organization whose iterator yields a
    curated role visits the role below the organization, and the role is
    named [role/roles/viewer], without the segment of its ancestor. *)
Lemma curated_role_name_omits_ancestors :
  let log := run_trace (accept recording_visitor org_with_role None) in
  crawlable org_with_role
  /\ crawl_reaches recording_visitor org_with_role None ([[]], log)
  /\ log !! 2 = Some (EvVisit role_visited)
  /\ ancestors role_visited = [org_with_role_visited]
  /\ segments (ancestors role_visited ++ [role_visited])
     = Ok ["organization/111"; "role/roles/viewer"]
  /\ full_resource_name_spec role_visited
     = Ok "organization/111/role/roles/viewer"
  /\ get_full_resource_name role_visited
     = (Ok "role/roles/viewer",
        set_full_resource_name role_visited "role/roles/viewer").
Proof.
  intros log. split_and!.
  - split; [reflexivity|]. split; [discriminate|].
    repeat constructor; discriminate.
  - exact (pool_runs_thread recording_visitor log [] [] []).
  - vm_compute. reflexivity.
  - reflexivity.
  - reflexivity.
  - reflexivity.
  - reflexivity.
Qed.

(** C8 as amended, on the crawl of [org_tree]: the instance is visited
    below the project below the organization, and is named by the three
    segments. *)
Lemma full_resource_name_joins_ancestors_witness :
  crawlable org_tree
  /\ crawl_reaches recording_visitor org_tree None ([[]; []], crawl_log)
  /\ crawl_log !! 5 = Some (EvVisit instance_visited)
  /\ ancestors instance_visited = [org_visited; project_visited]
  /\ get_full_resource_name instance_visited
     = (Ok "organization/111/project/p42/instance/i1",
        set_full_resource_name instance_visited
          "organization/111/project/p42/instance/i1").
Proof.
  assert (crawlable org_tree) as Hroot.
  { split; [reflexivity|]. split; [discriminate|].
    repeat constructor; discriminate. }
  assert (crawl_log !! 5 = Some (EvVisit instance_visited)) as Hlog
    by (vm_compute; reflexivity).
  split; [exact Hroot|]. split; [exact crawl_of_org_tree|].
  split; [exact Hlog|]. split; [reflexivity|].
  destruct (full_resource_name_joins_ancestors recording_visitor org_tree
              instance_visited [[]; []] crawl_log Hroot crawl_of_org_tree
              (list_elem_of_lookup_2 _ _ _ Hlog))
    as (n & Hspec & _ & Hname & _).
  injection Hspec as <-. apply Hname. by left.
Defined.

(** The root organization [organizations/111] is named
    [organization/111], and the name is stored. *)
Lemma root_organization_name :
  get_full_resource_name org_111
  = (Ok "organization/111", set_full_resource_name org_111 "organization/111")
  /\ get_full_resource_name (set_full_resource_name org_111 "organization/111")
     = (Ok "organization/111",
        set_full_resource_name org_111 "organization/111").
Proof. split; reflexivity. Qed.

(** A curated role has nothing above it, also when it is bound below an
    organization: it is named by its own segment. *)
Lemma curated_role_name :
  lineage (set_stack curated_role [org_visited])
  = [set_stack curated_role [org_visited]]
  /\ fst (get_full_resource_name (set_stack curated_role [org_visited]))
     = Ok "role/roles/viewer".
Proof. split; reflexivity. Qed.

(** C9 on a project whose cached billing info is [None] and whose set of
    enabled APIs holds the compute API. *)
Lemma project_predicates_witness :
  Project.enumerable project_without_billing_info = Ok true
  /\ Project.billing_enabled (project_without_billing_info, [])
     = (Ok (VBool true), (project_without_billing_info, []))
  /\ Project.is_api_enabled project_without_billing_info
       "compute.googleapis.com" = true
  /\ Project.is_api_enabled project_without_billing_info
       "storage-component.googleapis.com" = false
  /\ Project.is_api_enabled project_p42 "storage-component.googleapis.com"
     = true.
Proof.
  destruct (project_predicates project_without_billing_info []
              "compute.googleapis.com") as (Henum & Hbilling & Hapi & _).
  split; [apply Henum; eexists; split; reflexivity|].
  split; [apply (Hbilling VNone); reflexivity|].
  split; [apply Hapi; by apply list_elem_of_singleton|].
  split; reflexivity.
Defined.

(** C10 on a folder. *)
Lemma parent_of_non_root_witness :
  ResourceManagerFolder <> IamCuratedRole
  /\ (exists e,
        parent (new_resource ResourceManagerFolder (VDict ∅) false [])
        = Raise e /\ exn_cls e = TypeError)
  /\ parent (set_stack (new_resource ResourceManagerFolder (VDict ∅) false [])
               [org_visited])
     = Ok (Some org_visited).
Proof.
  split; [discriminate|].
  destruct (parent_of_non_root ResourceManagerFolder (VDict ∅) []
              [org_visited]) as (Hunbound & Hbound & _); [discriminate|].
  split; [exact Hunbound|exact Hbound].
Defined.

(** C10 as stated fails on a curated role, which is constructed with
    [root=False]: with its stack unset, [parent()] returns [None] rather
    than raising; and bound below an organization, [parent()] still
    returns [None], not the top of the stack. *)
Lemma curated_role_parent_is_none :
  _root curated_role = false
  /\ _stack curated_role = None
  /\ parent curated_role = Ok None
  /\ ~ (exists e, parent curated_role = Raise e)
  /\ parent (set_stack curated_role [org_visited]) = Ok None
  /\ last [org_visited] = Some org_visited.
Proof.
  split_and!; try reflexivity. intros [e He]. discriminate.
Qed.

(** The warning of an organization is reported when its [accept]
    ends. *)
Lemma accept_reports_warnings_witness :
  run_exn (accept recording_visitor org_with_warning None) = None
  /\ run_trace (accept recording_visitor org_with_warning None) <> []
  /\ exists name,
       last (run_trace (accept recording_visitor org_with_warning None))
       = Some (EvOnChildError name
                 (inr (get_warning
                         (run_self
                            (accept recording_visitor org_with_warning None))))).
Proof.
  assert (run_exn (accept recording_visitor org_with_warning None) = None)
    as H1 by reflexivity.
  assert (run_trace (accept recording_visitor org_with_warning None) <> [])
    as H2 by (vm_compute; discriminate).
  split; [exact H1|]. split; [exact H2|].
  destruct (accept_reports_warnings recording_visitor org_with_warning None
              H1 H2) as [_ Hlast].
  destruct Hlast as (name & _ & Hl); [vm_compute; discriminate|].
  by exists name.
Defined.

(** A visit that raises on a root organization is reported under the
    name of the organization. *)
Lemma try_accept_contains_failures_witness :
  run_exn (accept raising_visitor org_111 None)
  = Some (mkExn Exception "storage is down")
  /\ run_exn (try_accept raising_visitor org_111 None) = None
  /\ run_trace (try_accept raising_visitor org_111 None)
     = run_trace (accept raising_visitor org_111 None)
       ++ [EvOnChildError "organization/111"
             (inl (mkExn Exception "storage is down"))].
Proof.
  split; [reflexivity|].
  destruct (try_accept_contains_failures raising_visitor org_111 None
              ["organization/111"]) as (H1 & _ & H2).
  - discriminate.
  - by left.
  - apply Forall_cons_2; [|apply Forall_nil_2]. split; [by left|done].
  - reflexivity.
  - split; [exact H1|]. by apply H2.
Defined.

(** A visit that raises on a curated role yielded below an organization
    leaves [try_accept] as an [AttributeError] and ends the loop. *)
Lemma curated_role_failure_escapes_witness :
  cls curated_role = IamCuratedRole
  /\ run_exn (accept raising_visitor curated_role (Some ([] ++ [org_visited])))
     = Some (mkExn Exception "storage is down")
  /\ drive_children (fun r s => accept raising_visitor r (Some s))
       org_visited [] [curated_role; curated_role]
     = (run_trace (accept raising_visitor curated_role
                     (Some ([] ++ [org_visited]))),
        Some (no_attribute "type")).
Proof.
  split; [reflexivity|]. split; [reflexivity|].
  apply (curated_role_failure_escapes raising_visitor org_visited
           curated_role [] [curated_role]
           (mkExn Exception "storage is down") eq_refl eq_refl).
Defined.

(** An instance without an [id], yielded before a sound instance: the
    turn of the loop produces no event. *)
Lemma unidentified_child_ends_iteration_witness :
  should_dispatch instance_without_id = false
  /\ key (set_stack instance_without_id ([] ++ [org_visited]))
     = Raise (mkExn KeyError "'key: id, data: {...}'")
  /\ exists self' oe,
       drive_yielder (fun r s => accept recording_visitor r (Some s))
         org_visited [] ([instance_without_id; instance_i1], None)
       = (self', [], oe).
Proof.
  assert (key (set_stack instance_without_id ([] ++ [org_visited]))
          = Raise (mkExn KeyError "'key: id, data: {...}'")) as Hk
    by reflexivity.
  split; [reflexivity|]. split; [exact Hk|].
  apply (unidentified_child_ends_iteration recording_visitor org_visited
           instance_without_id [] [instance_i1] None
           (mkExn KeyError "'key: id, data: {...}'") eq_refl eq_refl Hk).
Defined.

(** An organization that cannot be fetched is crawled as a
    placeholder. *)
Lemma placeholder_root_is_visited_witness :
  respond (client_failing "backend unavailable") []
    (mkCall "fetch_crm_organization" [VStr "organizations/111"])
  = Raise (mkExn ApiExecutionError "backend unavailable")
  /\ exists placeholder w rest,
       from_root_id (client_failing "backend unavailable")
         "organizations/111" true []
       = (Ok placeholder,
          [] ++ [mkCall "fetch_crm_organization" [VStr "organizations/111"]])
       /\ cls placeholder = ResourceManagerOrganization
       /\ _warning placeholder = [w]
       /\ key placeholder = Ok (VStr (split1_last "organizations/111"))
       /\ run_trace (accept recording_visitor placeholder None)
          = EvVisit (set_visitor (set_stack placeholder [])) :: rest
       /\ _warning (set_visitor (set_stack placeholder [])) = [w].
Proof.
  split; [reflexivity|].
  apply (placeholder_root_is_visited (client_failing "backend unavailable")
           recording_visitor "organizations/111" "fetch_crm_organization"
           ResourceManagerOrganization true []
           (mkExn ApiExecutionError "backend unavailable")).
  - left. split; [reflexivity|]. split; reflexivity.
  - reflexivity.
  - reflexivity.
  - apply not_elem_of_empty.
Defined.

Lemma client_failing_api_errors_only (msg : string) :
  raises_api_errors_only (client_failing msg).
Proof. intros log call e [= <-]. reflexivity. Defined.

(** A composite root over an organization and a project, neither of
    which can be fetched: both are yielded. *)
Lemma composite_root_yields_every_child_witness :
  exists rs calls,
    CompositeRoot.iter (client_failing "backend unavailable")
      (CompositeRoot.create (client_failing "backend unavailable")
         (VList (VStr <$> ["organizations/1"; "projects/2"]))) []
    = ((rs, None), [] ++ calls)
    /\ length calls = length ["organizations/1"; "projects/2"]
    /\ Forall2 (fun id r => _root r = false /\ _stack r = None
                            /\ String.prefix (type r) id = true)
         ["organizations/1"; "projects/2"] rs.
Proof.
  apply (composite_root_yields_every_child
           (client_failing "backend unavailable")
           ["organizations/1"; "projects/2"] []).
  - apply client_failing_api_errors_only.
  - apply Forall_cons_2; [reflexivity|].
    apply Forall_cons_2; [reflexivity|]. apply Forall_nil_2.
Defined.

(** A composite root configured with a billing account between an
    organization and a folder: the folder is never fetched. *)
Lemma unsupported_composite_child_ends_iteration_witness :
  supported_root_id "billingAccounts/3" = false
  /\ exists rs calls,
       CompositeRoot.iter (client_failing "backend unavailable")
         (CompositeRoot.create (client_failing "backend unavailable")
            (VList (VStr <$> ["organizations/1"] ++ "billingAccounts/3"
                                 :: ["folders/4"]))) []
       = ((rs,
           Some (mkExn Exception
                   "Unsupported root id, must be one of organizations,projects,folders")),
          [] ++ calls)
       /\ length rs = length ["organizations/1"]
       /\ length calls = length ["organizations/1"].
Proof.
  split; [reflexivity|].
  apply (unsupported_composite_child_ends_iteration
           (client_failing "backend unavailable")
           ["organizations/1"] ["folders/4"] "billingAccounts/3" []).
  - apply client_failing_api_errors_only.
  - apply Forall_cons_2; [reflexivity|]. apply Forall_nil_2.
  - reflexivity.
Defined.

(** A display name assigned to an organization is read back. *)
Lemma setitem_then_getitem_witness :
  setitem org_111 "displayName" (VStr "Example")
  = Ok (set_data org_111
          (VDict (<[ "displayName" := VStr "Example" ]>
                  {[ "name" := VStr "organizations/111" ]})))
  /\ getitem (set_data org_111
                (VDict (<[ "displayName" := VStr "Example" ]>
                        {[ "name" := VStr "organizations/111" ]})))
       "displayName"
     = Ok (VStr "Example").
Proof.
  split; [reflexivity|].
  destruct (setitem_then_getitem org_111 _ "displayName" (VStr "Example")
              eq_refl) as [Hget _].
  exact Hget.
Defined.

(** Deleting the name of an organization. *)
Lemma delitem_removes_witness :
  _data org_111 = VDict {[ "name" := VStr "organizations/111" ]}
  /\ exists self',
       delitem org_111 "name" = Ok self'
       /\ exists e, getitem self' "name" = Raise e /\ exn_cls e = KeyError.
Proof.
  split; [reflexivity|].
  destruct (delitem_removes org_111 "name"
              {[ "name" := VStr "organizations/111" ]} eq_refl)
    as (self' & Hdel & Hget & _).
  by exists self'.
Defined.

(** The key of the organization [organizations/111] is [111]. *)
Lemma keys_read_from_names_witness :
  getitem org_111 "name" = Ok (VStr "organizations/111")
  /\ key org_111 = Ok (VStr "111").
Proof.
  split; [reflexivity|].
  destruct (keys_read_from_names org_111 "organizations/111" eq_refl)
    as [Hfirst _].
  destruct Hfirst as [Hslash _]; [by left|].
  apply (Hslash "organizations" "111"); reflexivity.
Defined.

Lemma cluster_link_parts_no_slash : Forall no_slash cluster_link_parts.
Proof.
  repeat (apply Forall_cons_2; [reflexivity|]). apply Forall_nil_2.
Defined.

(** The zone of a zonal cluster, which has no location. *)
Lemma cluster_zone_and_location_witness :
  getitem cluster_c1 "selfLink"
  = Ok (VStr (String.concat "/" cluster_link_parts))
  /\ KubernetesCluster.zone cluster_c1 = Ok (VStr "us-central1-a")
  /\ KubernetesCluster.location cluster_c1 = Ok VNone.
Proof.
  split; [reflexivity|].
  destruct (cluster_zone_and_location cluster_c1 cluster_link_parts)
    as (Hzone & _ & _ & Hloc).
  - discriminate.
  - apply cluster_link_parts_no_slash.
  - reflexivity.
  - split.
    + apply (Hzone (take 6 cluster_link_parts) "us-central1-a"
               (drop 8 cluster_link_parts)); [reflexivity|].
      intros Hin. simpl in Hin.
      repeat (apply elem_of_cons in Hin as [Hin|Hin]; [discriminate|]).
      by apply elem_of_nil in Hin.
    + apply Hloc. intros Hin. unfold cluster_link_parts in Hin.
      repeat (apply elem_of_cons in Hin as [Hin|Hin]; [discriminate|]).
      by apply elem_of_nil in Hin.
Defined.

(** A cluster without a link has neither zone nor location. *)
Lemma cluster_link_edges_witness :
  KubernetesCluster.zone cluster_without_link = Ok VNone
  /\ KubernetesCluster.location cluster_without_link = Ok VNone.
Proof.
  destruct (cluster_link_edges cluster_without_link) as [Hmissing _].
  apply (Hmissing {[ "name" := VStr "c2" ]}); reflexivity.
Defined.

(** The IAM policy of an organization cannot be fetched: one warning,
    and no second request. *)
Lemma iam_policy_failure_reported_once_witness :
  exists self',
    OrganizationPolicies.get_iam_policy
      (Some (client_failing "backend unavailable")) (org_111, [])
    = (Ok VNone,
       (self',
        [] ++ [mkCall "fetch_crm_organization_iam_policy"
                 [VStr "organizations/111"]]))
    /\ _warning self'
       = _warning org_111
         ++ ["Could not get IAM policy for " +:+ "organization" +:+ " "
             +:+ split1_last "organizations/111" +:+ ": "
             +:+ "backend unavailable"]
    /\ OrganizationPolicies.get_iam_policy None
         (self',
          [] ++ [mkCall "fetch_crm_organization_iam_policy"
                   [VStr "organizations/111"]])
       = (Ok VNone,
          (self',
           [] ++ [mkCall "fetch_crm_organization_iam_policy"
                    [VStr "organizations/111"]])).
Proof.
  apply (iam_policy_failure_reported_once OrganizationPolicies.get_iam_policy
           "fetch_crm_organization_iam_policy" "organization"
           "organizations/111" (client_failing "backend unavailable") None
           org_111 [] (mkExn ApiExecutionError "backend unavailable")).
  - left. split; [reflexivity|]. split; [reflexivity|]. split; reflexivity.
  - reflexivity.
  - reflexivity.
  - reflexivity.
  - reflexivity.
Defined.

(** A project that is being deleted is not fetched. *)
Lemma inactive_project_is_not_fetched_witness :
  Project.enumerable project_deleted = Ok false
  /\ ProjectPolicies.get_iam_policy (Some client_ok) (project_deleted, [])
     = (Ok (VDict ∅),
        (set_attrs project_deleted
           (<[ "__cached_iam_policy" := VDict ∅ ]> (attrs project_deleted)),
         [])).
Proof.
  split; [reflexivity|].
  destruct (inactive_project_is_not_fetched (Some client_ok) project_deleted
              [] eq_refl) as [Hiam _].
  apply Hiam. reflexivity.
Defined.

(** The datasets of a project, listed by a client that fails after the
    first: one dataset is yielded, and the failure ends the iterator. *)
Lemma iterator_yields_what_the_api_lists_witness :
  ResourceIterator.iter_args dataset_iterator project_p42 = Ok [VStr "42"]
  /\ exists children ending',
       ResourceIterator.iter dataset_iterator client_ok gcp_listing
         (project_p42, [])
       = ((children, ending'),
          (project_p42,
           [] ++ [mkCall (ResourceIterator.api_method_name dataset_iterator)
                    [VStr "42"]]))
       /\ length children = 1
       /\ ending' = Some quota_error.
Proof.
  split; [reflexivity|].
  destruct (iterator_yields_what_the_api_lists dataset_iterator client_ok
              gcp_listing project_p42 [] [VStr "42"]
              [(VDict {[ "id" := VStr "p42:d1" ]}, VNone)] (Some quota_error)
              eq_refl eq_refl eq_refl)
    as (children & ending' & Hiter & Hall & _ & _).
  exists children, ending'. split; [exact Hiter|].
  split; [by rewrite <- (Forall2_length _ _ _ Hall)|].
  pose proof (eq_refl :
    snd (fst (ResourceIterator.iter dataset_iterator client_ok gcp_listing
                (project_p42, [])))
    = Some quota_error) as Hc.
  rewrite Hiter in Hc. exact Hc.
Defined.

(** The datasets of a project, with a client that does not support the
    listing. *)
Lemma unsupported_resource_type_is_silent_witness :
  drive_yielder (fun r s => accept recording_visitor r (Some s))
    project_bound [org_visited]
    (fst (ResourceIterator.iter dataset_iterator client_ok gcp_unsupported
            (project_bound, [])))
  = (project_bound, [], None).
Proof.
  destruct (unsupported_resource_type_is_silent dataset_iterator client_ok
              gcp_unsupported recording_visitor project_bound [org_visited]
              [] [VStr "42"] (mkExn ResourceNotSupported "not supported")
              eq_refl eq_refl eq_refl eq_refl) as [_ Hturn].
  exact Hturn.
Defined.

(** The Cloud SQL instances of a project that is being deleted are not
    listed. *)
Lemma iterator_sends_no_request_witness :
  ResourceIterator.iter cloudsql_iterator client_ok gcp_listing
    (project_deleted, [])
  = (([], None), (project_deleted, [])).
Proof.
  destruct (iterator_sends_no_request cloudsql_iterator client_ok gcp_listing
              project_deleted []) as [Hinactive _].
  apply Hinactive; reflexivity.
Defined.

(** An organization without an owner has no directory. *)
Lemma directory_resource_id_lookup_witness :
  _data org_111 = VDict {[ "name" := VStr "organizations/111" ]}
  /\ OrganizationPolicies.has_directory_resource_id org_111 = Ok false.
Proof.
  split; [reflexivity|].
  apply (directory_resource_id_lookup org_111
           {[ "name" := VStr "organizations/111" ]} eq_refl).
Defined.

(** The enabled APIs of an active project cannot be listed. *)
Lemma enabled_apis_failure_enables_all_witness :
  exists self',
    Project.get_enabled_apis (Some (client_failing "backend unavailable"))
      (project_p42, [])
    = (Ok (VList []),
       (self', [] ++ [mkCall "fetch_services_enabled_apis" [VStr "42"]]))
    /\ _warning self'
       = _warning project_p42
         ++ ["Could not get Enabled APIs for project " +:+ str (VStr "p42")
             +:+ ": " +:+ "backend unavailable"]
    /\ forall service_name, Project.is_api_enabled self' service_name = true.
Proof.
  apply (enabled_apis_failure_enables_all (client_failing "backend unavailable")
           project_p42 [] (VStr "42") (VStr "p42")
           (mkExn ApiExecutionError "backend unavailable")).
  - reflexivity.
  - reflexivity.
  - reflexivity.
  - reflexivity.
  - reflexivity.
  - reflexivity.
Defined.

(** A project whose billing info could not be fetched and whose enabled
    APIs are known: compute counts as enabled, bigquery does not. *)
Lemma billing_gates_apis_witness :
  ProjectPolicies.compute_api_enabled (project_without_billing_info, [])
  = (Ok (VBool true), (project_without_billing_info, []))
  /\ ProjectPolicies.bigquery_api_enabled (project_without_billing_info, [])
     = (Ok (VBool false), (project_without_billing_info, [])).
Proof.
  destruct (billing_gates_apis project_without_billing_info []) as [Hall _].
  apply Forall_cons in Hall as [[Hbigquery _] Hall].
  apply Forall_cons in Hall as [[Hcompute _] _].
  split.
  - apply (Hcompute VNone); reflexivity.
  - apply (Hbigquery VNone); reflexivity.
Defined.

(** C3 as amended, on the same call, and on the call wrapped by
    [try_accept]. *)
Lemma visit_failure_ends_accept_witness :
  cur_resource_repr (set_stack project_p42 [org_visited])
  = Ok ({[ "project/p42" ]} ∪ {[ "project/42" ]})
  /\ v_raises (visit raising_visitor project_visited)
     = Some (mkExn Exception "storage is down")
  /\ accept raising_visitor project_p42 (Some [org_visited])
     = mkRun (apply_visit project_visited
                (visit raising_visitor project_visited))
         [EvVisit project_visited]
         (Some (mkExn Exception "storage is down"))
  /\ try_accept raising_visitor project_p42 (Some [org_visited])
     = mkRun (set_full_resource_name
                (apply_visit project_visited
                   (visit raising_visitor project_visited))
                "organization/111/project/p42")
         [EvVisit project_visited;
          EvOnChildError "organization/111/project/p42"
            (inl (mkExn Exception "storage is down"))]
         None.
Proof.
  split; [reflexivity|]. split; [reflexivity|].
  destruct (visit_failure_ends_accept raising_visitor project_p42
              (Some [org_visited]) ({[ "project/p42" ]} ∪ {[ "project/42" ]})
              (mkExn Exception "storage is down"))
    as (Haccept & Htry & _).
  - reflexivity.
  - vm_compute. reflexivity.
  - reflexivity.
  - split; [exact Haccept|].
    apply (Htry ["organization/111"; "project/p42"]).
    + discriminate.
    + right. discriminate.
    + change (lineage (set_stack project_p42 (default [] (Some [org_visited]))))
        with [org_visited; project_bound].
      repeat apply Forall_cons_2; try apply Forall_nil_2;
        (split; [|reflexivity]); [by left|right; right; by eexists].
    + reflexivity.
Defined.

End scenarios.
